(** * checkmyspeed: the measurement engine of [components/speed-test.tsx]

    A shallow embedding of the speed-test component: the latency
    aggregation of [runPingTest], the throughput formula of
    [runDownloadTest] and [runUploadTest], the progress mapping of
    [updateOverallProgress] and the orchestration of [startAllTests],
    together with the properties the specification states about them.

    Conventions of the embedding.
    - A JavaScript number is a rational ([Q]) or one of the three
      non-finite values; arithmetic is exact (no binary rounding).  A
      string printed by [toFixed] is therefore that of the exact value:
      where the exact value lies on a two-decimal tie, the binary
      number the browser holds can print the neighbouring string.
    - Times are readings of [performance.now()] in milliseconds.
    - The network, the clock and the user are an explicit environment
      ([Env]): every [await] takes its outcome from it.  The outcomes
      are those of requests that settle (resolve, reject or abort); a
      request that is never answered is not described.
    - React state is a record ([UI]); a [setX] call updates it.  The
      constants [ping], [downloadSpeed], [uploadSpeed] and [ipAddress]
      that the body of [startAllTests] reads are those of the render in
      which the handler was created ([Render]); a [setX] call never
      changes them. *)

From Stdlib Require Import List ZArith NArith QArith Qround Qabs.
From Stdlib Require Import String Ascii DecimalString Bool Arith Lia Lqa.
From Stdlib Require Import Sorting.Sorted Sorting.Permutation.
From Stdlib Require Import Decimal DecimalPos DecimalN.
Import ListNotations.

Local Open Scope Q_scope.

(** ** JavaScript numbers and the built-ins the component calls *)

Module Js.

Inductive num : Type :=
| Fin (q : Q)
| Inf (negative : bool)
| NaN.

(** [a / b] on finite operands. *)
Definition div (a b : Q) : num :=
  if Qeq_bool b 0 then
    (if Qeq_bool a 0 then NaN else Inf (negb (Qle_bool 0 a)))
  else Fin (a / b).

(** [x / c] and [x * c] for a finite constant [c > 0]. *)
Definition divPos (x : num) (c : Q) : num :=
  match x with Fin q => Fin (q / c) | other => other end.

Definition mulPos (x : num) (c : Q) : num :=
  match x with Fin q => Fin (q * c) | other => other end.

(** [a < b], the strict comparison of the language. *)
Definition ltb (a b : Q) : bool := negb (Qle_bool b a).

(** [Math.round]: the nearest integer, halves upwards. *)
Definition round (x : Q) : Z := Qfloor (x + (1 # 2)).

(** [Math.min] on finite operands. *)
Definition min (a b : Q) : Q := if Qle_bool a b then a else b.

(** [x <= y] between two finite numbers. *)
Definition leNum (x y : num) : Prop :=
  match x, y with
  | Fin a, Fin b => a <= b
  | _, _ => False
  end.

Definition string_of_N (n : N) : string :=
  NilZero.string_of_uint (N.to_uint n).

Fixpoint zeros (k : nat) : string :=
  match k with
  | O => EmptyString
  | S k' => String "0" (zeros k')
  end.

(** [Number.prototype.toFixed(f)] on a finite value below 1e21: [n] is
    the integer with [n / 10^f] nearest to [|x|] (the larger one on a
    tie), printed with [f] digits after the point. *)
Definition scaled (f : nat) (x : Q) : Z :=
  Qfloor (Qabs x * inject_Z (10 ^ Z.of_nat f) + (1 # 2)).

Definition toFixedQ (f : nat) (x : Q) : string :=
  let n := Z.to_N (scaled f x) in
  let p := (10 ^ N.of_nat f)%N in
  let whole := string_of_N (n / p) in
  let frac := string_of_N (n mod p) in
  let sign := if ltb x 0 then "-"%string else ""%string in
  match f with
  | O => (sign ++ whole)%string
  | _ => (sign ++ whole ++ "." ++ zeros (f - String.length frac) ++ frac)%string
  end.

Definition toFixed (f : nat) (x : num) : string :=
  match x with
  | Fin q => toFixedQ f q
  | Inf false => "Infinity"%string
  | Inf true => "-Infinity"%string
  | NaN => "NaN"%string
  end.

(** [parseFloat] on the strings the component can hold: an optional
    sign, then [Infinity] or decimal digits with an optional fraction.
    (Exponents are not read: [toFixed] never prints one below 1e21.) *)
Definition digit (c : ascii) : option N :=
  let n := N_of_ascii c in
  if ((48 <=? n) && (n <=? 57))%N then Some (n - 48)%N else None.

Fixpoint digits (s : string) (acc : N) (count : nat) : N * nat * string :=
  match s with
  | EmptyString => (acc, count, s)
  | String c rest =>
      match digit c with
      | Some d => digits rest (acc * 10 + d)%N (S count)
      | None => (acc, count, s)
      end
  end.

Definition parseUnsigned (s : string) : num :=
  if prefix "Infinity" s then Inf false else
  let '(whole, nw, rest) := digits s 0%N O in
  let '(frac, nf) :=
    match rest with
    | String "." after => let '(fr, k, _) := digits after 0%N O in (fr, k)
    | _ => (0%N, O)
    end in
  match (nw + nf)%nat with
  | O => NaN
  | _ => Fin (Qred (inject_Z (Z.of_N whole)
                    + inject_Z (Z.of_N frac) / inject_Z (10 ^ Z.of_nat nf)))
  end.

Definition negate (x : num) : num :=
  match x with
  | Fin q => Fin (- q)
  | Inf s => Inf (negb s)
  | NaN => NaN
  end.

Definition parseFloat (s : string) : num :=
  match s with
  | String "-" rest => negate (parseUnsigned rest)
  | String "+" rest => parseUnsigned rest
  | _ => parseUnsigned s
  end.

End Js.

(** ** [updateOverallProgress] *)

(** The value [updateOverallProgress] passes to [setProgress]. *)
Definition overallProgress (stageStart stageEnd stageProgress : Q) : Z :=
  let overallRange := stageEnd - stageStart in
  let currentOverallProgress := stageStart + overallRange * (stageProgress / 100) in
  Js.round currentOverallProgress.

(** ** The throughput formula *)

(** [(bytes / (ms / 1000) / (1024 * 1024)) * 8] as [runDownloadTest]
    and [runUploadTest] write it, on a byte counter and an elapsed
    time in milliseconds. *)
Definition bytesQ (bytes : N) : Q := inject_Z (Z.of_N bytes).

Definition speedMbps (bytes : N) (ms : Q) : Js.num :=
  Js.mulPos (Js.divPos (Js.div (bytesQ bytes) (ms / 1000)) (1024 * 1024)) 8.

(** ** Latency aggregation ([runPingTest], after the probe loop) *)

Definition numPings : nat := 100.
Definition warmUpPings : nat := 10.
Definition penalty : Q := 1000.

(** [pingTimes.sort((a, b) => a - b)]: ascending, equal values keep
    their order. *)
Fixpoint insertAsc (x : Q) (l : list Q) : list Q :=
  match l with
  | [] => [x]
  | y :: rest => if Qle_bool x y then x :: l else y :: insertAsc x rest
  end.

Definition sortAsc (l : list Q) : list Q := fold_right insertAsc [] l.

(** [pingTimes[Math.floor(pingTimes.length / 2)]] *)
Definition medianOf (sorted : list Q) : option Q :=
  nth_error sorted (Nat.div (List.length sorted) 2).

(** [Math.min(300, median * 3)] *)
Definition trimThreshold (median : Q) : Q := Js.min 300 (median * 3).

(** [pingTimes.filter(t => t < Math.min(300, median * 3))] *)
Definition cleanedOf (sorted : list Q) (median : Q) : list Q :=
  filter (fun t => Js.ltb t (trimThreshold median)) sorted.

(** [cleaned.reduce((a, b) => a + b, 0)] *)
Definition sumOf (l : list Q) : Q := fold_left Qplus l 0.

Definition lengthQ (l : list Q) : Q := inject_Z (Z.of_nat (List.length l)).

(** The average [runPingTest] computes, or [None] on the two paths
    that call [setPing('N/A')]. *)
Definition averagePing (pingTimes : list Q) : option Q :=
  match pingTimes with
  | [] => None
  | _ =>
      let sorted := sortAsc pingTimes in
      match medianOf sorted with
      | None => None
      | Some median =>
          let cleaned := cleanedOf sorted median in
          match cleaned with
          | [] => None
          | _ => Some (sumOf cleaned / lengthQ cleaned)
          end
      end
  end.

(** The string [runPingTest] passes to [setPing]. *)
Definition pingDisplay (pingTimes : list Q) : string :=
  match averagePing pingTimes with
  | None => "N/A"%string
  | Some averagePing => Js.toFixedQ 2 averagePing
  end.

(** ** React state, exceptions and the environment *)

Inductive TestState : Type := idle | pinging | downloading | uploading | complete.

(** [interface TestResult]: a [number | null] field is an [option]. *)
Module TestResult.
Record t : Type := make {
  id : string;
  timestamp : string;
  ipAddress : string;
  ping : option Js.num;
  downloadSpeed : option Js.num;
  uploadSpeed : option Js.num
}.
End TestResult.

(** The [useState] cells of [SpeedTest] and [abortControllerRef].
    [progressLog] is a ghost field: every value passed to
    [setProgress], most recent first. *)
Module UI.
Record t : Type := make {
  testState : TestState;
  ping : string;
  downloadSpeed : string;
  uploadSpeed : string;
  currentSpeedDisplay : Js.num;
  progress : Z;
  ipAddress : string;
  testHistory : list TestResult.t;
  testStatus : string;
  isTesting : bool;
  abortControllerRef : bool;
  progressLog : list Z
}.

Definition setTestState v s :=
  make v (ping s) (downloadSpeed s) (uploadSpeed s) (currentSpeedDisplay s)
       (progress s) (ipAddress s) (testHistory s) (testStatus s) (isTesting s)
       (abortControllerRef s) (progressLog s).
Definition setPing v s :=
  make (testState s) v (downloadSpeed s) (uploadSpeed s) (currentSpeedDisplay s)
       (progress s) (ipAddress s) (testHistory s) (testStatus s) (isTesting s)
       (abortControllerRef s) (progressLog s).
Definition setDownloadSpeed v s :=
  make (testState s) (ping s) v (uploadSpeed s) (currentSpeedDisplay s)
       (progress s) (ipAddress s) (testHistory s) (testStatus s) (isTesting s)
       (abortControllerRef s) (progressLog s).
Definition setUploadSpeed v s :=
  make (testState s) (ping s) (downloadSpeed s) v (currentSpeedDisplay s)
       (progress s) (ipAddress s) (testHistory s) (testStatus s) (isTesting s)
       (abortControllerRef s) (progressLog s).
Definition setCurrentSpeedDisplay v s :=
  make (testState s) (ping s) (downloadSpeed s) (uploadSpeed s) v
       (progress s) (ipAddress s) (testHistory s) (testStatus s) (isTesting s)
       (abortControllerRef s) (progressLog s).
Definition setProgress v s :=
  make (testState s) (ping s) (downloadSpeed s) (uploadSpeed s) (currentSpeedDisplay s)
       v (ipAddress s) (testHistory s) (testStatus s) (isTesting s)
       (abortControllerRef s) (v :: progressLog s).
Definition setIpAddress v s :=
  make (testState s) (ping s) (downloadSpeed s) (uploadSpeed s) (currentSpeedDisplay s)
       (progress s) v (testHistory s) (testStatus s) (isTesting s)
       (abortControllerRef s) (progressLog s).
(** [setTestHistory] with an updater function. *)
Definition setTestHistory (f : list TestResult.t -> list TestResult.t) s :=
  make (testState s) (ping s) (downloadSpeed s) (uploadSpeed s) (currentSpeedDisplay s)
       (progress s) (ipAddress s) (f (testHistory s)) (testStatus s) (isTesting s)
       (abortControllerRef s) (progressLog s).
Definition setTestStatus v s :=
  make (testState s) (ping s) (downloadSpeed s) (uploadSpeed s) (currentSpeedDisplay s)
       (progress s) (ipAddress s) (testHistory s) v (isTesting s)
       (abortControllerRef s) (progressLog s).
Definition setIsTesting v s :=
  make (testState s) (ping s) (downloadSpeed s) (uploadSpeed s) (currentSpeedDisplay s)
       (progress s) (ipAddress s) (testHistory s) (testStatus s) v
       (abortControllerRef s) (progressLog s).
Definition setAbortControllerRef v s :=
  make (testState s) (ping s) (downloadSpeed s) (uploadSpeed s) (currentSpeedDisplay s)
       (progress s) (ipAddress s) (testHistory s) (testStatus s) (isTesting s)
       v (progressLog s).

(** The component as first mounted. *)
Definition initial : t :=
  make idle "-" "-" "-" (Js.Fin 0) 0%Z "-" [] "Ready" false false [].
End UI.

(** The constants of one render that [startAllTests] closes over. *)
Module Render.
Record t : Type := make {
  ping : string;
  downloadSpeed : string;
  uploadSpeed : string;
  ipAddress : string
}.

Definition capture (s : UI.t) : t :=
  make (UI.ping s) (UI.downloadSpeed s) (UI.uploadSpeed s) (UI.ipAddress s).
End Render.

Inductive exn : Type :=
| AbortError
| Error (message : string).

(** A computation either returns, throws, or is still waiting for the
    environment ([Pending]: the script it was given has run out). *)
Inductive result (A : Type) : Type :=
| Done (a : A) (s : UI.t)
| Throw (e : exn) (s : UI.t)
| Pending.

Arguments Done {A} a s.
Arguments Throw {A} e s.
Arguments Pending {A}.

Definition M (A : Type) : Type := UI.t -> result A.

Definition ret {A : Type} (a : A) : M A := fun s => Done a s.

Definition bind {A B : Type} (m : M A) (k : A -> M B) : M B :=
  fun s =>
    match m s with
    | Done a s' => k a s'
    | Throw e s' => Throw e s'
    | Pending => Pending
    end.

Definition throw {A : Type} (e : exn) : M A := fun s => Throw e s.

Definition pending {A : Type} : M A := fun _ => Pending.

Definition modify (f : UI.t -> UI.t) : M unit := fun s => Done tt (f s).

Notation "x <- m ;; k" := (bind m (fun x => k))
  (at level 61, m at next level, right associativity).
Notation "m ;;; k" := (bind m (fun _ => k))
  (at level 61, right associativity).

(** *** What the outside world answers

    Every outcome below is a settled one.  A HEAD request, a download
    request or a read that stays unanswered for ever has no script, so
    what is proved about a stage is about runs whose requests settle. *)

(** [fetch(url, { method: 'HEAD', signal })] in [performSinglePing]. *)
Inductive HeadOutcome : Type :=
| HeadResolved (latency : Q)
| HeadRejected
| HeadAborted.

(** One exchange over the warm-up WebSocket. *)
Inductive SocketOutcome : Type :=
| SocketReply (latency : Q)
| SocketTimeout
| SocketThrows.

Record Probe : Type := {
  socketOpen : bool;
  socket : SocketOutcome;
  head : HeadOutcome
}.

(** [fetch(downloadUrl, { signal })] and [reader.read()]. *)
Inductive FetchOutcome : Type :=
| Responded (ok : bool)
| FetchRejected
| FetchAborted.

Inductive ReadOutcome : Type :=
| Chunk (length : N) (currentTime : Q)
| ReadRejected
| ReadAborted.

(** The download stage: the clock before the request, the request, the
    clock when the reader is obtained, the reads (the stream is done
    after the last one) and the clock after the loop. *)
Record DownloadEnv : Type := {
  dlBefore : Q;
  dlFetch : FetchOutcome;
  dlStart : Q;
  dlReads : list ReadOutcome;
  dlFinal : Q
}.

(** [fetch(uploadUrl, { method: 'POST', ... })]. *)
Inductive PostOutcome : Type :=
| PostResolved
| PostRejected
| PostAborted.

(** One turn of the upload loop: the clock at its head and the answer
    to the request it sends (unused when the loop breaks there). *)
Record UploadTurn : Type := {
  headTime : Q;
  post : PostOutcome
}.

Record UploadEnv : Type := {
  ulBefore : Q;
  ulStart : Q;
  ulTurns : list UploadTurn;
  ulFinal : Q
}.

Record Env : Type := {
  ipLookup : option string;
  probes : nat -> Probe;
  download : DownloadEnv;
  upload : UploadEnv;
  dateNow : N;
  localeString : string
}.

(** ** The stages *)

Definition testDuration : Q := 10000.
Definition chunkSize : N := (1024 * 1024)%N.

Definition updateOverallProgress (stageStart stageEnd stageProgress : Q) : M unit :=
  modify (UI.setProgress (overallProgress stageStart stageEnd stageProgress)).

(** [fetchIpAddress] never throws: every failure is logged and gives
    [null]. *)
Definition fetchIpAddress (env : Env) : M (option string) := ret (ipLookup env).

(** [ip || 'N/A'] *)
Definition orElse (v : option string) (default : string) : string :=
  match v with
  | Some EmptyString | None => default
  | Some text => text
  end.

(** *** Latency *)

Definition performSinglePing (outcome : HeadOutcome) : M (option Q) :=
  match outcome with
  | HeadResolved latency => ret (Some latency)
  | HeadAborted => throw AbortError
  | HeadRejected => ret None
  end.

(** The value of [latency] when one turn of the probe loop reaches its
    [if (latency !== null && i >= warmUpPings)]. *)
Definition probeLatency (p : Probe) : M (option Q) :=
  if socketOpen p then
    match socket p with
    | SocketReply latency => ret (Some latency)
    | SocketTimeout => ret None
    | SocketThrows => performSinglePing (head p)
    end
  else performSinglePing (head p).

Definition atLeastWarmUp (i : nat) : bool := (warmUpPings <=? i)%nat.

(** What one turn does to [pingTimes]. *)
Definition recordProbe (i : nat) (latency : option Q) (pingTimes : list Q) : list Q :=
  match latency, atLeastWarmUp i with
  | Some t, true => pingTimes ++ [t]
  | None, true => pingTimes ++ [penalty]
  | _, false => pingTimes
  end.

Definition natQ (n : nat) : Q := inject_Z (Z.of_nat n).

(** [for (let i = 0; i < numPings; i++)], with [remaining = numPings - i]. *)
Fixpoint pingLoop (overallStart overallEnd : Q) (ps : nat -> Probe)
         (remaining i : nat) (pingTimes : list Q) : M (list Q) :=
  match remaining with
  | O => ret pingTimes
  | S remaining' =>
      latency <- probeLatency (ps i) ;;
      let pingTimes' := recordProbe i latency pingTimes in
      updateOverallProgress overallStart overallEnd
        ((natQ (i + 1) / natQ numPings) * 100) ;;;
      pingLoop overallStart overallEnd ps remaining' (S i) pingTimes'
  end.

Definition runPingTest (env : Env) (overallStart overallEnd : Q) : M unit :=
  pingTimes <- pingLoop overallStart overallEnd (probes env) numPings O [] ;;
  modify (UI.setPing (pingDisplay pingTimes)).

(** *** Download *)

Definition reportSpeed (setSpeed : string -> UI.t -> UI.t)
           (overallStart overallEnd : Q) (bytes : N) (elapsed : Q) : M unit :=
  let currentSpeedMbps := speedMbps bytes elapsed in
  modify (setSpeed (Js.toFixed 2 currentSpeedMbps)) ;;;
  modify (UI.setCurrentSpeedDisplay currentSpeedMbps) ;;;
  updateOverallProgress overallStart overallEnd
    (Js.min 100 ((elapsed / testDuration) * 100)).

(** [while (true) { const { done, value } = await reader.read(); ... }];
    returns [downloadedBytes]. *)
Fixpoint downloadLoop (overallStart overallEnd : Q) (reads : list ReadOutcome)
         (startTime : Q) (downloadedBytes : N) (lastProgressTime : Q) : M N :=
  match reads with
  | [] => ret downloadedBytes
  | ReadRejected :: _ => throw (Error "read failed")
  | ReadAborted :: _ => throw AbortError
  | Chunk length currentTime :: rest =>
      let downloadedBytes := (downloadedBytes + length)%N in
      let elapsed := currentTime - startTime in
      lastProgressTime' <-
        (if Js.ltb 200 (currentTime - lastProgressTime) then
           reportSpeed UI.setDownloadSpeed overallStart overallEnd
                       downloadedBytes elapsed ;;;
           ret currentTime
         else ret lastProgressTime) ;;
      if Qle_bool testDuration elapsed then ret downloadedBytes
      else downloadLoop overallStart overallEnd rest startTime
                        downloadedBytes lastProgressTime'
  end.

(** The [catch] of [runDownloadTest]. *)
Definition downloadCatch (body : M unit) : M unit :=
  fun s =>
    match body s with
    | Throw AbortError s' => Throw AbortError s'
    | Throw (Error _) s' => Throw (Error "Download test failed") s'
    | other => other
    end.

Definition runDownloadTest (env : Env) (overallStart overallEnd : Q) : M unit :=
  let d := download env in
  let lastProgressTime := dlBefore d in
  downloadCatch
    (match dlFetch d with
     | FetchAborted => throw AbortError
     | FetchRejected => throw (Error "fetch failed")
     | Responded false => throw (Error "HTTP error!")
     | Responded true =>
         let startTime := dlStart d in
         downloadedBytes <-
           downloadLoop overallStart overallEnd (dlReads d) startTime 0%N
                        lastProgressTime ;;
         let finalTime := dlFinal d - startTime in
         let finalDownloadSpeedMbps := speedMbps downloadedBytes finalTime in
         modify (UI.setDownloadSpeed (Js.toFixed 2 finalDownloadSpeedMbps)) ;;;
         updateOverallProgress overallStart overallEnd 100
     end).

(** *** Upload *)

(** [while (true) { ... }] of [runUploadTest]; returns [uploadedBytes]. *)
Fixpoint uploadLoop (overallStart overallEnd : Q) (turns : list UploadTurn)
         (startTime : Q) (uploadedBytes : N) (lastProgressTime : Q) : M N :=
  match turns with
  | [] => pending
  | turn :: rest =>
      let currentTime := headTime turn in
      let elapsed := currentTime - startTime in
      if Qle_bool testDuration elapsed then ret uploadedBytes
      else
        match post turn with
        | PostResolved =>
            let uploadedBytes := (uploadedBytes + chunkSize)%N in
            lastProgressTime' <-
              (if Js.ltb 200 (currentTime - lastProgressTime) then
                 reportSpeed UI.setUploadSpeed overallStart overallEnd
                             uploadedBytes elapsed ;;;
                 ret currentTime
               else ret lastProgressTime) ;;
            uploadLoop overallStart overallEnd rest startTime
                       uploadedBytes lastProgressTime'
        | PostAborted => throw AbortError
        | PostRejected =>
            uploadLoop overallStart overallEnd rest startTime
                       uploadedBytes lastProgressTime
        end
  end.

Definition runUploadTest (env : Env) (overallStart overallEnd : Q) : M unit :=
  let u := upload env in
  let lastProgressTime := ulBefore u in
  let startTime := ulStart u in
  uploadedBytes <-
    uploadLoop overallStart overallEnd (ulTurns u) startTime 0%N
               lastProgressTime ;;
  let finalTime := ulFinal u - startTime in
  let finalUploadSpeedMbps := speedMbps uploadedBytes finalTime in
  modify (UI.setUploadSpeed (Js.toFixed 2 finalUploadSpeedMbps)) ;;;
  updateOverallProgress overallStart overallEnd 100.

(** ** [startAllTests] *)

Definition pingProgressEnd : Q := 10.
Definition downloadProgressEnd : Q := 60.
Definition uploadProgressEnd : Q := 100.

(** The statements before the [try]. *)
Definition resetDisplay : M unit :=
  modify (UI.setPing "-") ;;;
  modify (UI.setDownloadSpeed "-") ;;;
  modify (UI.setUploadSpeed "-") ;;;
  modify (UI.setIpAddress "-") ;;;
  modify (UI.setProgress 0) ;;;
  modify (UI.setTestStatus "Starting...") ;;;
  modify (UI.setTestState pinging) ;;;
  modify (UI.setIsTesting true) ;;;
  modify (UI.setAbortControllerRef true).

(** The [try] block. *)
Definition tryBlock (env : Env) : M unit :=
  modify (UI.setTestStatus "Fetching IP Address...") ;;;
  ip <- fetchIpAddress env ;;
  modify (UI.setIpAddress (orElse ip "N/A")) ;;;
  modify (UI.setTestStatus "Starting Ping Test...") ;;;
  runPingTest env 0 pingProgressEnd ;;;
  modify (UI.setTestStatus "Starting Download Test...") ;;;
  modify (UI.setTestState downloading) ;;;
  runDownloadTest env pingProgressEnd downloadProgressEnd ;;;
  modify (UI.setTestStatus "Starting Upload Test...") ;;;
  modify (UI.setTestState uploading) ;;;
  runUploadTest env downloadProgressEnd uploadProgressEnd ;;;
  modify (UI.setTestStatus "Test Complete!") ;;;
  modify (UI.setTestState complete).

(** [if (x === '-') setX(v)], on a constant [x] of the render. *)
Definition whenDash (x : string) (set : string -> UI.t -> UI.t) (v : string) : M unit :=
  if String.eqb x "-" then modify (set v) else ret tt.

(** The [catch] block; [r] holds the constants it reads. *)
Definition catchBlock (r : Render.t) (error : exn) : M unit :=
  match error with
  | AbortError =>
      modify (UI.setTestStatus "Test Aborted") ;;;
      whenDash (Render.ping r) UI.setPing "N/A" ;;;
      whenDash (Render.downloadSpeed r) UI.setDownloadSpeed "N/A" ;;;
      whenDash (Render.uploadSpeed r) UI.setUploadSpeed "N/A" ;;;
      whenDash (Render.ipAddress r) UI.setIpAddress "N/A"
  | Error message =>
      modify (UI.setTestStatus ("Error: " ++ message)) ;;;
      whenDash (Render.ping r) UI.setPing "Error" ;;;
      whenDash (Render.downloadSpeed r) UI.setDownloadSpeed "Error" ;;;
      whenDash (Render.uploadSpeed r) UI.setUploadSpeed "Error" ;;;
      whenDash (Render.ipAddress r) UI.setIpAddress "Error"
  end.

(** [x !== '-' && x !== 'N/A' && x !== 'Error' ? parseFloat(x) : null] *)
Definition measured (x : string) : option Js.num :=
  if negb (String.eqb x "-") && negb (String.eqb x "N/A")
     && negb (String.eqb x "Error")
  then Some (Js.parseFloat x) else None.

(** [newResult], built from the constants of the render. *)
Definition newResult (r : Render.t) (env : Env) : TestResult.t :=
  TestResult.make
    (Js.string_of_N (dateNow env))
    (localeString env)
    (if negb (String.eqb (Render.ipAddress r) "")
        && negb (String.eqb (Render.ipAddress r) "-")
     then Render.ipAddress r else "N/A"%string)
    (measured (Render.ping r))
    (measured (Render.downloadSpeed r))
    (measured (Render.uploadSpeed r)).

(** The [finally] block. *)
Definition finallyBlock (r : Render.t) (env : Env) : M unit :=
  modify (UI.setIsTesting false) ;;;
  modify (UI.setAbortControllerRef false) ;;;
  modify (UI.setProgress 100) ;;;
  modify (UI.setCurrentSpeedDisplay (Js.Fin 0)) ;;;
  modify (UI.setTestHistory (fun prevHistory => newResult r env :: prevHistory)).

(** [try { body } catch (error) { handler } finally { final }] *)
Definition tryCatchFinally (body : M unit) (handler : exn -> M unit)
           (final : M unit) : M unit :=
  fun s =>
    match body s with
    | Done _ s' => final s'
    | Throw e s' =>
        match handler e s' with
        | Done _ s'' => final s''
        | Throw e' s'' =>
            match final s'' with
            | Done _ s3 => Throw e' s3
            | other => other
            end
        | Pending => Pending
        end
    | Pending => Pending
    end.

(** [startAllTests] as created by a render with constants [r]. *)
Definition startAllTests (r : Render.t) (env : Env) : M unit :=
  resetDisplay ;;;
  tryCatchFinally (tryBlock env) (catchBlock r) (finallyBlock r env).

(** [onClick={!isTesting ? startAllTests : undefined}]: the handler of
    the render that shows state [s]. *)
Definition click (env : Env) (s : UI.t) : result unit :=
  if UI.isTesting s then Done tt s
  else startAllTests (Render.capture s) env s.

(** ** What the specification's wording would compute *)

(** The trimming step read literally from the specification ("discard
    any value exceeding the threshold"): a value equal to the threshold
    stays.  Only compared with [cleanedOf], never used by the model. *)
Definition cleanedBySpec (sorted : list Q) (median : Q) : list Q :=
  filter (fun t => negb (Js.ltb (trimThreshold median) t)) sorted.

(** ** Reading an upload script *)

Definition timeIsUp (startTime : Q) (turn : UploadTurn) : bool :=
  Qle_bool testDuration (headTime turn - startTime).

(** The turns that begin before the test duration has elapsed. *)
Fixpoint turnsBeforeDeadline (startTime : Q) (turns : list UploadTurn)
  : list UploadTurn :=
  match turns with
  | [] => []
  | turn :: rest =>
      if timeIsUp startTime turn then []
      else turn :: turnsBeforeDeadline startTime rest
  end.

Definition deadlineReached (startTime : Q) (turns : list UploadTurn) : bool :=
  existsb (timeIsUp startTime) turns.

Definition isResolved (turn : UploadTurn) : bool :=
  match post turn with
  | PostResolved => true
  | _ => false
  end.

Definition isAborted (turn : UploadTurn) : bool :=
  match post turn with
  | PostAborted => true
  | _ => false
  end.

(** One chunk for every request of [turns] that was answered. *)
Definition acceptedBytes (turns : list UploadTurn) : N :=
  (chunkSize * N.of_nat (List.length (filter isResolved turns)))%N.

(** The script lets the upload loop end: by the deadline or by an
    abort. *)
Fixpoint uploadSettles (startTime : Q) (turns : list UploadTurn) : bool :=
  match turns with
  | [] => false
  | turn :: rest =>
      timeIsUp startTime turn || isAborted turn || uploadSettles startTime rest
  end.

(** ** Reading the clock and the progress log *)

Definition chunkTimes (reads : list ReadOutcome) : list Q :=
  flat_map (fun r => match r with Chunk _ t => [t] | _ => [] end) reads.

(** The readings of [performance.now()] a stage takes, in order. *)
Definition downloadClock (d : DownloadEnv) : list Q :=
  dlBefore d :: dlStart d :: chunkTimes (dlReads d) ++ [dlFinal d].

Definition uploadClock (u : UploadEnv) : list Q :=
  ulBefore u :: ulStart u :: map headTime (ulTurns u) ++ [ulFinal u].

Fixpoint nondecreasing (l : list Q) : bool :=
  match l with
  | x :: (y :: _) as rest => Qle_bool x y && nondecreasing rest
  | _ => true
  end.

(** [performance.now()] never runs backwards within a stage. *)
Definition clockMonotone (env : Env) : bool :=
  nondecreasing (downloadClock (download env))
  && nondecreasing (uploadClock (upload env)).

(** The stage progress both transfer loops report. *)
Definition transferProgress (elapsed : Q) : Q :=
  Js.min 100 (elapsed / testDuration * 100).

(** A stretch of the progress log (most recent first) in which no
    update is smaller than the one before it. *)
Definition Rising (updates : list Z) : Prop := Sorted Z.ge updates.

(** Since the log read [log0], the updates rise and stay at most [c]. *)
Definition Tracks (log0 : list Z) (c : Z) (s : UI.t) : Prop :=
  exists updates,
    UI.progressLog s = (updates ++ log0)%list /\
    Rising updates /\ Forall (fun v => (v <= c)%Z) updates.

(** The history is still [h]. *)
Definition keepsHistory (h : list TestResult.t) (s : UI.t) : Prop :=
  UI.testHistory s = h.

(** From a state in [P] the computation ends, by return or by throw,
    in a state in [Q]; it is left waiting only when [W]. *)
Definition Triple {A : Type} (W : Prop) (P : UI.t -> Prop) (m : M A)
           (Q : UI.t -> Prop) : Prop :=
  forall s, P s ->
            match m s with
            | Done _ s' | Throw _ s' => Q s'
            | Pending => W
            end.

(** ** Sample environments *)

Definition steady (latency : Q) : Probe :=
  {| socketOpen := false; socket := SocketTimeout; head := HeadResolved latency |}.

Definition noUpload : UploadEnv :=
  {| ulBefore := 0; ulStart := 0; ulTurns := []; ulFinal := 0 |}.

(** 125,000,000 bytes in 10 s down, then three accepted uploads and one
    rejected one. *)
Definition fullRun : Env := {|
  ipLookup := Some "203.0.113.7"%string;
  probes := fun _ => steady 50;
  download := {| dlBefore := 0; dlFetch := Responded true; dlStart := 100;
                 dlReads := [Chunk 62500000 5100; Chunk 62500000 10100];
                 dlFinal := 10100 |};
  upload := {| ulBefore := 10100; ulStart := 10100;
               ulTurns := [ {| headTime := 10100; post := PostResolved |};
                            {| headTime := 15000; post := PostRejected |};
                            {| headTime := 17000; post := PostResolved |};
                            {| headTime := 19000; post := PostResolved |};
                            {| headTime := 20100; post := PostResolved |} ];
               ulFinal := 20100 |};
  dateNow := 1700000000000%N;
  localeString := "11/14/2023, 10:13:20 PM"%string |}.

(** The user aborts while the second chunk of the download is read. *)
Definition cancelledInDownload : Env := {|
  ipLookup := Some "203.0.113.7"%string;
  probes := fun _ => steady 50;
  download := {| dlBefore := 0; dlFetch := Responded true; dlStart := 100;
                 dlReads := [Chunk 62500000 5100; ReadAborted];
                 dlFinal := 5200 |};
  upload := noUpload;
  dateNow := 1700000060000%N;
  localeString := "11/14/2023, 10:14:20 PM"%string |}.

(** The first ten probes measure [w], the ninety after them [t]. *)
Definition warmThenSteady (w t : Q) (i : nat) : Probe :=
  if (i <? warmUpPings)%nat then steady w else steady t.

Definition withProbes (ps : nat -> Probe) (env : Env) : Env :=
  {| ipLookup := ipLookup env; probes := ps; download := download env;
     upload := upload env; dateNow := dateNow env;
     localeString := localeString env |}.

(** A clock of coarse resolution: every third probe is answered in
    300 ms, the others in 100 ms. *)
Definition everyThirdSlow (i : nat) : Probe :=
  if (i mod 3 =? 0)%nat then steady 300 else steady 100.

(** What a probe adds to [pingTimes] once the warm-up is over. *)
Definition collected (latency : option Q) : Q :=
  match latency with
  | Some t => t
  | None => penalty
  end.

(** The state a computation leaves, when it has returned. *)
Definition finalState {A : Type} (r : result A) : option UI.t :=
  match r with
  | Done _ s => Some s
  | Throw _ _ | Pending => None
  end.

(** ** Reading a download script *)

(** The reads the download loop performs: up to and including the chunk
    at which the test duration has elapsed, or the first read that
    rejects. *)
Fixpoint readsPerformed (startTime : Q) (reads : list ReadOutcome)
  : list ReadOutcome :=
  match reads with
  | [] => []
  | Chunk length currentTime :: rest =>
      if Qle_bool testDuration (currentTime - startTime)
      then [Chunk length currentTime]
      else Chunk length currentTime :: readsPerformed startTime rest
  | failure :: _ => [failure]
  end.

Definition chunkBytes (reads : list ReadOutcome) : N :=
  fold_right (fun r acc => match r with
                           | Chunk length _ => (length + acc)%N
                           | _ => acc
                           end) 0%N reads.

Definition bytesRead (startTime : Q) (reads : list ReadOutcome) : N :=
  chunkBytes (readsPerformed startTime reads).

(** The exception the read loop meets before it stops, if any. *)
Fixpoint readFailure (startTime : Q) (reads : list ReadOutcome) : option exn :=
  match reads with
  | [] => None
  | Chunk _ currentTime :: rest =>
      if Qle_bool testDuration (currentTime - startTime) then None
      else readFailure startTime rest
  | ReadRejected :: _ => Some (Error "read failed")
  | ReadAborted :: _ => Some AbortError
  end.

(** What leaves [runDownloadTest]: nothing, the abort, or the one error
    its [catch] rethrows. *)
Definition downloadVerdict (d : DownloadEnv) : option exn :=
  match dlFetch d with
  | FetchAborted => Some AbortError
  | FetchRejected | Responded false => Some (Error "Download test failed")
  | Responded true =>
      match readFailure (dlStart d) (dlReads d) with
      | Some AbortError => Some AbortError
      | Some (Error _) => Some (Error "Download test failed")
      | None => None
      end
  end.

(** ** Reading a probe script and a whole run *)

(** The value of [latency] a probe leaves ([Some None] for null), or
    [None] when its HEAD request is aborted. *)
Definition headVerdict (outcome : HeadOutcome) : option (option Q) :=
  match outcome with
  | HeadResolved latency => Some (Some latency)
  | HeadRejected => Some None
  | HeadAborted => None
  end.

Definition probeVerdict (p : Probe) : option (option Q) :=
  if socketOpen p then
    match socket p with
    | SocketReply latency => Some (Some latency)
    | SocketTimeout => Some None
    | SocketThrows => headVerdict (head p)
    end
  else headVerdict (head p).

(** What [k] probes from index [i] on add to [pingTimes], or [None]
    when one of them is aborted. *)
Fixpoint collectedFrom (ps : nat -> Probe) (k i : nat) : option (list Q) :=
  match k with
  | O => Some []
  | S k' =>
      match probeVerdict (ps i), collectedFrom ps k' (S i) with
      | Some latency, Some rest =>
          Some ((if atLeastWarmUp i then [collected latency] else []) ++ rest)
      | _, _ => None
      end
  end.

(** A request is aborted before the upload deadline. *)
Definition uploadAborted (startTime : Q) (turns : list UploadTurn) : bool :=
  existsb isAborted (turnsBeforeDeadline startTime turns).

(** The stage a run stops in and what it throws there ([complete] and
    nothing when no stage throws). *)
Definition runVerdict (env : Env) : TestState * option exn :=
  match collectedFrom (probes env) numPings 0 with
  | None => (pinging, Some AbortError)
  | Some _ =>
      match downloadVerdict (download env) with
      | Some e => (downloading, Some e)
      | None =>
          if uploadAborted (ulStart (upload env)) (ulTurns (upload env))
          then (uploading, Some AbortError)
          else (complete, None)
      end
  end.

(** ** Judgements on computations *)

(** From a state in [P] the computation returns [a] in a state in
    [Qd a], or throws [e] in a state in [Qt e]; it is left waiting only
    when [W]. *)
Definition Ends {A : Type} (W : Prop) (P : UI.t -> Prop) (m : M A)
           (Qd : A -> UI.t -> Prop) (Qt : exn -> UI.t -> Prop) : Prop :=
  forall s, P s ->
            match m s with
            | Done a s' => Qd a s'
            | Throw e s' => Qt e s'
            | Pending => W
            end.

(** Two lists of measurements hold the same values in the same order. *)
Definition sameValues (l l' : list Q) : Prop := Forall2 Qeq l l'.

(** The status line a finished run can leave. *)
Definition statusOf (thrown : option exn) : string :=
  match thrown with
  | None => "Test Complete!"
  | Some AbortError => "Test Aborted"
  | Some (Error message) => "Error: " ++ message
  end.

(** What the [catch] block writes over a display still at its dash. *)
Definition sentinelOf (e : exn) : string :=
  match e with
  | AbortError => "N/A"
  | Error _ => "Error"
  end.

(** The fields no stage writes. *)
Definition sameSession (s s' : UI.t) : Prop :=
  UI.testState s' = UI.testState s /\
  UI.testStatus s' = UI.testStatus s /\
  UI.ipAddress s' = UI.ipAddress s /\
  UI.isTesting s' = UI.isTesting s /\
  UI.abortControllerRef s' = UI.abortControllerRef s /\
  UI.testHistory s' = UI.testHistory s.

(** One click after another, each on the state the one before left. *)
Fixpoint clicks (envs : list Env) (s : UI.t) : result unit :=
  match envs with
  | [] => Done tt s
  | env :: rest =>
      match click env s with
      | Done _ s' => clicks rest s'
      | other => other
      end
  end.

(** The number a string of decimal digits denotes when read from the
    left, starting from [acc]. *)
Fixpoint readDigits (d : Decimal.uint) (acc : N) : N :=
  match d with
  | Decimal.Nil => acc
  | Decimal.D0 d => readDigits d (acc * 10 + 0)
  | Decimal.D1 d => readDigits d (acc * 10 + 1)
  | Decimal.D2 d => readDigits d (acc * 10 + 2)
  | Decimal.D3 d => readDigits d (acc * 10 + 3)
  | Decimal.D4 d => readDigits d (acc * 10 + 4)
  | Decimal.D5 d => readDigits d (acc * 10 + 5)
  | Decimal.D6 d => readDigits d (acc * 10 + 6)
  | Decimal.D7 d => readDigits d (acc * 10 + 7)
  | Decimal.D8 d => readDigits d (acc * 10 + 8)
  | Decimal.D9 d => readDigits d (acc * 10 + 9)
  end%N.

(** The two digits [toFixed(2)] prints after the point read back as
    the number they were printed from. *)
Definition fractionReadsBack (f : N) : bool :=
  let shown := Js.string_of_N f in
  let '(value, count, rest) :=
    Js.digits (Js.zeros (2 - String.length shown) ++ shown) 0%N O in
  (value =? f)%N && (count =? 2)%nat && String.eqb rest "".

(** The render of the component as first mounted. *)
Definition freshRender : Render.t := Render.capture UI.initial.

(** * Properties *)

(** ** Sample evaluations *)

Example toFixed_samples :
  Js.toFixedQ 2 50 = "50.00"%string /\
  Js.toFixedQ 2 (95367431640625 # 1000000000000) = "95.37"%string /\
  Js.toFixedQ 2 (5 # 1000) = "0.01"%string /\
  Js.toFixedQ 0 (2995 # 10) = "300"%string /\
  Js.toFixed 2 (Js.Inf false) = "Infinity"%string.
Proof. repeat split; vm_compute; reflexivity. Qed.

Example parseFloat_samples :
  Js.parseFloat "50.00" = Js.Fin 50 /\
  Js.parseFloat "95.37" = Js.Fin (9537 # 100) /\
  Js.parseFloat "-0.50" = Js.Fin (- (1 # 2)) /\
  Js.parseFloat "Infinity" = Js.Inf false /\
  Js.parseFloat "NaN" = Js.NaN.
Proof. repeat split; vm_compute; reflexivity. Qed.

Example pingDisplay_samples :
  pingDisplay (repeat 50 90) = "50.00"%string /\
  pingDisplay [20; 60; 40] = "40.00"%string /\
  pingDisplay (repeat penalty 90) = "N/A"%string /\
  pingDisplay [] = "N/A"%string.
Proof. repeat split; vm_compute; reflexivity. Qed.

Example overallProgress_samples :
  overallProgress 0 10 5 = 1%Z /\
  overallProgress 0 10 100 = 10%Z /\
  overallProgress 10 60 50 = 35%Z /\
  overallProgress 60 100 100 = 100%Z.
Proof. repeat split; vm_compute; reflexivity. Qed.

Example fullRun_display :
  exists s',
    click fullRun UI.initial = Done tt s' /\
    UI.ping s' = "50.00"%string /\
    UI.downloadSpeed s' = "95.37"%string /\
    UI.uploadSpeed s' = "2.40"%string /\
    UI.ipAddress s' = "203.0.113.7"%string /\
    UI.testStatus s' = "Test Complete!"%string /\
    UI.testState s' = complete.
Proof. eexists. split; [vm_compute; reflexivity |]. repeat split. Qed.

(** ** Built-ins *)

Lemma ltb_lt (a b : Q) : Js.ltb a b = true <-> a < b.
Proof.
  unfold Js.ltb. rewrite negb_true_iff.
  destruct (Qle_bool b a) eqn:E.
  - apply Qle_bool_iff in E. split; [discriminate | intro H; exfalso; lra].
  - split; [intros _ | reflexivity].
    apply Qnot_le_lt. intro H. apply Qle_bool_iff in H. congruence.
Qed.

Lemma ltb_ge (a b : Q) : Js.ltb a b = false <-> b <= a.
Proof.
  unfold Js.ltb. rewrite negb_false_iff. apply Qle_bool_iff.
Qed.

Lemma min_spec (a b : Q) :
  Js.min a b <= a /\ Js.min a b <= b /\ (Js.min a b = a \/ Js.min a b = b).
Proof.
  unfold Js.min. destruct (Qle_bool a b) eqn:E.
  - apply Qle_bool_iff in E. repeat split; auto; lra.
  - assert (b < a) by (apply ltb_lt; unfold Js.ltb;
      destruct (Qle_bool a b); [discriminate | reflexivity]).
    repeat split; auto; lra.
Qed.

Lemma min_glb (a b c : Q) : c <= a -> c <= b -> c <= Js.min a b.
Proof.
  intros Ha Hb. destruct (min_spec a b) as (_ & _ & [-> | ->]); assumption.
Qed.

Lemma round_mono (x y : Q) : x <= y -> (Js.round x <= Js.round y)%Z.
Proof.
  intro H. unfold Js.round. apply Qfloor_resp_le. lra.
Qed.

Lemma round_integer (z : Z) : Js.round (inject_Z z) = z.
Proof.
  unfold Js.round.
  assert (Hlo : (z <= Qfloor (inject_Z z + (1 # 2)))%Z).
  { rewrite <- (Qfloor_Z z) at 1. apply Qfloor_resp_le. lra. }
  assert (Hhi : (Qfloor (inject_Z z + (1 # 2)) < z + 1)%Z).
  { rewrite Zlt_Qlt. apply Qle_lt_trans with (inject_Z z + (1 # 2)).
    - apply Qfloor_le.
    - rewrite inject_Z_plus. change (inject_Z 1) with 1. lra. }
  lia.
Qed.

(** ** The latency aggregation *)

Lemma insertAsc_perm (x : Q) (l : list Q) : Permutation (x :: l) (insertAsc x l).
Proof.
  induction l as [| y l IH]; simpl.
  - apply Permutation_refl.
  - destruct (Qle_bool x y).
    + apply Permutation_refl.
    + eapply perm_trans; [apply perm_swap | apply perm_skip, IH].
Qed.

Lemma sortAsc_perm (l : list Q) : Permutation l (sortAsc l).
Proof.
  induction l as [| x l IH]; simpl.
  - constructor.
  - eapply perm_trans; [apply perm_skip, IH | apply insertAsc_perm].
Qed.

Lemma insertAsc_sorted (x : Q) (l : list Q) :
  Sorted Qle l -> Sorted Qle (insertAsc x l).
Proof.
  induction 1 as [| y l Hs IH Hhd]; simpl.
  - repeat constructor.
  - destruct (Qle_bool x y) eqn:E.
    + apply Qle_bool_iff in E. repeat constructor; assumption.
    + assert (Hyx : y <= x).
      { apply Qlt_le_weak, ltb_lt. unfold Js.ltb. now rewrite E. }
      constructor; [exact IH |].
      destruct Hhd as [| z l' Hyz]; simpl.
      * constructor; exact Hyx.
      * destruct (Qle_bool x z); constructor; assumption.
Qed.

Lemma sortAsc_sorted (l : list Q) : Sorted Qle (sortAsc l).
Proof.
  induction l as [| x l IH]; simpl.
  - constructor.
  - apply insertAsc_sorted, IH.
Qed.

Lemma sortAsc_length (l : list Q) : List.length (sortAsc l) = List.length l.
Proof. symmetry. apply Permutation_length, sortAsc_perm. Qed.

Lemma sortAsc_In (l : list Q) (t : Q) : In t (sortAsc l) <-> In t l.
Proof.
  split; intro H.
  - eapply Permutation_in; [apply Permutation_sym, sortAsc_perm | exact H].
  - eapply Permutation_in; [apply sortAsc_perm | exact H].
Qed.

(** A non-empty collection always has a median. *)
Lemma medianOf_some (l : list Q) :
  l <> [] -> exists median, medianOf (sortAsc l) = Some median /\ In median l.
Proof.
  intro Hne. unfold medianOf.
  destruct (nth_error (sortAsc l) (Nat.div (List.length (sortAsc l)) 2)) as [m |] eqn:E.
  - exists m. split; [reflexivity |].
    apply sortAsc_In. eapply nth_error_In; exact E.
  - exfalso. apply nth_error_None in E.
    rewrite sortAsc_length in *.
    destruct l as [| x l]; [congruence |]. simpl List.length in E.
    pose proof (Nat.div_lt (S (List.length l)) 2). lia.
Qed.

Lemma cleanedOf_In (sorted : list Q) (median t : Q) :
  In t (cleanedOf sorted median) <-> In t sorted /\ t < trimThreshold median.
Proof.
  unfold cleanedOf. rewrite filter_In, ltb_lt. tauto.
Qed.

Lemma trimThreshold_spec (median : Q) :
  trimThreshold median <= 300 /\ trimThreshold median <= median * 3 /\
  (trimThreshold median = 300 \/ trimThreshold median = median * 3).
Proof. apply min_spec. Qed.

Lemma lengthQ_cons (x : Q) (l : list Q) : lengthQ (x :: l) == lengthQ l + 1.
Proof.
  unfold lengthQ. simpl List.length. rewrite Nat2Z.inj_succ.
  unfold Z.succ. rewrite inject_Z_plus. reflexivity.
Qed.

Lemma lengthQ_nonneg (l : list Q) : 0 <= lengthQ l.
Proof.
  unfold lengthQ. change 0 with (inject_Z 0). rewrite <- Zle_Qle. lia.
Qed.

Lemma fold_plus_shift (l : list Q) (acc : Q) :
  fold_left Qplus l acc == acc + fold_left Qplus l 0.
Proof.
  revert acc. induction l as [| x l IH]; intro acc; simpl.
  - lra.
  - rewrite (IH (acc + x)), (IH (0 + x)). lra.
Qed.

Lemma sumOf_cons (x : Q) (l : list Q) : sumOf (x :: l) == x + sumOf l.
Proof.
  unfold sumOf. simpl. rewrite fold_plus_shift. lra.
Qed.

(** The sum of values that all stay below [c] stays below [c] times
    their number. *)
Lemma sumOf_below (c : Q) (l : list Q) :
  Forall (fun t => t < c) l -> l <> [] -> sumOf l < c * lengthQ l.
Proof.
  induction 1 as [| x l Hx Hl IH]; intro Hne; [congruence |].
  rewrite sumOf_cons, lengthQ_cons. cbv beta in Hx.
  destruct l as [| y l'].
  - change (sumOf []) with 0. change (lengthQ []) with 0. lra.
  - assert (sumOf (y :: l') < c * lengthQ (y :: l')) by (apply IH; discriminate).
    lra.
Qed.

Lemma sumOf_repeat (x : Q) (n : nat) : sumOf (repeat x n) == x * natQ n.
Proof.
  induction n as [| n IH].
  - unfold sumOf, natQ. simpl. change (inject_Z 0) with 0. lra.
  - simpl repeat. rewrite sumOf_cons, IH. unfold natQ.
    rewrite Nat2Z.inj_succ. unfold Z.succ. rewrite inject_Z_plus.
    change (inject_Z 1) with 1. lra.
Qed.

Lemma average_below (c : Q) (l : list Q) :
  Forall (fun t => t < c) l -> l <> [] -> sumOf l / lengthQ l < c.
Proof.
  intros Hall Hne.
  assert (Hpos : 0 < lengthQ l).
  { destruct l as [| x l]; [congruence |].
    rewrite lengthQ_cons. pose proof (lengthQ_nonneg l). lra. }
  apply Qlt_shift_div_r; [exact Hpos |].
  apply sumOf_below; assumption.
Qed.

(** [averagePing] unfolded: what is returned on which path. *)
Lemma averagePing_cases (pingTimes : list Q) :
  (pingTimes = [] /\ averagePing pingTimes = None) \/
  (exists median,
     medianOf (sortAsc pingTimes) = Some median /\ In median pingTimes /\
     let cleaned := cleanedOf (sortAsc pingTimes) median in
     (cleaned = [] /\ averagePing pingTimes = None) \/
     (cleaned <> [] /\
      averagePing pingTimes = Some (sumOf cleaned / lengthQ cleaned))).
Proof.
  destruct pingTimes as [| x l]; [left; split; reflexivity | right].
  destruct (medianOf_some (x :: l)) as (m & Hm & Hin); [discriminate |].
  exists m. split; [exact Hm | split; [exact Hin |]].
  unfold averagePing. rewrite Hm. cbv zeta.
  destruct (cleanedOf (sortAsc (x :: l)) m) as [| y c] eqn:E.
  - left. split; reflexivity.
  - right. split; [discriminate | reflexivity].
Qed.

Lemma sumOf_nonneg (l : list Q) : Forall (fun t => 0 <= t) l -> 0 <= sumOf l.
Proof.
  induction 1 as [| x l Hx Hl IH].
  - unfold sumOf. simpl. lra.
  - rewrite sumOf_cons. cbv beta in Hx. lra.
Qed.

Lemma lengthQ_pos (l : list Q) : l <> [] -> 0 < lengthQ l.
Proof.
  destruct l as [| x l]; [congruence | intros _].
  rewrite lengthQ_cons. pose proof (lengthQ_nonneg l). lra.
Qed.

Lemma scaled_below (a c : Q) (n : Z) :
  0 <= a -> a < c -> c * 100 == inject_Z n -> (Js.scaled 2 a <= n)%Z.
Proof.
  intros H0 Hc Hn. unfold Js.scaled.
  rewrite (Qabs_pos a H0).
  assert (Hlt : inject_Z (Qfloor (a * inject_Z (10 ^ Z.of_nat 2) + (1 # 2)))
               < inject_Z n + 1).
  { eapply Qle_lt_trans; [apply Qfloor_le |].
    change (inject_Z (10 ^ Z.of_nat 2)) with 100. lra. }
  change 1 with (inject_Z 1) in Hlt. rewrite <- inject_Z_plus in Hlt.
  rewrite <- Zlt_Qlt in Hlt. lia.
Qed.

(** What the aggregation computes.  On a non-empty collection it sorts
    the values ascending, takes the element at index floor(n/2) as
    median, keeps exactly the values strictly below min(300, 3 x median)
    and averages what is left.  With ten warm-up probes and ninety
    probes of exactly 50 ms the median is 50, the threshold 150, nothing
    is trimmed and the latency shown is 50.00. *)
Lemma latency_aggregation :
  (forall pingTimes : list Q,
      pingTimes <> [] ->
      exists median,
        let sorted := sortAsc pingTimes in
        let cleaned := cleanedOf sorted median in
        Sorted Qle sorted /\ Permutation pingTimes sorted /\
        nth_error sorted (Nat.div (List.length pingTimes) 2) = Some median /\
        (forall t, In t cleaned <-> In t pingTimes /\ t < Js.min 300 (median * 3)) /\
        (cleaned = [] -> averagePing pingTimes = None) /\
        (cleaned <> [] ->
         averagePing pingTimes = Some (sumOf cleaned / lengthQ cleaned))) /\
  (forall (w : Q) (env : Env) (s : UI.t),
      exists s',
        runPingTest (withProbes (warmThenSteady w 50) env) 0 pingProgressEnd s
        = Done tt s' /\
        UI.ping s' = "50.00"%string) /\
  medianOf (sortAsc (repeat 50 90)) = Some 50 /\
  trimThreshold 50 == 150 /\
  cleanedOf (sortAsc (repeat 50 90)) 50 = repeat 50 90 /\
  averagePing (repeat 50 90) = Some (sumOf (repeat 50 90) / lengthQ (repeat 50 90)) /\
  sumOf (repeat 50 90) / lengthQ (repeat 50 90) == 50.
Proof.
  split; [| split; [| split; [| split; [| split; [| split]]]]].
  - intros pingTimes Hne.
    destruct (averagePing_cases pingTimes) as [[He _] | (m & Hm & Hin & Hc)];
      [congruence |].
    exists m. cbv zeta in *.
    split; [apply sortAsc_sorted |].
    split; [apply sortAsc_perm |].
    split; [unfold medianOf in Hm; rewrite sortAsc_length in Hm; exact Hm |].
    split.
    { intro t. rewrite cleanedOf_In, sortAsc_In. reflexivity. }
    split; intro Hcl; destruct Hc as [[Hc Ha] | [Hc Ha]];
      try exact Ha; congruence.
  - intros w env s. eexists. split.
    + vm_compute. reflexivity.
    + reflexivity.
  - vm_compute. reflexivity.
  - vm_compute. reflexivity.
  - vm_compute. reflexivity.
  - vm_compute. reflexivity.
  - vm_compute. reflexivity.
Qed.

(** C2 (the code departs from the claim).  The filter keeps a value
    only when it is strictly below the threshold, so a value equal to
    the threshold is discarded although it does not exceed it (the
    comment above the filter speaks of pings above 300 ms or above three
    times the median).  On a run whose probes are answered in 100 ms,
    every third one in 300 ms, ninety values are collected, sixty of
    100 and thirty of 300; the median is 100 and the threshold 300; no
    value exceeds it, yet every 300 is discarded and the latency shown
    is 100.00, where the average of the ninety values shows 166.67.
    For every collection, a value equal to the threshold is dropped by
    the code and kept by the trimming the claim describes. *)
Theorem value_at_threshold_is_trimmed :
  (forall (env : Env) (s : UI.t),
      exists pingTimes s1 s',
        pingLoop 0 pingProgressEnd (probes (withProbes everyThirdSlow env))
                 numPings 0 [] s = Done pingTimes s1 /\
        sortAsc pingTimes = (repeat 100 60 ++ repeat 300 30)%list /\
        runPingTest (withProbes everyThirdSlow env) 0 pingProgressEnd s
        = Done tt s' /\
        UI.ping s' = "100.00"%string) /\
  medianOf (repeat 100 60 ++ repeat 300 30) = Some 100 /\
  trimThreshold 100 == 300 /\
  Forall (fun t => ~ trimThreshold 100 < t) (repeat 100 60 ++ repeat 300 30) /\
  cleanedOf (repeat 100 60 ++ repeat 300 30) 100 = repeat 100 60 /\
  cleanedBySpec (repeat 100 60 ++ repeat 300 30) 100
  = (repeat 100 60 ++ repeat 300 30)%list /\
  Js.toFixedQ 2 (sumOf (repeat 100 60 ++ repeat 300 30)
                 / lengthQ (repeat 100 60 ++ repeat 300 30))
  = "166.67"%string /\
  (forall (pingTimes : list Q) (median t : Q),
      In t pingTimes -> t == trimThreshold median ->
      ~ trimThreshold median < t /\
      ~ In t (cleanedOf (sortAsc pingTimes) median) /\
      In t (cleanedBySpec (sortAsc pingTimes) median)).
Proof.
  split; [| split; [| split; [| split; [| split; [| split; [| split]]]]]].
  - intros env s. do 3 eexists.
    split; [vm_compute; reflexivity |].
    split; [vm_compute; reflexivity |].
    split; [vm_compute; reflexivity | reflexivity].
  - vm_compute. reflexivity.
  - vm_compute. reflexivity.
  - apply Forall_forall. intros t Ht. apply in_app_or in Ht.
    destruct Ht as [Ht | Ht]; apply repeat_spec in Ht; subst t;
      vm_compute; discriminate.
  - vm_compute. reflexivity.
  - vm_compute. reflexivity.
  - vm_compute. reflexivity.
  - intros pingTimes median t Hin Heq.
    split; [lra |]. split.
    + intro Hc. apply cleanedOf_In in Hc. destruct Hc as [_ Hlt]. lra.
    + unfold cleanedBySpec. apply filter_In.
      split; [apply sortAsc_In, Hin |].
      apply negb_true_iff, ltb_ge. lra.
Qed.

(** What [runPingTest] shows once its probe loop has returned. *)
Lemma runPingTest_shows (env : Env) (a b : Q) (s s1 : UI.t) (pingTimes : list Q) :
  pingLoop a b (probes env) numPings 0 [] s = Done pingTimes s1 ->
  runPingTest env a b s = Done tt (UI.setPing (pingDisplay pingTimes) s1).
Proof.
  intro Hloop. unfold runPingTest, bind. rewrite Hloop. reflexivity.
Qed.

(** C6.  When no value was collected, or every collected value exceeds
    the trim threshold, or nothing is retained after trimming, the
    latency shown is the sentinel N/A, which [newResult] reads as an
    absent latency: never zero, never a negative number. *)
Theorem unavailable_when_nothing_retained (pingTimes : list Q) :
  pingTimes = [] \/
  (exists median,
      medianOf (sortAsc pingTimes) = Some median /\
      (Forall (fun t => trimThreshold median < t) pingTimes \/
       cleanedOf (sortAsc pingTimes) median = [])) ->
  averagePing pingTimes = None /\
  pingDisplay pingTimes = "N/A"%string /\
  measured (pingDisplay pingTimes) = None /\
  (forall (env : Env) (a b : Q) (s s1 : UI.t),
      pingLoop a b (probes env) numPings 0 [] s = Done pingTimes s1 ->
      exists s', runPingTest env a b s = Done tt s' /\ UI.ping s' = "N/A"%string).
Proof.
  intro H.
  assert (Hnone : averagePing pingTimes = None).
  { destruct H as [-> | (m & Hm & Hcases)]; [reflexivity |].
    assert (Hcl : cleanedOf (sortAsc pingTimes) m = []).
    { destruct Hcases as [Hall | Hcl]; [| exact Hcl].
      destruct (cleanedOf (sortAsc pingTimes) m) as [| t c] eqn:E; [reflexivity |].
      exfalso.
      assert (Hin : In t (cleanedOf (sortAsc pingTimes) m)) by (rewrite E; left; reflexivity).
      apply cleanedOf_In in Hin. destruct Hin as [Hin Hlt].
      apply (proj1 (sortAsc_In _ _)) in Hin.
      rewrite Forall_forall in Hall. specialize (Hall t Hin). cbv beta in Hall. lra. }
    destruct (averagePing_cases pingTimes) as [[_ Ha] | (m' & Hm' & _ & Hc)];
      [exact Ha |].
    rewrite Hm in Hm'. injection Hm' as <-. cbv zeta in Hc.
    destruct Hc as [[_ Ha] | [Hne _]]; [exact Ha | congruence]. }
  assert (Hshown : pingDisplay pingTimes = "N/A"%string)
    by (unfold pingDisplay; rewrite Hnone; reflexivity).
  split; [exact Hnone |]. split; [exact Hshown |].
  split; [rewrite Hshown; reflexivity |].
  intros env a b s s1 Hloop. eexists.
  split; [apply runPingTest_shows, Hloop |]. exact Hshown.
Qed.

Lemma unavailable_when_nothing_retained_witness :
  (exists median,
      medianOf (sortAsc (repeat penalty 90)) = Some median /\
      Forall (fun t => trimThreshold median < t) (repeat penalty 90)) /\
  pingDisplay (repeat penalty 90) = "N/A"%string.
Proof.
  assert (H : exists median,
             medianOf (sortAsc (repeat penalty 90)) = Some median /\
             Forall (fun t => trimThreshold median < t) (repeat penalty 90)).
  { exists penalty. split; [vm_compute; reflexivity |].
    apply Forall_forall. intros t Ht. apply repeat_spec in Ht. subst t.
    vm_compute. reflexivity. }
  split; [exact H |].
  apply (unavailable_when_nothing_retained (repeat penalty 90)).
  right. destruct H as (m & Hm & Hall). exists m. split; [exact Hm | left; exact Hall].
Defined.

(** ** The probe loop *)

Lemma recordProbe_app (i : nat) (latency : option Q) (pingTimes : list Q) :
  recordProbe i latency pingTimes
  = pingTimes ++ (if atLeastWarmUp i then [collected latency] else []).
Proof.
  unfold recordProbe. destruct latency, (atLeastWarmUp i); simpl;
    rewrite ?app_nil_r; reflexivity.
Qed.

Section ProbeLoop.

Variables (overallStart overallEnd : Q) (ps : nat -> Probe).
Variable outcome : nat -> option Q.

Lemma pingLoop_collects (k i : nat) (pingTimes : list Q) (s : UI.t) :
  (forall j s0, (i <= j < i + k)%nat -> probeLatency (ps j) s0 = Done (outcome j) s0) ->
  exists s',
    pingLoop overallStart overallEnd ps k i pingTimes s
    = Done (pingTimes
            ++ map (fun j => collected (outcome j)) (filter atLeastWarmUp (seq i k))) s'.
Proof.
  revert i pingTimes s. induction k as [| k IH]; intros i pingTimes s Hall.
  - exists s. simpl. rewrite app_nil_r. reflexivity.
  - simpl pingLoop. unfold bind at 1. rewrite Hall by lia.
    unfold bind at 1. unfold updateOverallProgress at 1, modify at 1.
    destruct (IH (S i) (recordProbe i (outcome i) pingTimes)
                 (UI.setProgress
                    (overallProgress overallStart overallEnd
                                     (natQ (i + 1) / natQ numPings * 100)) s))
      as (s' & Hs').
    { intros j s0 Hj. apply Hall. lia. }
    exists s'. rewrite Hs'. f_equal.
    rewrite recordProbe_app, <- app_assoc. f_equal.
    simpl seq. simpl filter. destruct (atLeastWarmUp i); reflexivity.
Qed.

End ProbeLoop.

(** A probe that times out on the socket, or whose HEAD request is
    rejected, leaves [latency] null. *)
Lemma failed_probe_is_null (p : Probe) (s : UI.t) :
  (socketOpen p = true /\ socket p = SocketTimeout) \/
  ((socketOpen p = false \/ socket p = SocketThrows) /\ head p = HeadRejected) ->
  probeLatency p s = Done None s.
Proof.
  unfold probeLatency, performSinglePing.
  intros [[Ho Hs] | [[Ho | Hs] Hh]].
  - rewrite Ho, Hs. reflexivity.
  - rewrite Ho, Hh. reflexivity.
  - rewrite Hs, Hh. destruct (socketOpen p); reflexivity.
Qed.

(** C7.  When no probe is cancelled, the hundred probes leave ninety
    values: probe [i] for [i] from 10 to 99 contributes, at position
    [i - 10], its latency when it measured one and the penalty 1000
    when it failed or timed out; the first ten contribute nothing. *)
Theorem warm_up_and_penalty
        (overallStart overallEnd : Q) (ps : nat -> Probe)
        (outcome : nat -> option Q) (s : UI.t) :
  (forall i s0, (i < numPings)%nat -> probeLatency (ps i) s0 = Done (outcome i) s0) ->
  exists pingTimes s',
    pingLoop overallStart overallEnd ps numPings 0 [] s = Done pingTimes s' /\
    pingTimes = map (fun i => collected (outcome i))
                    (seq warmUpPings (numPings - warmUpPings)) /\
    List.length pingTimes = 90%nat /\
    (forall i, (warmUpPings <= i < numPings)%nat ->
               outcome i = None ->
               nth_error pingTimes (i - warmUpPings) = Some 1000) /\
    (forall i t, (warmUpPings <= i < numPings)%nat ->
                 outcome i = Some t ->
                 nth_error pingTimes (i - warmUpPings) = Some t).
Proof.
  intro Hall.
  destruct (pingLoop_collects overallStart overallEnd ps outcome numPings 0 [] s)
    as (s' & Hs').
  { intros j s0 Hj. apply Hall. lia. }
  change (filter atLeastWarmUp (seq 0 numPings))
    with (seq warmUpPings (numPings - warmUpPings)) in Hs'.
  rewrite app_nil_l in Hs'.
  eexists. exists s'. split; [exact Hs' |]. split; [reflexivity |].
  split; [rewrite length_map, length_seq; reflexivity |].
  assert (Hnth : forall i, (warmUpPings <= i < numPings)%nat ->
                 nth_error (map (fun i => collected (outcome i))
                                (seq warmUpPings (numPings - warmUpPings)))
                           (i - warmUpPings)
                 = Some (collected (outcome i))).
  { intros i Hi. rewrite nth_error_map.
    assert (Hseq : nth_error (seq warmUpPings (numPings - warmUpPings)) (i - warmUpPings)
                   = Some i).
    { erewrite nth_error_nth' with (d := O).
      - rewrite seq_nth; [f_equal; lia |].
        unfold numPings, warmUpPings in *. lia.
      - rewrite length_seq. unfold numPings, warmUpPings in *. lia. }
    rewrite Hseq. reflexivity. }
  split.
  - intros i Hi Ho. rewrite Hnth by exact Hi. rewrite Ho. reflexivity.
  - intros i t Hi Ho. rewrite Hnth by exact Hi. rewrite Ho. reflexivity.
Qed.

Lemma warm_up_and_penalty_witness :
  exists pingTimes s',
    pingLoop 0 10 (fun i => if Nat.even i
                            then steady 20
                            else {| socketOpen := true; socket := SocketTimeout;
                                    head := HeadRejected |})
             numPings 0 [] UI.initial = Done pingTimes s' /\
    nth_error pingTimes 1 = Some 1000 /\ nth_error pingTimes 2 = Some 20.
Proof.
  destruct (warm_up_and_penalty 0 10
              (fun i => if Nat.even i
                        then steady 20
                        else {| socketOpen := true; socket := SocketTimeout;
                                head := HeadRejected |})
              (fun i => if Nat.even i then Some 20 else None)
              UI.initial)
    as (pingTimes & s' & Hrun & _ & _ & Hfail & Hok).
  { intros i s0 _. destruct (Nat.even i); reflexivity. }
  exists pingTimes, s'. split; [exact Hrun |]. split.
  - apply (Hfail 11%nat); [unfold warmUpPings, numPings; lia | reflexivity].
  - apply (Hok 12%nat 20); [unfold warmUpPings, numPings; lia | reflexivity].
Defined.

(** ** The throughput formula *)

Lemma bytesQ_nonneg (bytes : N) : 0 <= bytesQ bytes.
Proof.
  unfold bytesQ. change 0 with (inject_Z 0). rewrite <- Zle_Qle. lia.
Qed.

Lemma bytesQ_mono (b1 b2 : N) : (b1 <= b2)%N -> bytesQ b1 <= bytesQ b2.
Proof.
  intro H. unfold bytesQ. rewrite <- Zle_Qle. lia.
Qed.

(** With a non-zero elapsed time the rate is finite and is the
    formula of the source. *)
Lemma speedMbps_finite (bytes : N) (ms : Q) :
  ~ ms == 0 ->
  speedMbps bytes ms = Js.Fin (bytesQ bytes / (ms / 1000) / (1024 * 1024) * 8).
Proof.
  intro Hms. unfold speedMbps, Js.div.
  destruct (Qeq_bool (ms / 1000) 0) eqn:E.
  - apply Qeq_bool_iff in E. exfalso. apply Hms.
    setoid_replace ms with (ms / 1000 * 1000) by (field; discriminate).
    rewrite E. reflexivity.
  - reflexivity.
Qed.

Lemma rate_normal_form (b ms : Q) :
  ~ ms == 0 ->
  b / (ms / 1000) / (1024 * 1024) * 8 == b * (8000 # 1048576) / ms.
Proof.
  intro Hms. field. exact Hms.
Qed.

Lemma Qdiv_le_numerator (a b c : Q) : 0 < c -> a <= b -> a / c <= b / c.
Proof.
  intros Hc Hab. apply Qle_shift_div_l; [exact Hc |].
  setoid_replace (a / c * c) with a by (field; lra). exact Hab.
Qed.

Lemma Qdiv_le_denominator (a c d : Q) : 0 <= a -> 0 < c -> c <= d -> a / d <= a / c.
Proof.
  intros Ha Hc Hcd. apply Qle_shift_div_l; [exact Hc |].
  setoid_replace (a / d * c) with (a * c / d) by (field; lra).
  apply Qle_shift_div_r; [lra |].
  rewrite (Qmult_comm a c), (Qmult_comm a d).
  apply Qmult_le_compat_r; assumption.
Qed.

(** C5.  With a positive elapsed time the rate is the byte count
    divided by the elapsed seconds, divided by 1,048,576, times 8;
    125,000,000 bytes in 10,000 ms give (125000000 x 8) / (1048576 x 10),
    shown as 95.37, and a download that reads exactly that leaves 95.37
    as the download speed. *)
Theorem download_rate_formula :
  (forall (bytes : N) (ms : Q),
      0 < ms ->
      exists rate,
        speedMbps bytes ms = Js.Fin rate /\
        rate == bytesQ bytes / (ms / 1000) / 1048576 * 8) /\
  (exists rate,
      speedMbps 125000000 10000 = Js.Fin rate /\
      rate == (125000000 * 8) / (1048576 * 10) /\
      (9536 # 100) < rate /\ rate < (9537 # 100) /\
      Js.toFixed 2 (Js.Fin rate) = "95.37"%string) /\
  (forall s : UI.t,
      exists s',
        runDownloadTest fullRun pingProgressEnd downloadProgressEnd s = Done tt s' /\
        UI.downloadSpeed s' = "95.37"%string).
Proof.
  split; [| split].
  - intros bytes ms Hms. eexists. split.
    + apply speedMbps_finite. lra.
    + reflexivity.
  - eexists. split; [vm_compute; reflexivity |].
    repeat split; vm_compute; reflexivity.
  - intro s. eexists. split; [vm_compute; reflexivity | reflexivity].
Qed.

Lemma download_rate_formula_witness :
  0 < 10000 /\
  exists rate,
    speedMbps 125000000 10000 = Js.Fin rate /\
    rate == bytesQ 125000000 / (10000 / 1000) / 1048576 * 8.
Proof.
  split; [reflexivity |].
  apply (proj1 download_rate_formula 125000000%N 10000). reflexivity.
Defined.

(** C9.  For a positive elapsed time the rate does not decrease when
    the byte count grows, and for a fixed byte count it does not
    increase when the (positive) elapsed time grows. *)
Theorem rate_monotone :
  (forall (b1 b2 : N) (t : Q),
      (b1 <= b2)%N -> 0 < t ->
      Js.leNum (speedMbps b1 t) (speedMbps b2 t)) /\
  (forall (b : N) (t1 t2 : Q),
      0 < t1 -> t1 <= t2 ->
      Js.leNum (speedMbps b t2) (speedMbps b t1)).
Proof.
  split.
  - intros b1 b2 t Hb Ht.
    rewrite !speedMbps_finite by lra. simpl.
    rewrite !rate_normal_form by lra.
    apply Qdiv_le_numerator; [exact Ht |].
    apply Qmult_le_compat_r; [apply bytesQ_mono, Hb | discriminate].
  - intros b t1 t2 Ht1 Ht12.
    rewrite !speedMbps_finite by lra. simpl.
    rewrite !rate_normal_form by lra.
    apply Qdiv_le_denominator; [| exact Ht1 | exact Ht12].
    apply Qmult_le_0_compat; [apply bytesQ_nonneg | discriminate].
Qed.

Lemma rate_monotone_witness :
  Js.leNum (speedMbps 1000000 2000) (speedMbps 3000000 2000) /\
  Js.leNum (speedMbps 1000000 4000) (speedMbps 1000000 2000).
Proof.
  split.
  - apply (proj1 rate_monotone 1000000%N 3000000%N 2000); [lia | reflexivity].
  - apply (proj2 rate_monotone 1000000%N 2000 4000); [reflexivity | discriminate].
Defined.

(** ** The upload loop *)

Lemma reportSpeed_done (set : string -> UI.t -> UI.t) (a b : Q) (bytes : N)
      (elapsed : Q) (s : UI.t) :
  reportSpeed set a b bytes elapsed s
  = Done tt (UI.setProgress
               (overallProgress a b (Js.min 100 (elapsed / testDuration * 100)))
               (UI.setCurrentSpeedDisplay (speedMbps bytes elapsed)
                  (set (Js.toFixed 2 (speedMbps bytes elapsed)) s))).
Proof. reflexivity. Qed.

Lemma acceptedBytes_cons (turn : UploadTurn) (turns : list UploadTurn) :
  acceptedBytes (turn :: turns)
  = ((if isResolved turn then chunkSize else 0) + acceptedBytes turns)%N.
Proof.
  unfold acceptedBytes. simpl filter. destruct (isResolved turn).
  - simpl List.length. lia.
  - lia.
Qed.

Section UploadLoop.

Variables (overallStart overallEnd startTime : Q).

Lemma uploadLoop_rejected (turn : UploadTurn) (rest : list UploadTurn)
      (bytes : N) (last : Q) (s : UI.t) :
  timeIsUp startTime turn = false -> post turn = PostRejected ->
  uploadLoop overallStart overallEnd (turn :: rest) startTime bytes last s
  = uploadLoop overallStart overallEnd rest startTime bytes last s.
Proof.
  unfold timeIsUp. intros Ht Hp. simpl. rewrite Ht, Hp. reflexivity.
Qed.

Lemma uploadLoop_aborted (turn : UploadTurn) (rest : list UploadTurn)
      (bytes : N) (last : Q) (s : UI.t) :
  timeIsUp startTime turn = false -> post turn = PostAborted ->
  uploadLoop overallStart overallEnd (turn :: rest) startTime bytes last s
  = Throw AbortError s.
Proof.
  unfold timeIsUp. intros Ht Hp. simpl. rewrite Ht, Hp. reflexivity.
Qed.

Lemma uploadLoop_counts (turns : list UploadTurn) (bytes : N) (last : Q) (s : UI.t) :
  deadlineReached startTime turns = true ->
  Forall (fun turn => post turn <> PostAborted) (turnsBeforeDeadline startTime turns) ->
  exists s',
    uploadLoop overallStart overallEnd turns startTime bytes last s
    = Done (bytes + acceptedBytes (turnsBeforeDeadline startTime turns))%N s'.
Proof.
  revert bytes last s.
  induction turns as [| turn rest IH]; intros bytes last s Hd Hall;
    [discriminate Hd |].
  simpl in Hd, Hall. simpl uploadLoop. fold (timeIsUp startTime turn).
  simpl turnsBeforeDeadline.
  destruct (timeIsUp startTime turn) eqn:Ht.
  - exists s. unfold ret. f_equal. unfold acceptedBytes. simpl. lia.
  - simpl in Hd. inversion Hall as [| ? ? Hturn Hrest]; subst.
    rewrite acceptedBytes_cons. unfold isResolved.
    destruct (post turn) eqn:Hp; [| | congruence].
    + unfold bind at 1.
      destruct (Js.ltb 200 (headTime turn - last)).
      * unfold bind at 1. rewrite reportSpeed_done. unfold ret at 1.
        edestruct IH as (s' & Hs'); [exact Hd | exact Hrest |].
        exists s'. rewrite Hs'. f_equal. lia.
      * unfold ret at 1.
        edestruct IH as (s' & Hs'); [exact Hd | exact Hrest |].
        exists s'. rewrite Hs'. f_equal. lia.
    + edestruct IH as (s' & Hs'); [exact Hd | exact Hrest |].
      exists s'. rewrite Hs'. f_equal.
Qed.

Lemma uploadLoop_no_error (turns : list UploadTurn) (bytes : N) (last : Q)
      (s s' : UI.t) (message : string) :
  uploadLoop overallStart overallEnd turns startTime bytes last s
  <> Throw (Error message) s'.
Proof.
  revert bytes last s.
  induction turns as [| turn rest IH]; intros bytes last s; simpl.
  - discriminate.
  - destruct (Qle_bool testDuration (headTime turn - startTime)); [discriminate |].
    destruct (post turn).
    + unfold bind at 1.
      destruct (Js.ltb 200 (headTime turn - last)).
      * unfold bind at 1. rewrite reportSpeed_done. unfold ret at 1. apply IH.
      * unfold ret at 1. apply IH.
    + apply IH.
    + discriminate.
Qed.

End UploadLoop.

(** C8.  In the upload loop a rejected request changes nothing and the
    loop goes on to the next turn; an aborted one throws the abort at
    once.  A loop that is not aborted runs until the turn at whose head
    10,000 ms have elapsed and returns one chunk for every request that
    was answered before, which is the byte count of the final rate; the
    stage never throws anything but the abort. *)
Theorem upload_failures_do_not_abort (overallStart overallEnd : Q) :
  (forall startTime turn rest bytes last s,
      timeIsUp startTime turn = false -> post turn = PostRejected ->
      uploadLoop overallStart overallEnd (turn :: rest) startTime bytes last s
      = uploadLoop overallStart overallEnd rest startTime bytes last s) /\
  (forall startTime turn rest bytes last s,
      timeIsUp startTime turn = false -> post turn = PostAborted ->
      uploadLoop overallStart overallEnd (turn :: rest) startTime bytes last s
      = Throw AbortError s) /\
  (forall (env : Env) (s : UI.t),
      let u := upload env in
      let sent := turnsBeforeDeadline (ulStart u) (ulTurns u) in
      deadlineReached (ulStart u) (ulTurns u) = true ->
      Forall (fun turn => post turn <> PostAborted) sent ->
      Forall (fun turn => timeIsUp (ulStart u) turn = false) sent /\
      exists s',
        runUploadTest env overallStart overallEnd s = Done tt s' /\
        UI.uploadSpeed s'
        = Js.toFixed 2 (speedMbps (acceptedBytes sent) (ulFinal u - ulStart u))) /\
  (forall (env : Env) (s s' : UI.t) (message : string),
      runUploadTest env overallStart overallEnd s <> Throw (Error message) s').
Proof.
  split; [| split; [| split]].
  - intros. apply uploadLoop_rejected; assumption.
  - intros. apply uploadLoop_aborted; assumption.
  - intros env s u sent Hd Hall. split.
    + subst sent. clear. induction (ulTurns u) as [| turn rest IH]; simpl.
      * constructor.
      * destruct (timeIsUp (ulStart u) turn) eqn:E; constructor; assumption.
    + destruct (uploadLoop_counts overallStart overallEnd (ulStart u) (ulTurns u)
                                  0%N (ulBefore u) s Hd Hall) as (s1 & Hs1).
      unfold runUploadTest. fold u. unfold bind at 1. rewrite Hs1.
      eexists. split; [reflexivity |]. reflexivity.
  - intros env s s' message. unfold runUploadTest. unfold bind at 1.
    destruct (uploadLoop overallStart overallEnd (ulTurns (upload env))
                         (ulStart (upload env)) 0 (ulBefore (upload env)) s)
      as [n s1 | e s1 |] eqn:E.
    + discriminate.
    + intro H. injection H as -> ->.
      exact (uploadLoop_no_error _ _ _ _ _ _ _ _ _ E).
    + discriminate.
Qed.

Lemma upload_failures_do_not_abort_witness :
  exists s',
    runUploadTest fullRun downloadProgressEnd uploadProgressEnd UI.initial
    = Done tt s' /\
    UI.uploadSpeed s' = Js.toFixed 2 (speedMbps (3 * chunkSize) 10000).
Proof.
  destruct (proj1 (proj2 (proj2
              (upload_failures_do_not_abort downloadProgressEnd uploadProgressEnd)))
              fullRun UI.initial) as (_ & s' & Hrun & Hspeed).
  - reflexivity.
  - repeat constructor; discriminate.
  - exists s'. split; [exact Hrun | exact Hspeed].
Defined.

(** ** Reasoning about computations *)

Section Triples.

Context {W : Prop}.

Lemma triple_ret {A : Type} (P Q : UI.t -> Prop) (a : A) :
  (forall s, P s -> Q s) -> Triple W P (ret a) Q.
Proof. intros H s Hs. apply H, Hs. Qed.

Lemma triple_throw {A : Type} (P Q : UI.t -> Prop) (e : exn) :
  (forall s, P s -> Q s) -> Triple W P (@throw A e) Q.
Proof. intros H s Hs. apply H, Hs. Qed.

Lemma triple_modify (P Q : UI.t -> Prop) (f : UI.t -> UI.t) :
  (forall s, P s -> Q (f s)) -> Triple W P (modify f) Q.
Proof. intros H s Hs. apply H, Hs. Qed.

Lemma triple_bind {A B : Type} (P Q1 Q2 : UI.t -> Prop) (m : M A) (k : A -> M B) :
  Triple W P m Q1 -> (forall a, Triple W Q1 (k a) Q2) ->
  (forall s, Q1 s -> Q2 s) ->
  Triple W P (bind m k) Q2.
Proof.
  intros Hm Hk Hw s Hs. unfold bind. specialize (Hm s Hs).
  destruct (m s) as [a s1 | e s1 |].
  - apply Hk, Hm.
  - apply Hw, Hm.
  - exact Hm.
Qed.

(** Sequencing under one invariant. *)
Lemma triple_seq {A B : Type} (I : UI.t -> Prop) (m : M A) (k : A -> M B) :
  Triple W I m I -> (forall a, Triple W I (k a) I) -> Triple W I (bind m k) I.
Proof. intros Hm Hk. eapply triple_bind; eauto. Qed.

Lemma triple_weaken {A : Type} (P P' Q Q' : UI.t -> Prop) (m : M A) :
  Triple W P m Q -> (forall s, P' s -> P s) -> (forall s, Q s -> Q' s) ->
  Triple W P' m Q'.
Proof.
  intros Hm Hp Hq s Hs. specialize (Hm s (Hp s Hs)).
  destruct (m s); auto.
Qed.

End Triples.

(** ** The history is touched by the [finally] block alone *)

Ltac history_step :=
  first
    [ apply triple_seq; [| intro]
    | apply triple_modify; intros ? ?; assumption
    | apply triple_ret; intros ? ?; assumption
    | apply triple_throw; intros ? ?; assumption ].

Section History.

Variable h : list TestResult.t.
Variables (overallStart overallEnd : Q).

Lemma reportSpeed_history (W : Prop) (set : string -> UI.t -> UI.t)
      (bytes : N) (elapsed : Q) :
  (forall v s, UI.testHistory (set v s) = UI.testHistory s) ->
  Triple W (keepsHistory h) (reportSpeed set overallStart overallEnd bytes elapsed)
         (keepsHistory h).
Proof.
  intros Hset s Hs. rewrite reportSpeed_done. unfold keepsHistory in *.
  simpl. rewrite Hset. exact Hs.
Qed.

Lemma probeLatency_history (W : Prop) (p : Probe) :
  Triple W (keepsHistory h) (probeLatency p) (keepsHistory h).
Proof.
  unfold probeLatency, performSinglePing.
  destruct (socketOpen p), (socket p), (head p); repeat history_step.
Qed.

Lemma pingLoop_history (W : Prop) (ps : nat -> Probe) (k i : nat) (pingTimes : list Q) :
  Triple W (keepsHistory h) (pingLoop overallStart overallEnd ps k i pingTimes)
         (keepsHistory h).
Proof.
  revert i pingTimes. induction k as [| k IH]; intros i pingTimes; simpl.
  - history_step.
  - apply triple_seq; [apply probeLatency_history | intro latency].
    apply triple_seq; [unfold updateOverallProgress; history_step | intros _].
    apply IH.
Qed.

Lemma downloadLoop_history (W : Prop) (reads : list ReadOutcome) (startTime : Q)
      (bytes : N) (last : Q) :
  Triple W (keepsHistory h)
         (downloadLoop overallStart overallEnd reads startTime bytes last)
         (keepsHistory h).
Proof.
  revert bytes last. induction reads as [| [len t | |] rest IH]; intros bytes last;
    simpl; [history_step | | history_step | history_step].
  apply triple_seq.
  - destruct (Js.ltb 200 (t - last)); [| history_step].
    apply triple_seq; [| intros _; history_step].
    apply reportSpeed_history. reflexivity.
  - intro last'. destruct (Qle_bool testDuration (t - startTime)); [history_step |].
    apply IH.
Qed.

Lemma uploadLoop_history (turns : list UploadTurn) (startTime : Q)
      (bytes : N) (last : Q) :
  Triple (uploadSettles startTime turns = false) (keepsHistory h)
         (uploadLoop overallStart overallEnd turns startTime bytes last)
         (keepsHistory h).
Proof.
  revert bytes last. induction turns as [| turn rest IH]; intros bytes last; simpl.
  - intros s _. reflexivity.
  - unfold timeIsUp, isAborted.
    destruct (Qle_bool testDuration (headTime turn - startTime)); [history_step |].
    destruct (post turn); simpl.
    + apply triple_seq.
      * destruct (Js.ltb 200 (headTime turn - last)); [| history_step].
        apply triple_seq; [| intros _; history_step].
        apply reportSpeed_history. reflexivity.
      * intro last'. apply IH.
    + apply IH.
    + history_step.
Qed.

End History.

Lemma downloadCatch_triple (W : Prop) (P Q : UI.t -> Prop) (body : M unit) :
  Triple W P body Q -> Triple W P (downloadCatch body) Q.
Proof.
  intros Hb s Hs. specialize (Hb s Hs). unfold downloadCatch.
  destruct (body s) as [a s1 | [| message] s1 |]; exact Hb.
Qed.

Lemma runPingTest_history (W : Prop) (h : list TestResult.t) (env : Env) (a b : Q) :
  Triple W (keepsHistory h) (runPingTest env a b) (keepsHistory h).
Proof.
  unfold runPingTest. apply triple_seq; [apply pingLoop_history | intro].
  history_step.
Qed.

Lemma runDownloadTest_history (W : Prop) (h : list TestResult.t) (env : Env) (a b : Q) :
  Triple W (keepsHistory h) (runDownloadTest env a b) (keepsHistory h).
Proof.
  unfold runDownloadTest. apply downloadCatch_triple.
  destruct (dlFetch (download env)) as [[|] | |];
    [| history_step | history_step | history_step].
  apply triple_seq; [apply downloadLoop_history | intro bytes].
  unfold updateOverallProgress. repeat history_step.
Qed.

Lemma runUploadTest_history (h : list TestResult.t) (env : Env) (a b : Q) :
  Triple (uploadSettles (ulStart (upload env)) (ulTurns (upload env)) = false)
         (keepsHistory h) (runUploadTest env a b) (keepsHistory h).
Proof.
  unfold runUploadTest. apply triple_seq; [apply uploadLoop_history | intro bytes].
  unfold updateOverallProgress. repeat history_step.
Qed.

Lemma tryBlock_history (h : list TestResult.t) (env : Env) :
  Triple (uploadSettles (ulStart (upload env)) (ulTurns (upload env)) = false)
         (keepsHistory h) (tryBlock env) (keepsHistory h).
Proof.
  unfold tryBlock, fetchIpAddress.
  do 4 (apply triple_seq; [history_step | intro]).
  apply triple_seq; [apply runPingTest_history | intro].
  do 2 (apply triple_seq; [history_step | intro]).
  apply triple_seq; [apply runDownloadTest_history | intro].
  do 2 (apply triple_seq; [history_step | intro]).
  apply triple_seq; [apply runUploadTest_history | intro].
  repeat history_step.
Qed.

Lemma catchBlock_done (r : Render.t) (e : exn) (s : UI.t) :
  exists s',
    catchBlock r e s = Done tt s' /\
    UI.testHistory s' = UI.testHistory s /\
    UI.progressLog s' = UI.progressLog s.
Proof.
  unfold catchBlock, whenDash.
  destruct e;
    destruct (String.eqb (Render.ping r) "-"),
             (String.eqb (Render.downloadSpeed r) "-"),
             (String.eqb (Render.uploadSpeed r) "-"),
             (String.eqb (Render.ipAddress r) "-");
    eexists; (split; [reflexivity | split; reflexivity]).
Qed.

(** What a run that has ended has done to the history, and the only
    way it can be left waiting. *)
Lemma startAllTests_outcome (r : Render.t) (env : Env) (s : UI.t) :
  match startAllTests r env s with
  | Done _ s' => UI.testHistory s' = newResult r env :: UI.testHistory s
  | Throw _ _ => False
  | Pending => uploadSettles (ulStart (upload env)) (ulTurns (upload env)) = false
  end.
Proof.
  unfold startAllTests. unfold bind at 1.
  change (resetDisplay s) with
    (Done tt (UI.setAbortControllerRef true (UI.setIsTesting true
       (UI.setTestState pinging (UI.setTestStatus "Starting..."
          (UI.setProgress 0 (UI.setIpAddress "-" (UI.setUploadSpeed "-"
             (UI.setDownloadSpeed "-" (UI.setPing "-" s)))))))))).
  cbv iota beta.
  set (s1 := UI.setAbortControllerRef true _).
  pose proof (tryBlock_history (UI.testHistory s) env s1 eq_refl) as Htry.
  unfold tryCatchFinally.
  destruct (tryBlock env s1) as [[] s2 | e s2 |].
  - unfold keepsHistory in Htry. simpl. rewrite Htry. reflexivity.
  - unfold keepsHistory in Htry.
    destruct (catchBlock_done r e s2) as (s3 & -> & Hh & _).
    simpl. rewrite Hh, Htry. reflexivity.
  - exact Htry.
Qed.

(** C1.  A run that has finished has returned (the handler never lets
    an exception out) and has put exactly one record, the one its
    [finally] block builds, in front of the history: the history is one
    longer than before.  A run is left unfinished only while its upload
    loop waits for the clock; a script in which the upload loop ends
    always finishes. *)
Theorem one_record_per_run (r : Render.t) (env : Env) (s : UI.t) :
  (uploadSettles (ulStart (upload env)) (ulTurns (upload env)) = true ->
   startAllTests r env s <> Pending) /\
  (startAllTests r env s <> Pending ->
   exists s',
     startAllTests r env s = Done tt s' /\
     UI.testHistory s' = newResult r env :: UI.testHistory s /\
     List.length (UI.testHistory s') = S (List.length (UI.testHistory s))).
Proof.
  pose proof (startAllTests_outcome r env s) as H.
  destruct (startAllTests r env s) as [[] s' | e s' |].
  - split; [discriminate | intros _].
    exists s'. split; [reflexivity |]. split; [exact H |].
    rewrite H. reflexivity.
  - contradiction.
  - split; [congruence | intro Hne; congruence].
Qed.

Lemma one_record_per_run_witness :
  exists s',
    startAllTests (Render.capture UI.initial) fullRun UI.initial = Done tt s' /\
    List.length (UI.testHistory s') = 1%nat.
Proof.
  destruct (one_record_per_run (Render.capture UI.initial) fullRun UI.initial)
    as [Hsettles Hrecord].
  destruct (Hrecord (Hsettles eq_refl)) as (s' & Hrun & _ & Hlen).
  exists s'. split; [exact Hrun | exact Hlen].
Defined.

(** ** What the record holds *)

(** C3 (the code departs from the claim).  On the first run after
    mounting, the latency stage completes and shows 50.00, the user
    aborts during the download, and the record has no latency.  On a
    run that follows a complete one and is aborted during the download,
    the record carries the download and upload speeds of the run
    before.  The record is built from the constants of the render the
    handler was created in, never from what the run measured. *)
Theorem cancelled_download_record :
  (forall s, exists s1,
      runPingTest cancelledInDownload 0 pingProgressEnd s = Done tt s1 /\
      UI.ping s1 = "50.00"%string) /\
  (exists s' record,
      click cancelledInDownload UI.initial = Done tt s' /\
      UI.testStatus s' = "Test Aborted"%string /\
      UI.testHistory s' = [record] /\
      TestResult.ping record = None /\
      TestResult.downloadSpeed record = None /\
      TestResult.uploadSpeed record = None) /\
  (exists s1 s2 record rest,
      click fullRun UI.initial = Done tt s1 /\
      click cancelledInDownload s1 = Done tt s2 /\
      UI.testStatus s2 = "Test Aborted"%string /\
      UI.testHistory s2 = record :: rest /\
      TestResult.ping record = Some (Js.Fin 50) /\
      TestResult.downloadSpeed record = Some (Js.Fin (9537 # 100)) /\
      TestResult.uploadSpeed record = Some (Js.Fin (12 # 5))) /\
  (forall r env s s',
      startAllTests r env s = Done tt s' ->
      hd_error (UI.testHistory s')
      = Some (TestResult.make (Js.string_of_N (dateNow env)) (localeString env)
                (if negb (String.eqb (Render.ipAddress r) "")
                    && negb (String.eqb (Render.ipAddress r) "-")
                 then Render.ipAddress r else "N/A"%string)
                (measured (Render.ping r))
                (measured (Render.downloadSpeed r))
                (measured (Render.uploadSpeed r)))).
Proof.
  split; [| split; [| split]].
  - intro s. eexists. split; [vm_compute; reflexivity | reflexivity].
  - do 2 eexists. split; [vm_compute; reflexivity |].
    repeat split.
  - do 4 eexists. split; [vm_compute; reflexivity |].
    split; [vm_compute; reflexivity |].
    repeat split.
  - intros r env s s' Hrun.
    pose proof (startAllTests_outcome r env s) as Hh.
    rewrite Hrun in Hh. rewrite Hh. reflexivity.
Qed.

(** ** The progress log *)

Lemma Tracks_weaken (log0 : list Z) (c c' : Z) (s : UI.t) :
  (c <= c')%Z -> Tracks log0 c s -> Tracks log0 c' s.
Proof.
  intros Hc (u & Hlog & Hr & Hall). exists u. split; [exact Hlog |].
  split; [exact Hr |].
  eapply Forall_impl; [| exact Hall]. intros v Hv. cbv beta in *. lia.
Qed.

Lemma Rising_push (c v : Z) (u : list Z) :
  Rising u -> Forall (fun w => (w <= c)%Z) u -> (c <= v)%Z -> Rising (v :: u).
Proof.
  intros Hr Hall Hc. constructor; [exact Hr |].
  destruct Hall as [| w u' Hw _]; constructor. lia.
Qed.

Lemma Tracks_push (log0 : list Z) (c v : Z) (s : UI.t) :
  (c <= v)%Z -> Tracks log0 c s -> Tracks log0 v (UI.setProgress v s).
Proof.
  intros Hc (u & Hlog & Hr & Hall). exists (v :: u). simpl.
  split; [rewrite Hlog; reflexivity |].
  split; [eapply Rising_push; eassumption |].
  constructor; [lia |].
  eapply Forall_impl; [| exact Hall]. intros w Hw. cbv beta in *. lia.
Qed.

Lemma overallProgress_mono (a b p q : Q) :
  a <= b -> p <= q -> (overallProgress a b p <= overallProgress a b q)%Z.
Proof.
  intros Hab Hpq. unfold overallProgress. apply round_mono.
  apply Qplus_le_r.
  rewrite (Qmult_comm (b - a) (p / 100)), (Qmult_comm (b - a) (q / 100)).
  apply Qmult_le_compat_r; [| lra].
  apply Qdiv_le_numerator; [reflexivity | exact Hpq].
Qed.

Lemma min_mono (a b b' : Q) : b <= b' -> Js.min a b <= Js.min a b'.
Proof.
  intro H. destruct (min_spec a b) as (Ha & Hb & _).
  apply min_glb; lra.
Qed.

Lemma transferProgress_mono (e e' : Q) :
  e <= e' -> transferProgress e <= transferProgress e'.
Proof.
  intro H. unfold transferProgress, testDuration, Qdiv.
  change (/ 10000) with (1 # 10000). apply min_mono. lra.
Qed.

Lemma transferProgress_le_100 (e : Q) : transferProgress e <= 100.
Proof. unfold transferProgress. apply min_spec. Qed.

Lemma transferProgress_nonneg (e : Q) : 0 <= e -> 0 <= transferProgress e.
Proof.
  intro H. unfold transferProgress, testDuration, Qdiv.
  change (/ 10000) with (1 # 10000). apply min_glb; lra.
Qed.

Lemma natQ_mono (i j : nat) : (i <= j)%nat -> natQ i <= natQ j.
Proof. intro H. unfold natQ. rewrite <- Zle_Qle. lia. Qed.

Lemma nondecreasing_sorted (l : list Q) :
  nondecreasing l = true -> StronglySorted Qle l.
Proof.
  intro H. apply Sorted_StronglySorted.
  - intros x y z. apply Qle_trans.
  - induction l as [| x [| y l] IH].
    + constructor.
    + repeat constructor.
    + simpl in H. apply andb_true_iff in H. destruct H as [Hxy Hrest].
      constructor; [apply IH, Hrest |].
      constructor. apply Qle_bool_iff, Hxy.
Qed.

Lemma StronglySorted_prefix (l1 l2 : list Q) :
  StronglySorted Qle (l1 ++ l2) -> StronglySorted Qle l1.
Proof.
  induction l1 as [| x l1 IH]; intro H; simpl in *.
  - constructor.
  - apply StronglySorted_inv in H. destruct H as [Hs Hall].
    constructor; [apply IH, Hs |].
    apply Forall_app in Hall. apply Hall.
Qed.

(** The readings the loops use: every one is at or after the start of
    its stage, and they come in order. *)
Lemma clock_after_start (before start final : Q) (times : list Q) :
  nondecreasing (before :: start :: times ++ [final]) = true ->
  Forall (fun t => start <= t) times /\ StronglySorted Qle times.
Proof.
  intro H. apply nondecreasing_sorted in H.
  apply StronglySorted_inv in H. destruct H as [H _].
  apply StronglySorted_inv in H. destruct H as [Hs Hall].
  split.
  - apply Forall_app in Hall. apply Hall.
  - eapply StronglySorted_prefix, Hs.
Qed.

Ltac tracks_frame :=
  first
    [ apply triple_modify; intros ? Hframe; exact Hframe
    | apply triple_ret; intros ? Hframe; exact Hframe
    | apply triple_throw; intros ? Hframe; exact Hframe ].

Section ProgressLog.

Variable log0 : list Z.
Variables (overallStart overallEnd : Q).
Hypothesis window : overallStart <= overallEnd.

Let stageEndValue : Z := overallProgress overallStart overallEnd 100.

Lemma probeLatency_tracks (c : Z) (p : Probe) :
  Triple True (Tracks log0 c) (probeLatency p) (Tracks log0 c).
Proof.
  unfold probeLatency, performSinglePing.
  destruct (socketOpen p), (socket p), (head p); tracks_frame.
Qed.

Lemma pingLoop_tracks (ps : nat -> Probe) (k i : nat) (pingTimes : list Q) (c : Z) :
  (i + k <= numPings)%nat ->
  (c <= overallProgress overallStart overallEnd (natQ i / natQ numPings * 100))%Z ->
  Triple True (Tracks log0 c)
         (pingLoop overallStart overallEnd ps k i pingTimes)
         (Tracks log0 stageEndValue).
Proof.
  revert i pingTimes c. induction k as [| k IH]; intros i pingTimes c Hik Hc.
  - simpl. apply triple_ret. intros s. apply Tracks_weaken.
    etransitivity; [exact Hc |]. apply overallProgress_mono; [exact window |].
    pose proof (natQ_mono i numPings ltac:(lia)) as Hi.
    change (natQ numPings) with 100 in *. unfold Qdiv.
    change (/ 100) with (1 # 100). lra.
  - assert (Hend : forall p, p <= 100 ->
              forall s, Tracks log0 (overallProgress overallStart overallEnd p) s ->
                        Tracks log0 stageEndValue s).
    { intros p Hp s. apply Tracks_weaken.
      apply overallProgress_mono; [exact window | exact Hp]. }
    assert (Hc100 : forall s, Tracks log0 c s -> Tracks log0 stageEndValue s).
    { intros s Hs. apply (Hend (natQ i / natQ numPings * 100)).
      - pose proof (natQ_mono i numPings ltac:(lia)) as Hi.
        change (natQ numPings) with 100 in *. unfold Qdiv.
    change (/ 100) with (1 # 100). lra.
      - eapply Tracks_weaken; eassumption. }
    simpl pingLoop.
    eapply triple_bind; [apply probeLatency_tracks | | exact Hc100].
    intro latency.
    eapply triple_bind with
      (Q1 := Tracks log0 (overallProgress overallStart overallEnd
                                          (natQ (i + 1) / natQ numPings * 100))).
    + unfold updateOverallProgress. apply triple_modify. intros s.
      apply Tracks_push. etransitivity; [exact Hc |].
      apply overallProgress_mono; [exact window |].
      pose proof (natQ_mono i (i + 1) ltac:(lia)) as Hi.
      change (natQ numPings) with 100. unfold Qdiv.
      change (/ 100) with (1 # 100). lra.
    + intros _. apply IH; [lia |].
      replace (S i) with (i + 1)%nat by lia. lia.
    + apply Hend.
      pose proof (natQ_mono (i + 1) numPings ltac:(lia)) as Hi.
      change (natQ numPings) with 100 in *. unfold Qdiv.
    change (/ 100) with (1 # 100). lra.
Qed.

(** The progress value a transfer loop reports at clock reading [t]. *)
Let reported (startTime t : Q) : Z :=
  overallProgress overallStart overallEnd (transferProgress (t - startTime)).

Lemma reported_mono (startTime t t' : Q) :
  t <= t' -> (reported startTime t <= reported startTime t')%Z.
Proof.
  intro H. apply overallProgress_mono; [exact window |].
  apply transferProgress_mono. lra.
Qed.

Lemma reported_le_end (startTime t : Q) : (reported startTime t <= stageEndValue)%Z.
Proof.
  apply overallProgress_mono; [exact window | apply transferProgress_le_100].
Qed.

Lemma reportSpeed_tracks (set : string -> UI.t -> UI.t) (bytes : N)
      (startTime t : Q) (c : Z) :
  (forall v s, UI.progressLog (set v s) = UI.progressLog s) ->
  (c <= reported startTime t)%Z ->
  Triple True (Tracks log0 c)
         (reportSpeed set overallStart overallEnd bytes (t - startTime))
         (Tracks log0 (reported startTime t)).
Proof.
  intros Hset Hc s Hs. rewrite reportSpeed_done.
  apply (Tracks_push log0 c); [exact Hc |].
  destruct Hs as (u & Hlog & Hrest). exists u. simpl. rewrite Hset.
  split; [exact Hlog | exact Hrest].
Qed.

Lemma report_or_skip_tracks (set : string -> UI.t -> UI.t) (bytes : N)
      (startTime t last : Q) (c : Z) :
  (forall v s, UI.progressLog (set v s) = UI.progressLog s) ->
  (c <= reported startTime t)%Z ->
  Triple True (Tracks log0 c)
         (if Js.ltb 200 (t - last)
          then reportSpeed set overallStart overallEnd bytes (t - startTime) ;;; ret t
          else ret last)
         (Tracks log0 (reported startTime t)).
Proof.
  intros Hset Hc. destruct (Js.ltb 200 (t - last)).
  - eapply triple_bind; [apply reportSpeed_tracks; assumption | | auto].
    intros _. tracks_frame.
  - apply triple_ret. intros s. apply Tracks_weaken, Hc.
Qed.

Lemma downloadLoop_tracks (reads : list ReadOutcome) (startTime t0 : Q)
      (bytes : N) (last : Q) (c : Z) :
  Forall (fun t => t0 <= t) (chunkTimes reads) ->
  StronglySorted Qle (chunkTimes reads) ->
  (c <= reported startTime t0)%Z ->
  Triple True (Tracks log0 c)
         (downloadLoop overallStart overallEnd reads startTime bytes last)
         (Tracks log0 stageEndValue).
Proof.
  revert t0 bytes last c.
  induction reads as [| [len t | |] rest IH]; intros t0 bytes last c Hafter Hsorted Hc.
  - simpl. apply triple_ret. intros s. apply Tracks_weaken.
    pose proof (reported_le_end startTime t0). lia.
  - simpl chunkTimes in *. simpl downloadLoop.
    apply Forall_inv in Hafter.
    apply StronglySorted_inv in Hsorted. destruct Hsorted as [Hsorted Hnext].
    pose proof (reported_mono startTime t0 t Hafter) as Hmono.
    pose proof (reported_le_end startTime t) as Hend.
    eapply triple_bind with (Q1 := Tracks log0 (reported startTime t)).
    + apply report_or_skip_tracks; [reflexivity | lia].
    + intro last'. destruct (Qle_bool testDuration (t - startTime)).
      * apply triple_ret. intros s. apply Tracks_weaken, Hend.
      * apply (IH t); [exact Hnext | exact Hsorted | lia].
    + intros s. apply Tracks_weaken, Hend.
  - simpl. apply triple_throw. intros s. apply Tracks_weaken.
    pose proof (reported_le_end startTime t0). lia.
  - simpl. apply triple_throw. intros s. apply Tracks_weaken.
    pose proof (reported_le_end startTime t0). lia.
Qed.

Lemma uploadLoop_tracks (turns : list UploadTurn) (startTime t0 : Q)
      (bytes : N) (last : Q) (c : Z) :
  Forall (fun t => t0 <= t) (map headTime turns) ->
  StronglySorted Qle (map headTime turns) ->
  (c <= reported startTime t0)%Z ->
  Triple True (Tracks log0 c)
         (uploadLoop overallStart overallEnd turns startTime bytes last)
         (Tracks log0 stageEndValue).
Proof.
  revert t0 bytes last c.
  induction turns as [| turn rest IH]; intros t0 bytes last c Hafter Hsorted Hc.
  - intros s _. exact I.
  - simpl map in *. simpl uploadLoop.
    apply Forall_inv in Hafter.
    apply StronglySorted_inv in Hsorted. destruct Hsorted as [Hsorted Hnext].
    pose proof (reported_mono startTime t0 (headTime turn) Hafter) as Hmono.
    pose proof (reported_le_end startTime (headTime turn)) as Hend.
    assert (Hout : forall s, Tracks log0 c s -> Tracks log0 stageEndValue s).
    { intros s. apply Tracks_weaken. lia. }
    destruct (Qle_bool testDuration (headTime turn - startTime));
      [apply triple_ret, Hout |].
    destruct (post turn).
    + eapply triple_bind with (Q1 := Tracks log0 (reported startTime (headTime turn))).
      * apply report_or_skip_tracks; [reflexivity | lia].
      * intro last'. apply (IH (headTime turn)); [exact Hnext | exact Hsorted | lia].
      * intros s. apply Tracks_weaken, Hend.
    + apply (IH (headTime turn)); [exact Hnext | exact Hsorted | lia].
    + apply triple_throw, Hout.
Qed.

End ProgressLog.

Section StageProgress.

Variable log0 : list Z.
Variable env : Env.
Variables (overallStart overallEnd : Q).
Hypothesis window : overallStart <= overallEnd.

Let startValue : Z := overallProgress overallStart overallEnd 0.
Let endValue : Z := overallProgress overallStart overallEnd 100.

Lemma window_values : (startValue <= endValue)%Z.
Proof. apply overallProgress_mono; [exact window | discriminate]. Qed.

Lemma runPingTest_tracks (c : Z) :
  (c <= startValue)%Z ->
  Triple True (Tracks log0 c) (runPingTest env overallStart overallEnd)
         (Tracks log0 endValue).
Proof.
  intro Hc. unfold runPingTest.
  eapply triple_bind with (Q1 := Tracks log0 endValue); [| intro; tracks_frame | auto].
  apply pingLoop_tracks; [exact window | unfold numPings; lia |].
  etransitivity; [exact Hc |].
  apply overallProgress_mono; [exact window | discriminate].
Qed.

Lemma finish_stage_tracks (set : string -> UI.t -> UI.t) (shown : string) :
  (forall v s, UI.progressLog (set v s) = UI.progressLog s) ->
  Triple True (Tracks log0 endValue)
         (modify (set shown) ;;; updateOverallProgress overallStart overallEnd 100)
         (Tracks log0 endValue).
Proof.
  intro Hset.
  eapply triple_bind with (Q1 := Tracks log0 endValue); [| | auto].
  - apply triple_modify. intros s (u & Hlog & Hrest). exists u.
    rewrite Hset. split; assumption.
  - intros _. unfold updateOverallProgress. apply triple_modify.
    intros s. apply Tracks_push. apply Z.le_refl.
Qed.

Lemma runDownloadTest_tracks (c : Z) :
  nondecreasing (downloadClock (download env)) = true ->
  (c <= startValue)%Z ->
  Triple True (Tracks log0 c) (runDownloadTest env overallStart overallEnd)
         (Tracks log0 endValue).
Proof.
  intros Hclock Hc. unfold runDownloadTest. apply downloadCatch_triple.
  pose proof window_values as Hw.
  assert (Hout : forall s, Tracks log0 c s -> Tracks log0 endValue s).
  { intros s. apply Tracks_weaken. lia. }
  destruct (dlFetch (download env)) as [[|] | |];
    [| apply triple_throw, Hout | apply triple_throw, Hout | apply triple_throw, Hout].
  apply clock_after_start in Hclock. destruct Hclock as [Hafter Hsorted].
  eapply triple_bind with (Q1 := Tracks log0 endValue); [| | auto].
  - apply (downloadLoop_tracks log0 overallStart overallEnd window _ _
                               (dlStart (download env)));
      [exact Hafter | exact Hsorted |].
    etransitivity; [exact Hc |].
    apply overallProgress_mono; [exact window |].
    apply transferProgress_nonneg. lra.
  - intro bytes. apply finish_stage_tracks. reflexivity.
Qed.

Lemma runUploadTest_tracks (c : Z) :
  nondecreasing (uploadClock (upload env)) = true ->
  (c <= startValue)%Z ->
  Triple True (Tracks log0 c) (runUploadTest env overallStart overallEnd)
         (Tracks log0 endValue).
Proof.
  intros Hclock Hc. unfold runUploadTest.
  apply clock_after_start in Hclock. destruct Hclock as [Hafter Hsorted].
  eapply triple_bind with (Q1 := Tracks log0 endValue); [| | auto].
  - apply (uploadLoop_tracks log0 overallStart overallEnd window _
                             (ulStart (upload env)) (ulStart (upload env)));
      [exact Hafter | exact Hsorted |].
    etransitivity; [exact Hc |].
    apply overallProgress_mono; [exact window |].
    apply transferProgress_nonneg. lra.
  - intro bytes. apply finish_stage_tracks. reflexivity.
Qed.

End StageProgress.

Lemma tryBlock_tracks (log0 : list Z) (env : Env) :
  clockMonotone env = true ->
  Triple True (Tracks log0 0) (tryBlock env) (Tracks log0 100).
Proof.
  intro Hclock. apply andb_true_iff in Hclock. destruct Hclock as [Hdl Hul].
  assert (H0 : forall s, Tracks log0 0 s -> Tracks log0 100 s)
    by (intro s; apply Tracks_weaken; lia).
  assert (H10 : forall s, Tracks log0 10 s -> Tracks log0 100 s)
    by (intro s; apply Tracks_weaken; lia).
  assert (H60 : forall s, Tracks log0 60 s -> Tracks log0 100 s)
    by (intro s; apply Tracks_weaken; lia).
  unfold tryBlock, fetchIpAddress.
  do 4 (eapply triple_bind with (Q1 := Tracks log0 0); [tracks_frame | intro | exact H0]).
  eapply triple_bind with (Q1 := Tracks log0 10);
    [apply (runPingTest_tracks log0 env 0 pingProgressEnd);
       [discriminate | vm_compute; discriminate]
    | intro | exact H10].
  do 2 (eapply triple_bind with (Q1 := Tracks log0 10); [tracks_frame | intro | exact H10]).
  eapply triple_bind with (Q1 := Tracks log0 60);
    [apply (runDownloadTest_tracks log0 env pingProgressEnd downloadProgressEnd);
       [discriminate | exact Hdl | vm_compute; discriminate]
    | intro | exact H60].
  do 2 (eapply triple_bind with (Q1 := Tracks log0 60); [tracks_frame | intro | exact H60]).
  eapply triple_bind with (Q1 := Tracks log0 100);
    [apply (runUploadTest_tracks log0 env downloadProgressEnd uploadProgressEnd);
       [discriminate | exact Hul | vm_compute; discriminate]
    | intro | auto].
  eapply triple_bind with (Q1 := Tracks log0 100); [tracks_frame | intro | auto].
  tracks_frame.
Qed.

Lemma Rising_consecutive (updates : list Z) (k : nat) (newer older : Z) :
  Rising updates ->
  nth_error updates k = Some newer -> nth_error updates (S k) = Some older ->
  (older <= newer)%Z.
Proof.
  intro Hr. revert k. induction Hr as [| v u Hs IH Hhd]; intros k Hn Ho.
  - destruct k; discriminate.
  - destruct k as [| k].
    + simpl in Hn, Ho. injection Hn as <-.
      destruct Hhd as [| w u' Hw]; [discriminate |].
      simpl in Ho. injection Ho as <-. lia.
    + simpl in Hn. apply (IH k); assumption.
Qed.

(** The updates of a run that has returned. *)
Lemma startAllTests_progress (r : Render.t) (env : Env) (s s' : UI.t) :
  clockMonotone env = true ->
  startAllTests r env s = Done tt s' ->
  UI.progress s' = 100%Z /\
  exists earlier,
    UI.progressLog s' = ((100%Z :: earlier) ++ UI.progressLog s)%list /\
    Rising (100%Z :: earlier) /\
    Forall (fun v => (v <= 100)%Z) (100%Z :: earlier).
Proof.
  intros Hclock. unfold startAllTests. unfold bind at 1.
  change (resetDisplay s) with
    (Done tt (UI.setAbortControllerRef true (UI.setIsTesting true
       (UI.setTestState pinging (UI.setTestStatus "Starting..."
          (UI.setProgress 0 (UI.setIpAddress "-" (UI.setUploadSpeed "-"
             (UI.setDownloadSpeed "-" (UI.setPing "-" s)))))))))).
  cbv iota beta.
  set (s1 := UI.setAbortControllerRef true _).
  assert (Hs1 : Tracks (UI.progressLog s) 0 s1).
  { exists [0%Z]. split; [reflexivity |].
    split; [repeat constructor | constructor; [lia | constructor]]. }
  pose proof (tryBlock_tracks (UI.progressLog s) env Hclock s1 Hs1) as Htry.
  unfold tryCatchFinally.
  assert (Hfinal : forall s2, Tracks (UI.progressLog s) 100 s2 ->
            forall s3, finallyBlock r env s2 = Done tt s3 ->
            UI.progress s3 = 100%Z /\
            exists earlier,
              UI.progressLog s3 = ((100%Z :: earlier) ++ UI.progressLog s)%list /\
              Rising (100%Z :: earlier) /\
              Forall (fun v => (v <= 100)%Z) (100%Z :: earlier)).
  { intros s2 (u & Hlog & Hr & Hall) s3 Hs3.
    injection Hs3 as <-. split; [reflexivity |].
    exists u. simpl. rewrite Hlog. split; [reflexivity |].
    split; [eapply Rising_push; [exact Hr | exact Hall | lia] |].
    constructor; [lia | exact Hall]. }
  destruct (tryBlock env s1) as [[] s2 | e s2 |].
  - intro Hrun. apply (Hfinal s2 Htry s' Hrun).
  - destruct (catchBlock_done r e s2) as (s3 & -> & _ & Hlog3).
    intro Hrun. apply (Hfinal s3); [| exact Hrun].
    destruct Htry as (u & Hlog & Hrest). exists u.
    rewrite Hlog3. split; assumption.
  - discriminate.
Qed.

(** C4.  With a clock that never runs backwards, a run that has
    finished has returned, every progress update it made is at least
    the update before it, none exceeds 100, and the last one, made in
    the [finally] block whatever the outcome, sets the progress to
    exactly 100. *)
Theorem progress_never_decreases (r : Render.t) (env : Env) (s : UI.t) :
  clockMonotone env = true ->
  (uploadSettles (ulStart (upload env)) (ulTurns (upload env)) = true ->
   startAllTests r env s <> Pending) /\
  (startAllTests r env s <> Pending ->
   exists s' updates,
     startAllTests r env s = Done tt s' /\
     UI.progressLog s' = (updates ++ UI.progressLog s)%list /\
     (forall k newer older,
         nth_error updates k = Some newer ->
         nth_error updates (S k) = Some older ->
         (older <= newer)%Z) /\
     Forall (fun v => (v <= 100)%Z) updates /\
     hd_error updates = Some 100%Z /\
     UI.progress s' = 100%Z).
Proof.
  intro Hclock.
  pose proof (startAllTests_outcome r env s) as Hout.
  pose proof (startAllTests_progress r env s) as Hprog.
  destruct (startAllTests r env s) as [[] s' | e s' |].
  - split; [discriminate | intros _].
    destruct (Hprog s' Hclock eq_refl) as (Hp & earlier & Hlog & Hr & Hall).
    exists s', (100%Z :: earlier).
    split; [reflexivity |]. split; [exact Hlog |].
    split; [intros k newer older; apply Rising_consecutive, Hr |].
    split; [exact Hall |]. split; [reflexivity | exact Hp].
  - contradiction.
  - split; [congruence | intro Hne; congruence].
Qed.

Lemma progress_never_decreases_witness :
  clockMonotone cancelledInDownload = true /\
  exists s' updates,
    startAllTests (Render.capture UI.initial) cancelledInDownload UI.initial
    = Done tt s' /\
    UI.progressLog s' = updates /\
    hd_error updates = Some 100%Z /\
    UI.progress s' = 100%Z.
Proof.
  split; [reflexivity |].
  destruct (progress_never_decreases (Render.capture UI.initial)
              cancelledInDownload UI.initial eq_refl) as [_ Hrun].
  destruct Hrun as (s' & updates & Hs' & Hlog & _ & _ & Hhd & Hp).
  - vm_compute. discriminate.
  - exists s', updates. rewrite Hlog, app_nil_r.
    split; [exact Hs' |]. split; [reflexivity |]. split; assumption.
Defined.


(** * Further properties of the code *)

(** ** The progress window *)

Lemma overallProgress_at_start (a b : Q) : overallProgress a b 0 = Js.round a.
Proof.
  unfold overallProgress, Js.round. apply Qfloor_comp. field.
Qed.

Lemma overallProgress_at_end (a b : Q) : overallProgress a b 100 = Js.round b.
Proof.
  unfold overallProgress, Js.round. apply Qfloor_comp. field.
Qed.

(** X2.  [updateOverallProgress] maps a stage progress of 0 to the start
    of the stage's window and 100 to its end, and every stage progress
    between 0 and 100 to a value inside the window, never decreasing
    with the stage progress. *)
Theorem overallProgress_window (stageStart stageEnd : Z) (p q : Q) :
  (stageStart <= stageEnd)%Z -> 0 <= p -> p <= q -> q <= 100 ->
  overallProgress (inject_Z stageStart) (inject_Z stageEnd) 0 = stageStart /\
  overallProgress (inject_Z stageStart) (inject_Z stageEnd) 100 = stageEnd /\
  (stageStart <= overallProgress (inject_Z stageStart) (inject_Z stageEnd) p)%Z /\
  (overallProgress (inject_Z stageStart) (inject_Z stageEnd) p
   <= overallProgress (inject_Z stageStart) (inject_Z stageEnd) q)%Z /\
  (overallProgress (inject_Z stageStart) (inject_Z stageEnd) q <= stageEnd)%Z.
Proof.
  intros Hw Hp Hpq Hq.
  assert (Hwq : inject_Z stageStart <= inject_Z stageEnd) by (rewrite <- Zle_Qle; exact Hw).
  assert (H0 : overallProgress (inject_Z stageStart) (inject_Z stageEnd) 0 = stageStart)
    by (rewrite overallProgress_at_start; apply round_integer).
  assert (H100 : overallProgress (inject_Z stageStart) (inject_Z stageEnd) 100 = stageEnd)
    by (rewrite overallProgress_at_end; apply round_integer).
  split; [exact H0 |]. split; [exact H100 |].
  split; [| split].
  - rewrite <- H0 at 1. apply overallProgress_mono; assumption.
  - apply overallProgress_mono; assumption.
  - rewrite <- H100 at 2. apply overallProgress_mono; assumption.
Qed.

Lemma overallProgress_window_witness :
  (10 <= overallProgress 10 60 (37 # 1))%Z /\
  (overallProgress 10 60 (37 # 1) <= overallProgress 10 60 (912 # 10))%Z /\
  (overallProgress 10 60 (912 # 10) <= 60)%Z.
Proof.
  destruct (overallProgress_window 10 60 (37 # 1) (912 # 10))
    as (_ & _ & Hlo & Hmid & Hhi); try discriminate.
  split; [exact Hlo |]. split; [exact Hmid | exact Hhi].
Defined.

(** ** The aggregation does not depend on the order of collection *)

Lemma sameValues_refl (l : list Q) : sameValues l l.
Proof. induction l; constructor; [reflexivity | assumption]. Qed.

Lemma sameValues_trans (l1 l2 l3 : list Q) :
  sameValues l1 l2 -> sameValues l2 l3 -> sameValues l1 l3.
Proof.
  intro H. revert l3. induction H as [| x y l l' Hxy Hl IH]; intros l3 H23.
  - exact H23.
  - inversion H23 as [| y' z l2' l3' Hyz Hl3]; subst.
    constructor; [rewrite Hxy; exact Hyz | apply IH, Hl3].
Qed.

Lemma insertAsc_same (x x' : Q) (l l' : list Q) :
  x == x' -> sameValues l l' -> sameValues (insertAsc x l) (insertAsc x' l').
Proof.
  intros Hx H. induction H as [| y y' l l' Hy Hl IH]; simpl.
  - repeat constructor. exact Hx.
  - rewrite (Qleb_comp x x' Hx y y' Hy).
    destruct (Qle_bool x' y').
    + constructor; [exact Hx |]. constructor; assumption.
    + constructor; assumption.
Qed.

(** Inserting two values in either order gives the same values. *)
Lemma insertAsc_swap (x y : Q) (l : list Q) :
  sameValues (insertAsc x (insertAsc y l)) (insertAsc y (insertAsc x l)).
Proof.
  induction l as [| z l IH]; simpl.
  - destruct (Qle_bool x y) eqn:Exy, (Qle_bool y x) eqn:Eyx.
    + apply Qle_bool_iff in Exy, Eyx.
      assert (x == y) by lra.
      repeat constructor; [assumption | symmetry; assumption].
    + apply sameValues_refl.
    + apply sameValues_refl.
    + exfalso.
      assert (y < x) by (apply ltb_lt; unfold Js.ltb; rewrite Exy; reflexivity).
      assert (x < y) by (apply ltb_lt; unfold Js.ltb; rewrite Eyx; reflexivity).
      lra.
  - destruct (Qle_bool y z) eqn:Eyz, (Qle_bool x z) eqn:Exz; simpl;
      rewrite ?Eyz, ?Exz.
    + destruct (Qle_bool x y) eqn:Exy, (Qle_bool y x) eqn:Eyx.
      * apply Qle_bool_iff in Exy, Eyx.
        assert (x == y) by lra.
        constructor; [assumption |]. constructor; [symmetry; assumption |].
        apply sameValues_refl.
      * apply sameValues_refl.
      * apply sameValues_refl.
      * exfalso.
        assert (y < x) by (apply ltb_lt; unfold Js.ltb; rewrite Exy; reflexivity).
        assert (x < y) by (apply ltb_lt; unfold Js.ltb; rewrite Eyx; reflexivity).
        lra.
    + assert (Hxy : Qle_bool x y = false).
      { destruct (Qle_bool x y) eqn:E; [| reflexivity].
        apply Qle_bool_iff in E, Eyz.
        assert (x <= z) by lra.
        apply Qle_bool_iff in H. congruence. }
      rewrite Hxy. apply sameValues_refl.
    + assert (Hyx : Qle_bool y x = false).
      { destruct (Qle_bool y x) eqn:E; [| reflexivity].
        apply Qle_bool_iff in E, Exz.
        assert (y <= z) by lra.
        apply Qle_bool_iff in H. congruence. }
      rewrite Hyx. apply sameValues_refl.
    + constructor; [reflexivity | exact IH].
Qed.

Lemma sortAsc_same (l l' : list Q) :
  Permutation l l' -> sameValues (sortAsc l) (sortAsc l').
Proof.
  induction 1 as [| x l l' Hp IH | x y l | l1 l2 l3 H12 IH12 H23 IH23]; simpl.
  - constructor.
  - apply insertAsc_same; [reflexivity | exact IH].
  - apply insertAsc_swap.
  - eapply sameValues_trans; eassumption.
Qed.

Lemma sameValues_length (l l' : list Q) :
  sameValues l l' -> List.length l = List.length l'.
Proof. induction 1; simpl; congruence. Qed.

Lemma sameValues_nth (l l' : list Q) (n : nat) :
  sameValues l l' ->
  match nth_error l n, nth_error l' n with
  | Some x, Some x' => x == x'
  | None, None => True
  | _, _ => False
  end.
Proof.
  intro H. revert n. induction H as [| x y l l' Hxy Hl IH]; intros [| n]; simpl; auto.
  apply IH.
Qed.

Lemma min_same (a b b' : Q) : b == b' -> Js.min a b == Js.min a b'.
Proof.
  intro H. unfold Js.min. rewrite (Qleb_comp a a (Qeq_refl a) b b' H).
  destruct (Qle_bool a b'); [reflexivity | exact H].
Qed.

Lemma ltb_same (a a' b b' : Q) : a == a' -> b == b' -> Js.ltb a b = Js.ltb a' b'.
Proof.
  intros Ha Hb. unfold Js.ltb. rewrite (Qleb_comp b b' Hb a a' Ha). reflexivity.
Qed.

Lemma cleanedOf_same (l l' : list Q) (m m' : Q) :
  sameValues l l' -> m == m' -> sameValues (cleanedOf l m) (cleanedOf l' m').
Proof.
  intros H Hm. unfold cleanedOf, trimThreshold.
  induction H as [| x y l l' Hxy Hl IH]; simpl.
  - constructor.
  - rewrite (ltb_same x y (Js.min 300 (m * 3)) (Js.min 300 (m' * 3)) Hxy)
      by (apply min_same; rewrite Hm; reflexivity).
    destruct (Js.ltb y (Js.min 300 (m' * 3))); [constructor |]; assumption.
Qed.

Lemma sumOf_same (l l' : list Q) : sameValues l l' -> sumOf l == sumOf l'.
Proof.
  induction 1 as [| x y l l' Hxy Hl IH].
  - reflexivity.
  - rewrite !sumOf_cons, Hxy, IH. reflexivity.
Qed.

Lemma toFixedQ_same (f : nat) (x y : Q) : x == y -> Js.toFixedQ f x = Js.toFixedQ f y.
Proof.
  intro H. unfold Js.toFixedQ, Js.scaled.
  rewrite (ltb_same x y 0 0 H (Qeq_refl 0)).
  assert (Hs : Qfloor (Qabs x * inject_Z (10 ^ Z.of_nat f) + (1 # 2))
               = Qfloor (Qabs y * inject_Z (10 ^ Z.of_nat f) + (1 # 2))).
  { apply Qfloor_comp. rewrite H. reflexivity. }
  rewrite Hs. reflexivity.
Qed.

(** X1.  The latency shown depends on the collected values only, not on
    the order in which the probes delivered them: two collections that
    are permutations of each other give the same average (or both
    none) and the same display. *)
Theorem aggregation_ignores_order (pingTimes pingTimes' : list Q) :
  Permutation pingTimes pingTimes' ->
  match averagePing pingTimes, averagePing pingTimes' with
  | Some a, Some a' => a == a'
  | None, None => True
  | _, _ => False
  end /\
  pingDisplay pingTimes = pingDisplay pingTimes'.
Proof.
  intro Hperm.
  assert (Hav : match averagePing pingTimes, averagePing pingTimes' with
                | Some a, Some a' => a == a'
                | None, None => True
                | _, _ => False
                end).
  { pose proof (sortAsc_same _ _ Hperm) as Hsorted.
    pose proof (sameValues_length _ _ Hsorted) as Hlen.
    destruct pingTimes as [| x l], pingTimes' as [| x' l'];
      try (apply Permutation_length in Hperm; discriminate Hperm);
      [exact I |].
    unfold averagePing, medianOf. rewrite <- Hlen.
    pose proof (sameValues_nth _ _ (Nat.div (List.length (sortAsc (x :: l))) 2) Hsorted)
      as Hmed.
    destruct (nth_error (sortAsc (x :: l)) _) as [m |],
             (nth_error (sortAsc (x' :: l')) _) as [m' |];
      try contradiction; [| exact I].
    pose proof (cleanedOf_same _ _ m m' Hsorted Hmed) as Hcl.
    destruct Hcl as [| y y' c c' Hy Hc]; [exact I |].
    assert (Hcl : sameValues (y :: c) (y' :: c')) by (constructor; assumption).
    rewrite (sumOf_same _ _ Hcl). unfold lengthQ.
    rewrite (sameValues_length _ _ Hcl). reflexivity. }
  split; [exact Hav |].
  unfold pingDisplay.
  destruct (averagePing pingTimes), (averagePing pingTimes'); try contradiction.
  - apply toFixedQ_same, Hav.
  - reflexivity.
Qed.

Lemma aggregation_ignores_order_witness :
  pingDisplay [40; 1000; 20; 60] = pingDisplay [1000; 60; 40; 20].
Proof.
  apply (aggregation_ignores_order [40; 1000; 20; 60] [1000; 60; 40; 20]).
  apply perm_trans with (1000 :: 40 :: 20 :: 60 :: nil).
  - apply perm_swap.
  - apply perm_skip.
    apply perm_trans with (40 :: 60 :: 20 :: nil).
    + apply perm_skip, perm_swap.
    + apply perm_trans with (60 :: 40 :: 20 :: nil);
        [apply perm_swap | apply Permutation_refl].
Defined.

(** ** Outcomes of computations *)

Section EndsRules.

Context {W : Prop}.

Lemma ends_ret {A : Type} (P : UI.t -> Prop) (Qd : A -> UI.t -> Prop)
      (Qt : exn -> UI.t -> Prop) (a : A) :
  (forall s, P s -> Qd a s) -> Ends W P (ret a) Qd Qt.
Proof. intros H s Hs. apply H, Hs. Qed.

Lemma ends_throw {A : Type} (P : UI.t -> Prop) (Qd : A -> UI.t -> Prop)
      (Qt : exn -> UI.t -> Prop) (e : exn) :
  (forall s, P s -> Qt e s) -> Ends W P (@throw A e) Qd Qt.
Proof. intros H s Hs. apply H, Hs. Qed.

Lemma ends_modify (P : UI.t -> Prop) (Qd : unit -> UI.t -> Prop)
      (Qt : exn -> UI.t -> Prop) (f : UI.t -> UI.t) :
  (forall s, P s -> Qd tt (f s)) -> Ends W P (modify f) Qd Qt.
Proof. intros H s Hs. apply H, Hs. Qed.

Lemma ends_bind {A B : Type} (P : UI.t -> Prop) (Q1 : A -> UI.t -> Prop)
      (Q2 : B -> UI.t -> Prop) (Qt : exn -> UI.t -> Prop) (m : M A) (k : A -> M B) :
  Ends W P m Q1 Qt -> (forall a, Ends W (Q1 a) (k a) Q2 Qt) ->
  Ends W P (bind m k) Q2 Qt.
Proof.
  intros Hm Hk s Hs. unfold bind. specialize (Hm s Hs).
  destruct (m s) as [a s1 | e s1 |]; [apply Hk, Hm | exact Hm | exact Hm].
Qed.

Lemma ends_weaken {A : Type} (P P' : UI.t -> Prop) (Qd Qd' : A -> UI.t -> Prop)
      (Qt Qt' : exn -> UI.t -> Prop) (m : M A) :
  Ends W P m Qd Qt ->
  (forall s, P' s -> P s) -> (forall a s, Qd a s -> Qd' a s) ->
  (forall e s, Qt e s -> Qt' e s) ->
  Ends W P' m Qd' Qt'.
Proof.
  intros Hm Hp Hd Ht s Hs. specialize (Hm s (Hp s Hs)).
  destruct (m s); auto.
Qed.

End EndsRules.

Lemma ends_never_waits {A : Type} (W : Prop) (P : UI.t -> Prop) (m : M A)
      (Qd : A -> UI.t -> Prop) (Qt : exn -> UI.t -> Prop) :
  Ends False P m Qd Qt -> Ends W P m Qd Qt.
Proof.
  intros Hm s Hs. specialize (Hm s Hs). destruct (m s); tauto.
Qed.

Lemma downloadCatch_ends (W : Prop) (P : UI.t -> Prop) (Qd : unit -> UI.t -> Prop)
      (I : UI.t -> Prop) (body : M unit) :
  Ends W P body Qd (fun _ s => I s) ->
  Ends W P (downloadCatch body) Qd
       (fun e s => (e = AbortError \/ e = Error "Download test failed") /\ I s).
Proof.
  intros Hb s Hs. specialize (Hb s Hs). unfold downloadCatch.
  destruct (body s) as [a s1 | [| message] s1 |]; auto.
Qed.

(** ** What the stages leave alone *)

(** A property of the state that no progress update and no live-speed
    update disturbs survives the latency stage if setting the latency
    keeps it, the download stage if setting the download speed keeps
    it, and the upload stage if setting the upload speed keeps it. *)
Section Frame.

Variable I : UI.t -> Prop.
Hypothesis keeps_progress : forall v s, I s -> I (UI.setProgress v s).
Hypothesis keeps_live : forall v s, I s -> I (UI.setCurrentSpeedDisplay v s).
Hypothesis keeps_ping : forall v s, I s -> I (UI.setPing v s).
Hypothesis keeps_download : forall v s, I s -> I (UI.setDownloadSpeed v s).
Hypothesis keeps_upload : forall v s, I s -> I (UI.setUploadSpeed v s).

Variables (overallStart overallEnd : Q).

Let kept {A : Type} : A -> UI.t -> Prop := fun _ s => I s.
Let abortedKept : exn -> UI.t -> Prop := fun e s => e = AbortError /\ I s.

Lemma probeLatency_ends (p : Probe) :
  Ends False I (probeLatency p) kept abortedKept.
Proof.
  unfold probeLatency, performSinglePing, kept, abortedKept.
  destruct (socketOpen p), (socket p), (head p);
    first [apply ends_ret; auto | apply ends_throw; auto].
Qed.

Lemma pingLoop_ends (ps : nat -> Probe) (k i : nat) (pingTimes : list Q) :
  Ends False I (pingLoop overallStart overallEnd ps k i pingTimes) kept abortedKept.
Proof.
  revert i pingTimes. induction k as [| k IH]; intros i pingTimes; simpl.
  - apply ends_ret. auto.
  - eapply ends_bind; [apply probeLatency_ends | intro latency].
    eapply ends_bind with (Q1 := kept); [| intros ?; apply IH].
    unfold updateOverallProgress. apply ends_modify. intros s. apply keeps_progress.
Qed.

Lemma runPingTest_ends (env : Env) :
  Ends False I (runPingTest env overallStart overallEnd) kept abortedKept.
Proof.
  unfold runPingTest.
  eapply ends_bind; [apply pingLoop_ends | intro pingTimes].
  apply ends_modify. intros s. apply keeps_ping.
Qed.

Lemma reportSpeed_ends (set : string -> UI.t -> UI.t) (bytes : N) (elapsed : Q)
      (Qt : exn -> UI.t -> Prop) :
  (forall v s, I s -> I (set v s)) ->
  Ends False I (reportSpeed set overallStart overallEnd bytes elapsed) kept Qt.
Proof.
  intros Hset s Hs. rewrite reportSpeed_done.
  apply keeps_progress, keeps_live, Hset, Hs.
Qed.

Lemma downloadLoop_ends (reads : list ReadOutcome) (startTime : Q)
      (bytes : N) (last : Q) :
  Ends False I (downloadLoop overallStart overallEnd reads startTime bytes last)
       kept (fun _ s => I s).
Proof.
  revert bytes last. induction reads as [| [len t | |] rest IH]; intros bytes last;
    simpl;
    [apply ends_ret; auto | | apply ends_throw; auto | apply ends_throw; auto].
  eapply ends_bind with (Q1 := kept).
  - destruct (Js.ltb 200 (t - last)); [| apply ends_ret; auto].
    eapply ends_bind with (Q1 := kept);
      [apply reportSpeed_ends, keeps_download | intros ?; apply ends_ret; auto].
  - intro last'. destruct (Qle_bool testDuration (t - startTime));
      [apply ends_ret; auto | apply IH].
Qed.

Lemma runDownloadTest_ends (env : Env) :
  Ends False I (runDownloadTest env overallStart overallEnd) kept
       (fun e s => (e = AbortError \/ e = Error "Download test failed") /\ I s).
Proof.
  unfold runDownloadTest. apply downloadCatch_ends.
  destruct (dlFetch (download env)) as [[|] | |];
    [| apply ends_throw; auto | apply ends_throw; auto | apply ends_throw; auto].
  eapply ends_bind with (Q1 := kept); [apply downloadLoop_ends | intro bytes].
  eapply ends_bind with (Q1 := kept).
  - apply ends_modify. intros s. apply keeps_download.
  - intros ?. unfold updateOverallProgress. apply ends_modify.
    intros s. apply keeps_progress.
Qed.

Lemma uploadLoop_ends (turns : list UploadTurn) (startTime : Q)
      (bytes : N) (last : Q) :
  Ends (uploadSettles startTime turns = false) I
       (uploadLoop overallStart overallEnd turns startTime bytes last)
       kept abortedKept.
Proof.
  revert bytes last. induction turns as [| turn rest IH]; intros bytes last; simpl.
  - intros s _. reflexivity.
  - unfold timeIsUp, isAborted.
    destruct (Qle_bool testDuration (headTime turn - startTime));
      [apply ends_ret; auto |].
    destruct (post turn); simpl.
    + eapply ends_bind with (Q1 := kept).
      * destruct (Js.ltb 200 (headTime turn - last)); [| apply ends_ret; auto].
        eapply ends_bind with (Q1 := kept);
          [| intros ?; apply ends_ret; auto].
        apply ends_never_waits, reportSpeed_ends, keeps_upload.
      * intro last'. apply IH.
    + apply IH.
    + apply ends_throw. unfold abortedKept. auto.
Qed.

Lemma runUploadTest_ends (env : Env) :
  Ends (uploadSettles (ulStart (upload env)) (ulTurns (upload env)) = false) I
       (runUploadTest env overallStart overallEnd) kept abortedKept.
Proof.
  unfold runUploadTest.
  eapply ends_bind with (Q1 := kept); [apply uploadLoop_ends | intro bytes].
  eapply ends_bind with (Q1 := kept).
  - apply ends_modify. intros s. apply keeps_upload.
  - intros ?. unfold updateOverallProgress. apply ends_modify.
    intros s. apply keeps_progress.
Qed.

End Frame.

(** ** The download stage, read by read *)

Lemma report_or_skip_done (set : string -> UI.t -> UI.t) (a b : Q) (bytes : N)
      (elapsed t last : Q) (s : UI.t) :
  exists s',
    (if Js.ltb 200 (t - last)
     then reportSpeed set a b bytes elapsed ;;; ret t
     else ret last) s
    = Done (if Js.ltb 200 (t - last) then t else last) s'.
Proof.
  destruct (Js.ltb 200 (t - last)).
  - unfold bind. rewrite reportSpeed_done. eexists. reflexivity.
  - eexists. reflexivity.
Qed.

Section DownloadReads.

Variables (overallStart overallEnd startTime : Q).

(** Nothing after the read at which the loop stops is looked at. *)
Lemma downloadLoop_cutoff (reads : list ReadOutcome) (bytes : N) (last : Q) (s : UI.t) :
  downloadLoop overallStart overallEnd reads startTime bytes last s
  = downloadLoop overallStart overallEnd (readsPerformed startTime reads)
                 startTime bytes last s.
Proof.
  revert bytes last s.
  induction reads as [| [len t | |] rest IH]; intros bytes last s;
    [reflexivity | | reflexivity | reflexivity].
  simpl readsPerformed.
  destruct (Qle_bool testDuration (t - startTime)) eqn:E; simpl downloadLoop.
  - unfold bind at 1 3.
    destruct (report_or_skip_done UI.setDownloadSpeed overallStart overallEnd
                (bytes + len) (t - startTime) t last s) as (s1 & ->).
    rewrite E. reflexivity.
  - unfold bind at 1 3.
    destruct (report_or_skip_done UI.setDownloadSpeed overallStart overallEnd
                (bytes + len) (t - startTime) t last s) as (s1 & ->).
    rewrite E. apply IH.
Qed.

Lemma downloadLoop_result (reads : list ReadOutcome) (bytes : N) (last : Q) (s : UI.t) :
  exists s',
    downloadLoop overallStart overallEnd reads startTime bytes last s
    = match readFailure startTime reads with
      | None => Done (bytes + bytesRead startTime reads)%N s'
      | Some e => Throw e s'
      end.
Proof.
  revert bytes last s.
  induction reads as [| [len t | |] rest IH]; intros bytes last s.
  - exists s. simpl. unfold ret, bytesRead. simpl. f_equal. lia.
  - simpl downloadLoop. simpl readFailure. unfold bytesRead. simpl readsPerformed.
    unfold bind at 1.
    destruct (report_or_skip_done UI.setDownloadSpeed overallStart overallEnd
                (bytes + len) (t - startTime) t last s) as (s1 & ->).
    destruct (Qle_bool testDuration (t - startTime)).
    + exists s1. unfold ret. simpl. f_equal. lia.
    + destruct (IH (bytes + len)%N (if Js.ltb 200 (t - last) then t else last) s1)
        as (s' & Hs').
      exists s'. rewrite Hs'. unfold bytesRead. simpl chunkBytes.
      destruct (readFailure startTime rest); [reflexivity |]. f_equal. lia.
  - exists s. reflexivity.
  - exists s. reflexivity.
Qed.

End DownloadReads.

Lemma runDownloadTest_result (env : Env) (a b : Q) (s : UI.t) :
  exists s',
    runDownloadTest env a b s
    = match downloadVerdict (download env) with
      | None => Done tt s'
      | Some e => Throw e s'
      end /\
    (downloadVerdict (download env) = None ->
     UI.downloadSpeed s'
     = Js.toFixed 2 (speedMbps (bytesRead (dlStart (download env))
                                          (dlReads (download env)))
                               (dlFinal (download env) - dlStart (download env)))).
Proof.
  unfold runDownloadTest, downloadCatch, downloadVerdict.
  destruct (dlFetch (download env)) as [[|] | |];
    try (exists s; split; [reflexivity | discriminate]).
  unfold bind at 1.
  destruct (downloadLoop_result a b (dlStart (download env)) (dlReads (download env))
                                0%N (dlBefore (download env)) s) as (s1 & ->).
  destruct (readFailure (dlStart (download env)) (dlReads (download env)))
    as [[| message] |].
  - exists s1. split; [reflexivity | discriminate].
  - exists s1. split; [reflexivity | discriminate].
  - eexists. split; [reflexivity |]. intros _. reflexivity.
Qed.

(** X4.  The download loop looks at nothing after the read at which it
    stops (the first chunk read once 10,000 ms have elapsed, or the
    first read that rejects).  The stage then either returns, showing
    the rate of the bytes of all chunks up to and including that one
    over the final elapsed time, or leaves with the abort, or with the
    single error "Download test failed" for every other failure
    (rejected request, HTTP error status, rejected read). *)
Theorem download_reads_until_cutoff (env : Env) (overallStart overallEnd : Q) (s : UI.t) :
  let d := download env in
  (forall bytes last s0,
      downloadLoop overallStart overallEnd (dlReads d) (dlStart d) bytes last s0
      = downloadLoop overallStart overallEnd
                     (readsPerformed (dlStart d) (dlReads d))
                     (dlStart d) bytes last s0) /\
  exists s',
    runDownloadTest env overallStart overallEnd s
    = match downloadVerdict d with
      | None => Done tt s'
      | Some e => Throw e s'
      end /\
    (downloadVerdict d = None ->
     UI.downloadSpeed s'
     = Js.toFixed 2 (speedMbps (chunkBytes (readsPerformed (dlStart d) (dlReads d)))
                               (dlFinal d - dlStart d))) /\
    (downloadVerdict d = None \/ downloadVerdict d = Some AbortError \/
     downloadVerdict d = Some (Error "Download test failed")).
Proof.
  intro d. split.
  - intros. apply downloadLoop_cutoff.
  - destruct (runDownloadTest_result env overallStart overallEnd s) as (s' & Hrun & Hshown).
    exists s'. split; [exact Hrun |]. split; [exact Hshown |].
    subst d. unfold downloadVerdict.
    destruct (dlFetch (download env)) as [[|] | |]; auto.
    destruct (readFailure _ _) as [[|] |]; auto.
Qed.

Example download_past_cutoff :
  exists s',
    runDownloadTest
      (withProbes (probes fullRun)
         {| ipLookup := None; probes := probes fullRun;
            download := {| dlBefore := 0; dlFetch := Responded true; dlStart := 0;
                           dlReads := [Chunk 1000000 4000; Chunk 2000000 10000;
                                       Chunk 5000000 10500; ReadRejected];
                           dlFinal := 10000 |};
            upload := noUpload; dateNow := 0; localeString := "" |})
      10 60 UI.initial = Done tt s' /\
    UI.downloadSpeed s' = Js.toFixed 2 (speedMbps 3000000 10000).
Proof. eexists. split; vm_compute; reflexivity. Qed.

(** ** The latency and upload stages, turn by turn *)

Lemma probeLatency_verdict (p : Probe) (s : UI.t) :
  probeLatency p s
  = match probeVerdict p with
    | Some latency => Done latency s
    | None => Throw AbortError s
    end.
Proof.
  unfold probeLatency, probeVerdict, performSinglePing, headVerdict.
  destruct (socketOpen p), (socket p), (head p); reflexivity.
Qed.

Lemma pingLoop_verdict (a b : Q) (ps : nat -> Probe) (k i : nat)
      (pingTimes : list Q) (s : UI.t) :
  exists s',
    pingLoop a b ps k i pingTimes s
    = match collectedFrom ps k i with
      | Some l => Done (pingTimes ++ l) s'
      | None => Throw AbortError s'
      end.
Proof.
  revert i pingTimes s. induction k as [| k IH]; intros i pingTimes s.
  - exists s. simpl. rewrite app_nil_r. reflexivity.
  - simpl pingLoop. simpl collectedFrom. unfold bind at 1.
    rewrite probeLatency_verdict.
    destruct (probeVerdict (ps i)) as [latency |]; [| exists s; reflexivity].
    unfold bind at 1. unfold updateOverallProgress at 1, modify at 1.
    destruct (IH (S i) (recordProbe i latency pingTimes)
                 (UI.setProgress
                    (overallProgress a b (natQ (i + 1) / natQ numPings * 100)) s))
      as (s' & ->).
    exists s'. destruct (collectedFrom ps k (S i)) as [rest |]; [| reflexivity].
    rewrite recordProbe_app, <- app_assoc. reflexivity.
Qed.

Lemma runPingTest_result (env : Env) (a b : Q) (s : UI.t) :
  exists s',
    runPingTest env a b s
    = match collectedFrom (probes env) numPings 0 with
      | Some l => Done tt s'
      | None => Throw AbortError s'
      end /\
    (forall l, collectedFrom (probes env) numPings 0 = Some l ->
               UI.ping s' = pingDisplay l).
Proof.
  unfold runPingTest. unfold bind at 1.
  destruct (pingLoop_verdict a b (probes env) numPings 0 [] s) as (s1 & ->).
  destruct (collectedFrom (probes env) numPings 0) as [l |].
  - eexists. split; [reflexivity |]. intros l' Hl'. injection Hl' as <-. reflexivity.
  - exists s1. split; [reflexivity | discriminate].
Qed.

Lemma uploadLoop_verdict (a b startTime : Q) (turns : list UploadTurn)
      (bytes : N) (last : Q) (s : UI.t) :
  uploadSettles startTime turns = true ->
  exists s',
    uploadLoop a b turns startTime bytes last s
    = if uploadAborted startTime turns
      then Throw AbortError s'
      else Done (bytes + acceptedBytes (turnsBeforeDeadline startTime turns))%N s'.
Proof.
  revert bytes last s.
  induction turns as [| turn rest IH]; intros bytes last s Hsettles;
    [discriminate Hsettles |].
  cbn [uploadSettles] in Hsettles.
  unfold uploadAborted. cbn [turnsBeforeDeadline uploadLoop].
  fold (timeIsUp startTime turn).
  destruct (timeIsUp startTime turn) eqn:Ht.
  - exists s. cbn [existsb]. unfold ret. f_equal.
    change (acceptedBytes []) with 0%N. lia.
  - cbn [existsb] in *. rewrite acceptedBytes_cons.
    fold (uploadAborted startTime rest).
    assert (Ha : isAborted turn = match post turn with PostAborted => true | _ => false end)
      by reflexivity.
    assert (Hr : isResolved turn = match post turn with PostResolved => true | _ => false end)
      by reflexivity.
    rewrite Ha, Hr. rewrite Ha in Hsettles.
    destruct (post turn) eqn:Hp; cbn [orb] in *.
    + unfold bind at 1.
      destruct (report_or_skip_done UI.setUploadSpeed a b (bytes + chunkSize)
                  (headTime turn - startTime) (headTime turn) last s) as (s1 & ->).
      destruct (IH (bytes + chunkSize)%N
                   (if Js.ltb 200 (headTime turn - last) then headTime turn else last)
                   s1 Hsettles) as (s' & ->).
      exists s'.
      destruct (uploadAborted startTime rest); [reflexivity |]. f_equal. lia.
    + destruct (IH bytes last s Hsettles) as (s' & ->).
      exists s'.
      destruct (uploadAborted startTime rest); [reflexivity |]. f_equal.
    + exists s. reflexivity.
Qed.

Lemma runUploadTest_result (env : Env) (a b : Q) (s : UI.t) :
  let u := upload env in
  uploadSettles (ulStart u) (ulTurns u) = true ->
  exists s',
    runUploadTest env a b s
    = (if uploadAborted (ulStart u) (ulTurns u)
       then Throw AbortError s' else Done tt s') /\
    (uploadAborted (ulStart u) (ulTurns u) = false ->
     UI.uploadSpeed s'
     = Js.toFixed 2 (speedMbps (acceptedBytes (turnsBeforeDeadline (ulStart u) (ulTurns u)))
                               (ulFinal u - ulStart u))).
Proof.
  intros u Hsettles. unfold runUploadTest. fold u. unfold bind at 1.
  destruct (uploadLoop_verdict a b (ulStart u) (ulTurns u) 0%N (ulBefore u) s Hsettles)
    as (s1 & ->).
  destruct (uploadAborted (ulStart u) (ulTurns u)).
  - exists s1. split; [reflexivity | discriminate].
  - eexists. split; [reflexivity |]. intros _. reflexivity.
Qed.

(** ** What each stage leaves alone *)

Ltac session_frame :=
  unfold sameSession; intros; simpl; intuition.

Lemma runPingTest_keeps (env : Env) (a b : Q) (s : UI.t) :
  match runPingTest env a b s with
  | Done _ s' =>
      sameSession s s' /\
      UI.downloadSpeed s' = UI.downloadSpeed s /\
      UI.uploadSpeed s' = UI.uploadSpeed s
  | Throw e s' =>
      e = AbortError /\ sameSession s s' /\
      UI.ping s' = UI.ping s /\
      UI.downloadSpeed s' = UI.downloadSpeed s /\
      UI.uploadSpeed s' = UI.uploadSpeed s
  | Pending => False
  end.
Proof.
  pose proof (runPingTest_ends
                (fun s' => sameSession s s' /\
                           UI.downloadSpeed s' = UI.downloadSpeed s /\
                           UI.uploadSpeed s' = UI.uploadSpeed s)
                ltac:(session_frame) ltac:(session_frame) a b env s
                ltac:(session_frame)) as Hdone.
  pose proof (pingLoop_ends
                (fun s' => sameSession s s' /\ UI.ping s' = UI.ping s /\
                           UI.downloadSpeed s' = UI.downloadSpeed s /\
                           UI.uploadSpeed s' = UI.uploadSpeed s)
                ltac:(session_frame) a b (probes env) numPings 0 [] s
                ltac:(session_frame)) as Hthrow.
  unfold runPingTest, bind in *.
  destruct (pingLoop a b (probes env) numPings 0 [] s) as [l s1 | e s1 |].
  - exact Hdone.
  - cbv beta in Hthrow. tauto.
  - exact Hdone.
Qed.

Lemma runDownloadTest_keeps (env : Env) (a b : Q) (s : UI.t) :
  match runDownloadTest env a b s with
  | Done _ s' | Throw _ s' =>
      sameSession s s' /\
      UI.ping s' = UI.ping s /\
      UI.uploadSpeed s' = UI.uploadSpeed s
  | Pending => False
  end.
Proof.
  pose proof (runDownloadTest_ends
                (fun s' => sameSession s s' /\ UI.ping s' = UI.ping s /\
                           UI.uploadSpeed s' = UI.uploadSpeed s)
                ltac:(session_frame) ltac:(session_frame) ltac:(session_frame)
                a b env s ltac:(session_frame)) as H.
  destruct (runDownloadTest env a b s); cbv beta in H; tauto.
Qed.

Lemma runUploadTest_keeps (env : Env) (a b : Q) (s : UI.t) :
  match runUploadTest env a b s with
  | Done _ s' =>
      sameSession s s' /\
      UI.ping s' = UI.ping s /\
      UI.downloadSpeed s' = UI.downloadSpeed s
  | Throw e s' =>
      e = AbortError /\ sameSession s s' /\
      UI.ping s' = UI.ping s /\
      UI.downloadSpeed s' = UI.downloadSpeed s
  | Pending => uploadSettles (ulStart (upload env)) (ulTurns (upload env)) = false
  end.
Proof.
  pose proof (runUploadTest_ends
                (fun s' => sameSession s s' /\ UI.ping s' = UI.ping s /\
                           UI.downloadSpeed s' = UI.downloadSpeed s)
                ltac:(session_frame) ltac:(session_frame) ltac:(session_frame)
                a b env s ltac:(session_frame)) as H.
  destruct (runUploadTest env a b s); cbv beta in H; tauto.
Qed.

(** X6.  Each stage writes only its own result besides the progress and
    the live speed: whichever way it ends, by return or by throw, the
    latency stage leaves the download and upload speeds, the download
    stage the latency and the upload speed, the upload stage the latency
    and the download speed; none touches the address, the status line,
    the stage shown, the running flag or the history.  When the latency
    stage or the upload stage throws, what it throws is the abort. *)
Theorem stages_write_their_own_result (env : Env) (a b : Q) (s : UI.t) :
  (forall e s',
      runPingTest env a b s = Done tt s' \/ runPingTest env a b s = Throw e s' ->
      sameSession s s' /\
      UI.downloadSpeed s' = UI.downloadSpeed s /\
      UI.uploadSpeed s' = UI.uploadSpeed s) /\
  (forall e s',
      runPingTest env a b s = Throw e s' ->
      e = AbortError /\ UI.ping s' = UI.ping s) /\
  (forall e s',
      runDownloadTest env a b s = Done tt s' \/ runDownloadTest env a b s = Throw e s' ->
      sameSession s s' /\
      UI.ping s' = UI.ping s /\
      UI.uploadSpeed s' = UI.uploadSpeed s) /\
  (forall e s',
      runUploadTest env a b s = Done tt s' \/ runUploadTest env a b s = Throw e s' ->
      sameSession s s' /\
      UI.ping s' = UI.ping s /\
      UI.downloadSpeed s' = UI.downloadSpeed s) /\
  (forall e s',
      runUploadTest env a b s = Throw e s' -> e = AbortError).
Proof.
  pose proof (runPingTest_keeps env a b s) as Hping.
  pose proof (runDownloadTest_keeps env a b s) as Hdown.
  pose proof (runUploadTest_keeps env a b s) as Hup.
  split; [| split; [| split; [| split]]].
  - intros e s' [Hrun | Hrun]; rewrite Hrun in Hping; tauto.
  - intros e s' Hrun. rewrite Hrun in Hping. tauto.
  - intros e s' [Hrun | Hrun]; rewrite Hrun in Hdown; tauto.
  - intros e s' [Hrun | Hrun]; rewrite Hrun in Hup; tauto.
  - intros e s' Hrun. rewrite Hrun in Hup. tauto.
Qed.

Lemma stages_write_their_own_result_witness :
  exists s',
    runDownloadTest fullRun pingProgressEnd downloadProgressEnd UI.initial
    = Done tt s' /\
    UI.ping s' = UI.ping UI.initial /\
    UI.uploadSpeed s' = UI.uploadSpeed UI.initial /\
    UI.downloadSpeed s' = "95.37"%string.
Proof.
  assert (Hrun : exists s',
             runDownloadTest fullRun pingProgressEnd downloadProgressEnd UI.initial
             = Done tt s' /\ UI.downloadSpeed s' = "95.37"%string)
    by (eexists; split; [vm_compute; reflexivity | reflexivity]).
  destruct Hrun as (s' & Hrun & Hshown).
  destruct (stages_write_their_own_result fullRun pingProgressEnd
              downloadProgressEnd UI.initial) as (_ & _ & Hdown & _).
  destruct (Hdown AbortError s' (or_introl Hrun)) as (_ & Hping & Hup).
  exists s'. split; [exact Hrun |]. split; [exact Hping |].
  split; [exact Hup | exact Hshown].
Defined.

(** ** A run from reset to record *)

Lemma uploadLoop_waits (a b startTime : Q) (turns : list UploadTurn)
      (bytes : N) (last : Q) (s : UI.t) :
  uploadSettles startTime turns = false ->
  uploadLoop a b turns startTime bytes last s = Pending.
Proof.
  revert bytes last s.
  induction turns as [| turn rest IH]; intros bytes last s Hs; [reflexivity |].
  simpl in Hs. simpl uploadLoop. fold (timeIsUp startTime turn).
  unfold isAborted in Hs.
  destruct (timeIsUp startTime turn); [discriminate Hs |].
  destruct (post turn); simpl in Hs; [| | discriminate Hs].
  - unfold bind at 1.
    destruct (report_or_skip_done UI.setUploadSpeed a b (bytes + chunkSize)
                (headTime turn - startTime) (headTime turn) last s) as (s1 & ->).
    apply IH, Hs.
  - apply IH, Hs.
Qed.

Lemma resetDisplay_effect (s : UI.t) :
  exists s1,
    resetDisplay s = Done tt s1 /\
    UI.testState s1 = pinging /\ UI.isTesting s1 = true /\
    UI.testHistory s1 = UI.testHistory s /\
    UI.progressLog s1 = 0%Z :: UI.progressLog s.
Proof. eexists. repeat split. Qed.

Lemma catchBlock_effect (r : Render.t) (e : exn) (s : UI.t) :
  exists s',
    catchBlock r e s = Done tt s' /\
    UI.testStatus s' = statusOf (Some e) /\
    UI.testState s' = UI.testState s /\
    UI.isTesting s' = UI.isTesting s /\
    UI.testHistory s' = UI.testHistory s /\
    UI.ping s' = (if String.eqb (Render.ping r) "-" then sentinelOf e else UI.ping s) /\
    UI.downloadSpeed s'
    = (if String.eqb (Render.downloadSpeed r) "-" then sentinelOf e
       else UI.downloadSpeed s) /\
    UI.uploadSpeed s'
    = (if String.eqb (Render.uploadSpeed r) "-" then sentinelOf e
       else UI.uploadSpeed s) /\
    UI.ipAddress s'
    = (if String.eqb (Render.ipAddress r) "-" then sentinelOf e else UI.ipAddress s).
Proof.
  unfold catchBlock, whenDash.
  destruct e;
    destruct (String.eqb (Render.ping r) "-"),
             (String.eqb (Render.downloadSpeed r) "-"),
             (String.eqb (Render.uploadSpeed r) "-"),
             (String.eqb (Render.ipAddress r) "-");
    eexists; repeat split.
Qed.

Lemma finallyBlock_effect (r : Render.t) (env : Env) (s : UI.t) :
  exists s',
    finallyBlock r env s = Done tt s' /\
    UI.testStatus s' = UI.testStatus s /\ UI.testState s' = UI.testState s /\
    UI.ping s' = UI.ping s /\ UI.downloadSpeed s' = UI.downloadSpeed s /\
    UI.uploadSpeed s' = UI.uploadSpeed s /\ UI.ipAddress s' = UI.ipAddress s /\
    UI.isTesting s' = false /\ UI.abortControllerRef s' = false /\
    UI.currentSpeedDisplay s' = Js.Fin 0 /\ UI.progress s' = 100%Z /\
    UI.testHistory s' = newResult r env :: UI.testHistory s.
Proof. eexists. repeat split. Qed.

(** How the [try] block ends, read off the script. *)
Lemma tryBlock_outcome (env : Env) (s : UI.t) :
  UI.testState s = pinging ->
  match tryBlock env s with
  | Done _ s' =>
      exists l,
        collectedFrom (probes env) numPings 0 = Some l /\
        runVerdict env = (complete, None) /\
        UI.testState s' = complete /\
        UI.testStatus s' = "Test Complete!"%string /\
        UI.ipAddress s' = orElse (ipLookup env) "N/A" /\
        UI.ping s' = pingDisplay l /\
        UI.downloadSpeed s'
        = Js.toFixed 2
            (speedMbps (bytesRead (dlStart (download env)) (dlReads (download env)))
                       (dlFinal (download env) - dlStart (download env))) /\
        UI.uploadSpeed s'
        = Js.toFixed 2
            (speedMbps (acceptedBytes
                          (turnsBeforeDeadline (ulStart (upload env))
                                               (ulTurns (upload env))))
                       (ulFinal (upload env) - ulStart (upload env)))
  | Throw e s' => runVerdict env = (UI.testState s', Some e)
  | Pending => uploadSettles (ulStart (upload env)) (ulTurns (upload env)) = false
  end.
Proof.
  intro Hstate. unfold tryBlock, fetchIpAddress.
  cbv beta iota delta [bind modify ret].
  match goal with
  | |- context [runPingTest env ?a ?b ?st] =>
      pose proof (runPingTest_keeps env a b st) as Hk1;
      destruct (runPingTest_result env a b st) as (s1 & Hr1 & Hp1)
  end.
  unfold runVerdict.
  destruct (collectedFrom (probes env) numPings 0) as [l |] eqn:Ecol.
  2: { rewrite Hr1 in *. destruct Hk1 as (_ & Hsess & _).
       unfold sameSession in Hsess. simpl in Hsess.
       destruct Hsess as (-> & _). rewrite Hstate. reflexivity. }
  rewrite Hr1 in *. specialize (Hp1 l eq_refl).
  match goal with
  | |- context [runDownloadTest env ?a ?b ?st] =>
      pose proof (runDownloadTest_keeps env a b st) as Hk2;
      destruct (runDownloadTest_result env a b st) as (s2 & Hr2 & Hp2)
  end.
  destruct (downloadVerdict (download env)) as [e |] eqn:Edl.
  { rewrite Hr2 in *. destruct Hk2 as (Hsess & _).
    unfold sameSession in Hsess. simpl in Hsess.
    destruct Hsess as (-> & _). reflexivity. }
  rewrite Hr2 in *. specialize (Hp2 eq_refl).
  destruct (uploadSettles (ulStart (upload env)) (ulTurns (upload env))) eqn:Esettles.
  2: { unfold runUploadTest. unfold bind at 1.
       rewrite uploadLoop_waits by exact Esettles. reflexivity. }
  match goal with
  | |- context [runUploadTest env ?a ?b ?st] =>
      pose proof (runUploadTest_keeps env a b st) as Hk3;
      destruct (runUploadTest_result env a b st Esettles) as (s3 & Hr3 & Hp3)
  end.
  destruct (uploadAborted (ulStart (upload env)) (ulTurns (upload env))) eqn:Eul.
  { rewrite Hr3 in *. destruct Hk3 as (_ & Hsess & _).
    unfold sameSession in Hsess. simpl in Hsess.
    destruct Hsess as (-> & _). reflexivity. }
  rewrite Hr3 in *. specialize (Hp3 eq_refl).
  unfold sameSession in *. simpl in *.
  exists l. split; [reflexivity |]. split; [reflexivity |].
  split; [reflexivity |]. split; [reflexivity |].
  intuition congruence.
Qed.

(** The three ways [startAllTests] can go, with the states in between. *)
Lemma startAllTests_cases (r : Render.t) (env : Env) (s : UI.t) :
  exists s1,
    resetDisplay s = Done tt s1 /\
    ((startAllTests r env s = Pending /\ tryBlock env s1 = Pending) \/
     (exists s2 s',
         tryBlock env s1 = Done tt s2 /\
         finallyBlock r env s2 = Done tt s' /\
         startAllTests r env s = Done tt s') \/
     (exists e s2 s3 s',
         tryBlock env s1 = Throw e s2 /\
         catchBlock r e s2 = Done tt s3 /\
         finallyBlock r env s3 = Done tt s' /\
         startAllTests r env s = Done tt s')).
Proof.
  destruct (resetDisplay_effect s) as (s1 & Hreset & _).
  exists s1. split; [exact Hreset |].
  assert (Hrun : startAllTests r env s
                 = tryCatchFinally (tryBlock env) (catchBlock r) (finallyBlock r env) s1).
  { unfold startAllTests. unfold bind at 1. rewrite Hreset. reflexivity. }
  rewrite Hrun. unfold tryCatchFinally.
  destruct (tryBlock env s1) as [[] s2 | e s2 |].
  - right. left. destruct (finallyBlock_effect r env s2) as (s' & Hf & _).
    exists s2, s'. rewrite Hf. repeat split.
  - right. right.
    destruct (catchBlock_effect r e s2) as (s3 & Hc & _).
    destruct (finallyBlock_effect r env s3) as (s' & Hf & _).
    exists e, s2, s3, s'. rewrite Hc, Hf. repeat split.
  - left. split; reflexivity.
Qed.

(** X5.  The status line and the stage shown when a run has finished are
    those of the first stage that throws: "Test Aborted" with the
    stage of the abort, "Error: Download test failed" with the
    download stage, and "Test Complete!" with [complete] when no
    stage throws.  Whatever the outcome, the run ends with the running
    flag off, the abort controller released, the live speed at zero and
    the progress at 100. *)
Theorem run_outcome (r : Render.t) (env : Env) (s : UI.t) :
  startAllTests r env s <> Pending ->
  exists s',
    startAllTests r env s = Done tt s' /\
    UI.testState s' = fst (runVerdict env) /\
    UI.testStatus s' = statusOf (snd (runVerdict env)) /\
    (snd (runVerdict env) = None \/ snd (runVerdict env) = Some AbortError \/
     snd (runVerdict env) = Some (Error "Download test failed")) /\
    UI.isTesting s' = false /\ UI.abortControllerRef s' = false /\
    UI.currentSpeedDisplay s' = Js.Fin 0 /\ UI.progress s' = 100%Z.
Proof.
  intro Hfinished.
  assert (Hkinds : snd (runVerdict env) = None \/
                   snd (runVerdict env) = Some AbortError \/
                   snd (runVerdict env) = Some (Error "Download test failed")).
  { unfold runVerdict, downloadVerdict.
    destruct (collectedFrom _ _ _); [| simpl; auto].
    destruct (dlFetch (download env)) as [[|] | |]; simpl; auto.
    - destruct (readFailure _ _) as [[|] |]; simpl; auto.
      destruct (uploadAborted _ _); simpl; auto.
  }
  destruct (startAllTests_cases r env s)
    as (s1 & Hreset & [[Hp _] | [(s2 & s' & Htry & Hfin & Hrun)
                                | (e & s2 & s3 & s' & Htry & Hcatch & Hfin & Hrun)]]);
    [contradiction | |].
  - destruct (resetDisplay_effect s) as (s1' & Hreset' & Hstate & _).
    rewrite Hreset in Hreset'. injection Hreset' as <-.
    pose proof (tryBlock_outcome env s1 Hstate) as Hout. rewrite Htry in Hout.
    destruct Hout as (l & _ & Hv & Hts & Hst & _).
    destruct (finallyBlock_effect r env s2)
      as (s'' & Hf & Hst' & Hts' & _ & _ & _ & _ & Ht & Ha & Hl & Hp & _).
    rewrite Hfin in Hf. injection Hf as <-.
    exists s'. rewrite Hv. simpl.
    repeat split; try assumption; try congruence.
    rewrite Hv in Hkinds. exact Hkinds.
  - destruct (resetDisplay_effect s) as (s1' & Hreset' & Hstate & _).
    rewrite Hreset in Hreset'. injection Hreset' as <-.
    pose proof (tryBlock_outcome env s1 Hstate) as Hout. rewrite Htry in Hout.
    destruct (catchBlock_effect r e s2) as (s3' & Hc & Hcs & Hct & _).
    rewrite Hcatch in Hc. injection Hc as <-.
    destruct (finallyBlock_effect r env s3)
      as (s'' & Hf & Hst' & Hts' & _ & _ & _ & _ & Ht & Ha & Hl & Hp & _).
    rewrite Hfin in Hf. injection Hf as <-.
    exists s'. rewrite Hout in *. simpl in *.
    repeat split; try assumption; congruence.
Qed.

Lemma run_outcome_witness :
  exists s',
    startAllTests freshRender cancelledInDownload UI.initial = Done tt s' /\
    UI.testState s' = downloading /\
    UI.testStatus s' = "Test Aborted"%string.
Proof.
  destruct (run_outcome freshRender cancelledInDownload UI.initial)
    as (s' & Hrun & Hstate & Hstatus & _).
  - vm_compute. discriminate.
  - exists s'. split; [exact Hrun |]. split; [exact Hstate | exact Hstatus].
Defined.

(** X8.  When no stage throws, the finished run shows the aggregate of
    the collected probe values as latency, the rate of the bytes read
    up to the cutoff over the final download time as download speed,
    the rate of the accepted upload bytes over the final upload time as
    upload speed, and the looked-up address (N/A when the lookup gave
    none): later stages do not disturb the results of earlier ones. *)
Theorem complete_run_display (r : Render.t) (env : Env) (s : UI.t) :
  snd (runVerdict env) = None ->
  startAllTests r env s <> Pending ->
  exists s' pingTimes,
    startAllTests r env s = Done tt s' /\
    collectedFrom (probes env) numPings 0 = Some pingTimes /\
    UI.ping s' = pingDisplay pingTimes /\
    UI.downloadSpeed s'
    = Js.toFixed 2
        (speedMbps (bytesRead (dlStart (download env)) (dlReads (download env)))
                   (dlFinal (download env) - dlStart (download env))) /\
    UI.uploadSpeed s'
    = Js.toFixed 2
        (speedMbps (acceptedBytes
                      (turnsBeforeDeadline (ulStart (upload env)) (ulTurns (upload env))))
                   (ulFinal (upload env) - ulStart (upload env))) /\
    UI.ipAddress s' = orElse (ipLookup env) "N/A".
Proof.
  intros Hnone Hfinished.
  destruct (startAllTests_cases r env s)
    as (s1 & Hreset & [[Hp _] | [(s2 & s' & Htry & Hfin & Hrun)
                                | (e & s2 & s3 & s' & Htry & Hcatch & Hfin & Hrun)]]);
    [contradiction | |].
  - destruct (resetDisplay_effect s) as (s1' & Hreset' & Hstate & _).
    rewrite Hreset in Hreset'. injection Hreset' as <-.
    pose proof (tryBlock_outcome env s1 Hstate) as Hout. rewrite Htry in Hout.
    destruct Hout as (l & Hl & _ & _ & _ & Hip & Hping & Hdl & Hul).
    destruct (finallyBlock_effect r env s2)
      as (s'' & Hf & _ & _ & Hp' & Hd' & Hu' & Hi' & _).
    rewrite Hfin in Hf. injection Hf as <-.
    exists s', l. repeat split; congruence.
  - exfalso.
    destruct (resetDisplay_effect s) as (s1' & Hreset' & Hstate & _).
    rewrite Hreset in Hreset'. injection Hreset' as <-.
    pose proof (tryBlock_outcome env s1 Hstate) as Hout. rewrite Htry in Hout.
    rewrite Hout in Hnone. discriminate Hnone.
Qed.

Lemma complete_run_display_witness :
  exists s',
    startAllTests freshRender fullRun UI.initial = Done tt s' /\
    UI.ping s' = pingDisplay (repeat 50 90) /\
    UI.downloadSpeed s' = Js.toFixed 2 (speedMbps 125000000 10000) /\
    UI.uploadSpeed s' = Js.toFixed 2 (speedMbps (3 * chunkSize) 10000).
Proof.
  destruct (complete_run_display freshRender fullRun UI.initial)
    as (s' & l & Hrun & Hl & Hping & Hdl & Hul & _).
  - reflexivity.
  - vm_compute. discriminate.
  - exists s'. split; [exact Hrun |].
    assert (Hl' : collectedFrom (probes fullRun) numPings 0 = Some (repeat 50 90))
      by reflexivity.
    rewrite Hl' in Hl. injection Hl as <-.
    split; [exact Hping |]. split; [exact Hdl | exact Hul].
Defined.

(** X9.  When a stage throws, the [catch] block writes its sentinel
    (N/A after an abort, Error after a failure) over every display whose
    constant in the render that created the handler is still the dash,
    whatever the run has measured since; on a run started from the
    freshly mounted component that is all four of them. *)
Theorem failed_run_overwrites_display (r : Render.t) (env : Env) (s : UI.t) (e : exn) :
  snd (runVerdict env) = Some e ->
  startAllTests r env s <> Pending ->
  exists s',
    startAllTests r env s = Done tt s' /\
    (Render.ping r = "-"%string -> UI.ping s' = sentinelOf e) /\
    (Render.downloadSpeed r = "-"%string -> UI.downloadSpeed s' = sentinelOf e) /\
    (Render.uploadSpeed r = "-"%string -> UI.uploadSpeed s' = sentinelOf e) /\
    (Render.ipAddress r = "-"%string -> UI.ipAddress s' = sentinelOf e) /\
    (r = freshRender ->
     UI.ping s' = sentinelOf e /\ UI.downloadSpeed s' = sentinelOf e /\
     UI.uploadSpeed s' = sentinelOf e /\ UI.ipAddress s' = sentinelOf e).
Proof.
  intros Hthrown Hfinished.
  destruct (startAllTests_cases r env s)
    as (s1 & Hreset & [[Hp _] | [(s2 & s' & Htry & Hfin & Hrun)
                                | (e' & s2 & s3 & s' & Htry & Hcatch & Hfin & Hrun)]]);
    [contradiction | |];
    destruct (resetDisplay_effect s) as (s1' & Hreset' & Hstate & _);
    rewrite Hreset in Hreset'; injection Hreset' as <-;
    pose proof (tryBlock_outcome env s1 Hstate) as Hout; rewrite Htry in Hout.
  - exfalso. destruct Hout as (l & _ & Hv & _). rewrite Hv in Hthrown.
    discriminate Hthrown.
  - rewrite Hout in Hthrown. simpl in Hthrown. injection Hthrown as ->.
    destruct (catchBlock_effect r e s2)
      as (s3' & Hc & _ & _ & _ & _ & Hping & Hdl & Hul & Hip).
    rewrite Hcatch in Hc. injection Hc as <-.
    destruct (finallyBlock_effect r env s3)
      as (s'' & Hf & _ & _ & Hp' & Hd' & Hu' & Hi' & _).
    rewrite Hfin in Hf. injection Hf as <-.
    assert (H1 : Render.ping r = "-"%string -> UI.ping s' = sentinelOf e)
      by (intro H; rewrite Hp', Hping, H; reflexivity).
    assert (H2 : Render.downloadSpeed r = "-"%string -> UI.downloadSpeed s' = sentinelOf e)
      by (intro H; rewrite Hd', Hdl, H; reflexivity).
    assert (H3 : Render.uploadSpeed r = "-"%string -> UI.uploadSpeed s' = sentinelOf e)
      by (intro H; rewrite Hu', Hul, H; reflexivity).
    assert (H4 : Render.ipAddress r = "-"%string -> UI.ipAddress s' = sentinelOf e)
      by (intro H; rewrite Hi', Hip, H; reflexivity).
    exists s'. split; [exact Hrun |].
    split; [exact H1 |]. split; [exact H2 |]. split; [exact H3 |]. split; [exact H4 |].
    intros ->. auto.
Qed.

Lemma failed_run_overwrites_display_witness :
  exists s',
    startAllTests freshRender cancelledInDownload UI.initial = Done tt s' /\
    UI.ping s' = "N/A"%string /\ UI.downloadSpeed s' = "N/A"%string.
Proof.
  destruct (failed_run_overwrites_display freshRender cancelledInDownload
              UI.initial AbortError)
    as (s' & Hrun & Hping & Hdl & _).
  - reflexivity.
  - vm_compute. discriminate.
  - exists s'. split; [exact Hrun |].
    split; [apply Hping | apply Hdl]; reflexivity.
Defined.

(** X10.  A finished run can be followed by another, and the record the
    later run prepends holds what the display showed when it was
    clicked, that is the results the earlier run left, not its own:
    its latency, download and upload fields are read off the earlier
    run's final display. *)
Theorem record_lags_one_run (env1 env2 : Env) (s s1 s2 : UI.t) :
  UI.isTesting s = false ->
  click env1 s = Done tt s1 ->
  click env2 s1 = Done tt s2 ->
  UI.isTesting s1 = false /\
  exists record,
    UI.testHistory s2 = record :: UI.testHistory s1 /\
    TestResult.ping record = measured (UI.ping s1) /\
    TestResult.downloadSpeed record = measured (UI.downloadSpeed s1) /\
    TestResult.uploadSpeed record = measured (UI.uploadSpeed s1) /\
    List.length (UI.testHistory s2) = S (S (List.length (UI.testHistory s))).
Proof.
  intros Hidle Hfirst Hsecond.
  unfold click in Hfirst. rewrite Hidle in Hfirst.
  assert (Hoff : UI.isTesting s1 = false).
  { destruct (startAllTests_cases (Render.capture s) env1 s)
      as (s0 & _ & [[Hp _] | [(s2' & s' & _ & Hfin & Hrun)
                             | (e & s2' & s3 & s' & _ & _ & Hfin & Hrun)]]);
      [congruence | |];
      rewrite Hfirst in Hrun; injection Hrun as <-.
    - destruct (finallyBlock_effect (Render.capture s) env1 s2')
        as (s'' & Hf & _ & _ & _ & _ & _ & _ & Ht & _).
      rewrite Hfin in Hf. injection Hf as <-. exact Ht.
    - destruct (finallyBlock_effect (Render.capture s) env1 s3)
        as (s'' & Hf & _ & _ & _ & _ & _ & _ & Ht & _).
      rewrite Hfin in Hf. injection Hf as <-. exact Ht. }
  split; [exact Hoff |].
  unfold click in Hsecond. rewrite Hoff in Hsecond.
  pose proof (startAllTests_outcome (Render.capture s) env1 s) as H1.
  rewrite Hfirst in H1.
  pose proof (startAllTests_outcome (Render.capture s1) env2 s1) as H2.
  rewrite Hsecond in H2.
  exists (newResult (Render.capture s1) env2).
  split; [exact H2 |]. repeat split.
  rewrite H2, H1. reflexivity.
Qed.

Lemma record_lags_one_run_witness :
  exists s1 s2 record,
    click fullRun UI.initial = Done tt s1 /\
    click cancelledInDownload s1 = Done tt s2 /\
    UI.testHistory s2 = record :: UI.testHistory s1 /\
    TestResult.downloadSpeed record = measured (UI.downloadSpeed s1).
Proof.
  assert (H : exists s1 s2,
             click fullRun UI.initial = Done tt s1 /\
             click cancelledInDownload s1 = Done tt s2).
  { do 2 eexists. split; [vm_compute; reflexivity | vm_compute; reflexivity]. }
  destruct H as (s1 & s2 & H1 & H2).
  destruct (record_lags_one_run fullRun cancelledInDownload UI.initial s1 s2
              eq_refl H1 H2) as (_ & record & Hh & _ & Hdl & _).
  exists s1, s2, record. split; [exact H1 |]. split; [exact H2 |].
  split; [exact Hh | exact Hdl].
Defined.

(** ** The range of the progress value *)

Lemma Rising_above_oldest (updates : list Z) (oldest : Z) :
  Rising (updates ++ [oldest]) -> Forall (fun v => (oldest <= v)%Z) updates.
Proof.
  unfold Rising. intro H.
  apply Sorted_StronglySorted in H; [| intros x y z Hxy Hyz; lia].
  induction updates as [| v u IH]; [constructor |].
  simpl in H. apply StronglySorted_inv in H. destruct H as [Hs Hall].
  constructor; [| apply IH, Hs].
  apply Forall_app in Hall. destruct Hall as [_ Hlast].
  apply Forall_inv in Hlast. lia.
Qed.

Lemma finallyBlock_log (r : Render.t) (env : Env) (s s' : UI.t) :
  finallyBlock r env s = Done tt s' ->
  UI.progressLog s' = 100%Z :: UI.progressLog s.
Proof. intro H. injection H as <-. reflexivity. Qed.

(** X3.  With a clock that never runs backwards, the progress updates
    of a finished run start with the reset to 0, end with the 100 of
    the [finally] block, and every one of them lies between 0 and
    100. *)
Theorem progress_stays_in_range (r : Render.t) (env : Env) (s s' : UI.t) :
  clockMonotone env = true ->
  startAllTests r env s = Done tt s' ->
  exists between,
    UI.progressLog s' = ((100%Z :: between) ++ 0%Z :: UI.progressLog s)%list /\
    Forall (fun v => (0 <= v <= 100)%Z) (100%Z :: between ++ [0%Z]).
Proof.
  intros Hclock Hrun.
  destruct (resetDisplay_effect s) as (s1 & Hreset & _ & _ & _ & Hlog1).
  assert (Hfrom0 : Tracks (UI.progressLog s1) 0 s1).
  { exists []. split; [reflexivity | split; constructor]. }
  assert (Hfrom : Tracks (UI.progressLog s) 0 s1).
  { exists [0%Z]. split; [rewrite Hlog1; reflexivity |].
    split; [repeat constructor | constructor; [lia | constructor]]. }
  pose proof (tryBlock_tracks (UI.progressLog s1) env Hclock s1 Hfrom0) as Hin.
  pose proof (tryBlock_tracks (UI.progressLog s) env Hclock s1 Hfrom) as Hall.
  assert (Hrange : forall s2,
             Tracks (UI.progressLog s1) 100 s2 -> Tracks (UI.progressLog s) 100 s2 ->
             exists between,
               UI.progressLog s2 = (between ++ 0%Z :: UI.progressLog s)%list /\
               Forall (fun v => (0 <= v <= 100)%Z) between).
  { intros s2 (u1 & Hlog & _ & Hle) (u & Hlog' & Hrise & _).
    exists u1. rewrite Hlog1 in Hlog. split; [exact Hlog |].
    assert (Hu : u = (u1 ++ [0%Z])%list).
    { apply (app_inv_tail (UI.progressLog s)).
      rewrite <- Hlog', Hlog, <- app_assoc. reflexivity. }
    subst u. apply Rising_above_oldest in Hrise.
    rewrite Forall_forall in *. intros v Hv.
    specialize (Hle v Hv). specialize (Hrise v Hv). cbv beta in *. lia. }
  destruct (startAllTests_cases r env s)
    as (s1' & Hreset' & [[Hp _] | [(s2 & s'' & Htry & Hfin & Hrun')
                                  | (e & s2 & s3 & s'' & Htry & Hcatch & Hfin & Hrun')]]);
    [congruence | |];
    rewrite Hreset in Hreset'; injection Hreset' as <-;
    rewrite Hrun in Hrun'; injection Hrun' as <-;
    rewrite Htry in Hin, Hall.
  - destruct (Hrange s2 Hin Hall) as (between & Hlog & Hbetween).
    exists between. rewrite (finallyBlock_log _ _ _ _ Hfin), Hlog.
    split; [reflexivity |].
    constructor; [lia |]. apply Forall_app. split; [exact Hbetween |].
    constructor; [lia | constructor].
  - destruct (Hrange s2 Hin Hall) as (between & Hlog & Hbetween).
    destruct (catchBlock_done r e s2) as (s3' & Hc & _ & Hlog3).
    rewrite Hcatch in Hc. injection Hc as <-.
    exists between. rewrite (finallyBlock_log _ _ _ _ Hfin), Hlog3, Hlog.
    split; [reflexivity |].
    constructor; [lia |]. apply Forall_app. split; [exact Hbetween |].
    constructor; [lia | constructor].
Qed.

Lemma progress_stays_in_range_witness :
  exists s' between,
    startAllTests freshRender fullRun UI.initial = Done tt s' /\
    UI.progressLog s' = ((100%Z :: between) ++ [0%Z])%list /\
    Forall (fun v => (0 <= v <= 100)%Z) (100%Z :: between ++ [0%Z]).
Proof.
  assert (Hrun : exists s', startAllTests freshRender fullRun UI.initial = Done tt s')
    by (eexists; vm_compute; reflexivity).
  destruct Hrun as (s' & Hrun).
  destruct (progress_stays_in_range freshRender fullRun UI.initial s' eq_refl Hrun)
    as (between & Hlog & Hall).
  exists s', between. split; [exact Hrun |]. split; [exact Hlog | exact Hall].
Defined.

(** ** Availability of the latency *)

(** X7.  A latency is always reported when the median of the collected
    values is positive and below 300 ms: the median itself survives the
    trimming.  N/A can therefore only appear when the median is 300 ms
    or more (at least half of the probes that slow, or penalised) or
    not positive. *)
Theorem latency_available_for_moderate_median (pingTimes : list Q) (median : Q) :
  medianOf (sortAsc pingTimes) = Some median ->
  0 < median -> median < 300 ->
  In median (cleanedOf (sortAsc pingTimes) median) /\
  exists a, averagePing pingTimes = Some a /\ pingDisplay pingTimes = Js.toFixedQ 2 a.
Proof.
  intros Hm Hpos Hlt.
  assert (Hin : In median (cleanedOf (sortAsc pingTimes) median)).
  { apply cleanedOf_In. split.
    - unfold medianOf in Hm. eapply nth_error_In; exact Hm.
    - destruct (trimThreshold_spec median) as (_ & _ & [-> | ->]); lra. }
  split; [exact Hin |].
  destruct (averagePing_cases pingTimes) as [[-> _] | (m' & Hm' & _ & Hc)].
  - discriminate Hm.
  - rewrite Hm in Hm'. injection Hm' as <-. cbv zeta in Hc.
    destruct Hc as [[Hempty _] | [_ Ha]].
    + rewrite Hempty in Hin. contradiction.
    + eexists. split; [exact Ha |]. unfold pingDisplay. rewrite Ha. reflexivity.
Qed.

Lemma latency_available_for_moderate_median_witness :
  exists a, averagePing [1000; 40; 1000; 20; 60] = Some a.
Proof.
  destruct (latency_available_for_moderate_median [1000; 40; 1000; 20; 60] 60)
    as (_ & a & Ha & _); try reflexivity.
  exists a. exact Ha.
Defined.

(** ** A transfer that takes no time *)

(** X11.  The rate is not guarded against a zero elapsed time: when the
    final clock reading of a download that was not interrupted equals
    its start reading, the speed shown is "NaN" if nothing was read and
    "Infinity" otherwise, and the history reads that display back as a
    number that is not finite rather than as an absent field. *)
Theorem zero_elapsed_download (env : Env) (overallStart overallEnd : Q) (s : UI.t) :
  let d := download env in
  downloadVerdict d = None ->
  dlFinal d == dlStart d ->
  exists s',
    runDownloadTest env overallStart overallEnd s = Done tt s' /\
    UI.downloadSpeed s'
    = (if (bytesRead (dlStart d) (dlReads d) =? 0)%N
       then "NaN"%string else "Infinity"%string) /\
    measured (UI.downloadSpeed s')
    = Some (if (bytesRead (dlStart d) (dlReads d) =? 0)%N
            then Js.NaN else Js.Inf false).
Proof.
  intros d Hverdict Hzero.
  destruct (runDownloadTest_result env overallStart overallEnd s) as (s' & Hrun & Hshown).
  fold d in Hrun, Hshown. rewrite Hverdict in Hrun. specialize (Hshown Hverdict).
  exists s'. split; [exact Hrun |].
  assert (Hspeed : speedMbps (bytesRead (dlStart d) (dlReads d)) (dlFinal d - dlStart d)
                   = if (bytesRead (dlStart d) (dlReads d) =? 0)%N
                     then Js.NaN else Js.Inf false).
  { unfold speedMbps, Js.div.
    assert (Hz : Qeq_bool ((dlFinal d - dlStart d) / 1000) 0 = true).
    { apply Qeq_bool_iff. rewrite Hzero. unfold Qdiv. ring. }
    rewrite Hz.
    destruct (N.eqb_spec (bytesRead (dlStart d) (dlReads d)) 0) as [-> | Hne].
    - reflexivity.
    - assert (Hpos : 0 < bytesQ (bytesRead (dlStart d) (dlReads d))).
      { unfold bytesQ. change 0 with (inject_Z 0). rewrite <- Zlt_Qlt. lia. }
      assert (Hq : Qeq_bool (bytesQ (bytesRead (dlStart d) (dlReads d))) 0 = false).
      { apply not_true_is_false. intro E. apply Qeq_bool_iff in E. lra. }
      assert (Hle : Qle_bool 0 (bytesQ (bytesRead (dlStart d) (dlReads d))) = true)
        by (apply Qle_bool_iff; lra).
      rewrite Hq, Hle. reflexivity. }
  rewrite Hshown, Hspeed.
  destruct (bytesRead (dlStart d) (dlReads d) =? 0)%N; split; reflexivity.
Qed.

Lemma zero_elapsed_download_witness :
  exists s',
    runDownloadTest
      {| ipLookup := None; probes := fun _ => steady 50;
         download := {| dlBefore := 0; dlFetch := Responded true; dlStart := 7;
                        dlReads := []; dlFinal := 7 |};
         upload := noUpload; dateNow := 0; localeString := "" |}
      10 60 UI.initial = Done tt s' /\
    UI.downloadSpeed s' = "NaN"%string.
Proof.
  destruct (zero_elapsed_download
              {| ipLookup := None; probes := fun _ => steady 50;
                 download := {| dlBefore := 0; dlFetch := Responded true; dlStart := 7;
                                dlReads := []; dlFinal := 7 |};
                 upload := noUpload; dateNow := 0; localeString := "" |}
              10 60 UI.initial) as (s' & Hrun & Hshown & _).
  - reflexivity.
  - reflexivity.
  - exists s'. split; [exact Hrun | exact Hshown].
Defined.

(** ** Clicks in a row *)

Lemma click_when_idle (env : Env) (s s' : UI.t) :
  UI.isTesting s = false ->
  click env s = Done tt s' ->
  UI.isTesting s' = false /\
  UI.testHistory s' = newResult (Render.capture s) env :: UI.testHistory s.
Proof.
  intros Hidle Hclick. unfold click in Hclick. rewrite Hidle in Hclick.
  split.
  - destruct (startAllTests_cases (Render.capture s) env s)
      as (s0 & _ & [[Hp _] | [(s2 & s'' & _ & Hfin & Hrun)
                             | (e & s2 & s3 & s'' & _ & _ & Hfin & Hrun)]]);
      [congruence | |];
      rewrite Hclick in Hrun; injection Hrun as <-.
    + destruct (finallyBlock_effect (Render.capture s) env s2)
        as (s'' & Hf & _ & _ & _ & _ & _ & _ & Ht & _).
      rewrite Hfin in Hf. injection Hf as <-. exact Ht.
    + destruct (finallyBlock_effect (Render.capture s) env s3)
        as (s'' & Hf & _ & _ & _ & _ & _ & _ & Ht & _).
      rewrite Hfin in Hf. injection Hf as <-. exact Ht.
  - pose proof (startAllTests_outcome (Render.capture s) env s) as H.
    rewrite Hclick in H. exact H.
Qed.

(** X12.  The history only grows at its front.  Clicks on a component
    that is not running, each made after the run before has finished,
    add exactly one record each and leave the older records as they
    were; a click while a run is marked as running changes nothing. *)
Theorem clicks_prepend_records (envs : list Env) (s s' : UI.t) :
  clicks envs s = Done tt s' ->
  (UI.isTesting s = true -> s' = s) /\
  (UI.isTesting s = false ->
   UI.isTesting s' = false /\
   exists added,
     UI.testHistory s' = (added ++ UI.testHistory s)%list /\
     List.length added = List.length envs).
Proof.
  revert s. induction envs as [| env rest IH]; intros s Hrun; simpl in Hrun.
  - injection Hrun as <-. split; [reflexivity |].
    intro Hidle. split; [exact Hidle |]. exists []. split; reflexivity.
  - destruct (click env s) as [[] s1 | e s1 |] eqn:Hclick; try discriminate Hrun.
    destruct (IH s1 Hrun) as [Hbusy Hidle1].
    split.
    + intro Hbusy0. unfold click in Hclick. rewrite Hbusy0 in Hclick.
      injection Hclick as <-. apply Hbusy, Hbusy0.
    + intro Hidle.
      destruct (click_when_idle env s s1 Hidle Hclick) as [Hoff Hh].
      destruct (Hidle1 Hoff) as (Hoff' & added & Hadded & Hlen).
      split; [exact Hoff' |].
      exists (added ++ [newResult (Render.capture s) env])%list.
      split.
      * rewrite Hadded, Hh, <- app_assoc. reflexivity.
      * rewrite length_app, Hlen. simpl. lia.
Qed.

Lemma clicks_prepend_records_witness :
  exists s' added,
    clicks [fullRun; cancelledInDownload; fullRun] UI.initial = Done tt s' /\
    UI.testHistory s' = added /\ List.length added = 3%nat.
Proof.
  assert (H : exists s', clicks [fullRun; cancelledInDownload; fullRun] UI.initial
                         = Done tt s')
    by (eexists; vm_compute; reflexivity).
  destruct H as (s' & Hrun).
  destruct (clicks_prepend_records _ _ _ Hrun) as [_ Hidle].
  destruct (Hidle eq_refl) as (_ & added & Hadded & Hlen).
  exists s', added. rewrite Hadded, app_nil_r.
  split; [exact Hrun |]. split; [reflexivity | exact Hlen].
Defined.

(** ** From the display back to a number *)

Lemma readDigits_value (d : Decimal.uint) (acc : N) :
  readDigits d acc
  = (acc * 10 ^ DecimalPos.Unsigned.usize d
     + DecimalPos.Unsigned.of_lu (Decimal.rev d))%N.
Proof.
  revert acc.
  induction d as [| d IH | d IH | d IH | d IH | d IH | d IH | d IH | d IH | d IH | d IH];
    intro acc;
    [simpl; rewrite N.mul_1_r, N.add_0_r; reflexivity | ..];
    simpl readDigits; rewrite IH; simpl DecimalPos.Unsigned.usize;
    match goal with
    | |- context [Decimal.rev (?c d)] =>
        change (Decimal.rev (c d)) with (Decimal.revapp d (c Decimal.Nil));
        rewrite (DecimalPos.Unsigned.of_lu_revapp d (c Decimal.Nil))
    end;
    rewrite N.pow_succ_r'; simpl DecimalPos.Unsigned.of_lu; ring.
Qed.

Lemma digits_of_uint (d : Decimal.uint) (rest : string) (acc : N) (k : nat) :
  Js.digits (NilEmpty.string_of_uint d ++ rest) acc k
  = Js.digits rest (readDigits d acc) (k + Decimal.nb_digits d).
Proof.
  revert acc k.
  induction d as [| d IH | d IH | d IH | d IH | d IH | d IH | d IH | d IH | d IH | d IH];
    intros acc k;
    [simpl; rewrite Nat.add_0_r; reflexivity | ..];
    cbn [NilEmpty.string_of_uint append Js.digits];
    match goal with
    | |- context [Js.digit ?c] =>
        let v := eval vm_compute in (Js.digit c) in
        change (Js.digit c) with v
    end;
    cbv iota beta; rewrite IH; cbn [readDigits Decimal.nb_digits];
    f_equal; lia.
Qed.

(** The digits printed for [n], followed by something that is not a
    digit, are read back as [n]. *)
Lemma digits_of_shown (n : N) (after : string) :
  exists count,
    Js.digits (Js.string_of_N n ++ String "." after) 0%N O
    = (n, S count, String "." after).
Proof.
  unfold Js.string_of_N, NilZero.string_of_uint.
  assert (Hnil : N.to_uint n <> Decimal.Nil).
  { destruct n; [discriminate | apply DecimalPos.Unsigned.to_uint_nonnil]. }
  assert (Hshown : match N.to_uint n with
                   | Decimal.Nil => "0"%string
                   | _ => NilEmpty.string_of_uint (N.to_uint n)
                   end = NilEmpty.string_of_uint (N.to_uint n))
    by (destruct (N.to_uint n); [congruence | reflexivity ..]).
  rewrite Hshown, digits_of_uint, readDigits_value.
  rewrite N.mul_0_l, N.add_0_l, <- DecimalPos.Unsigned.of_uint_alt.
  change (Pos.of_uint (N.to_uint n)) with (N.of_uint (N.to_uint n)).
  rewrite DecimalN.Unsigned.of_to.
  destruct (Decimal.nb_digits (N.to_uint n)) as [| count] eqn:E.
  - destruct (N.to_uint n); simpl in E; congruence.
  - exists count. reflexivity.
Qed.

(** What is shown for [n] starts with a digit: it is none of the
    sentinels, has no sign and does not spell Infinity. *)
Lemma shown_is_plain (n : N) (rest : string) :
  measured (Js.string_of_N n ++ rest)
  = Some (Js.parseUnsigned (Js.string_of_N n ++ rest)) /\
  prefix "Infinity" (Js.string_of_N n ++ rest) = false.
Proof.
  unfold Js.string_of_N, NilZero.string_of_uint.
  assert (Hnil : N.to_uint n <> Decimal.Nil).
  { destruct n; [discriminate | apply DecimalPos.Unsigned.to_uint_nonnil]. }
  destruct (N.to_uint n); [congruence | ..]; split; reflexivity.
Qed.

Lemma fractions_read_back (f : N) : (f < 100)%N -> fractionReadsBack f = true.
Proof.
  intro Hf.
  assert (Hall : forallb fractionReadsBack (map N.of_nat (seq 0 100)) = true)
    by (vm_compute; reflexivity).
  rewrite forallb_forall in Hall. apply Hall.
  apply in_map_iff. exists (N.to_nat f). split; [apply N2Nat.id |].
  apply in_seq. lia.
Qed.

Lemma parseUnsigned_decimal (s after rest : string) (w f : N) (nw : nat) :
  prefix "Infinity" s = false ->
  Js.digits s 0%N O = (w, S nw, String "." after) ->
  Js.digits after 0%N O = (f, 2%nat, rest) ->
  Js.parseUnsigned s
  = Js.Fin (Qred (inject_Z (Z.of_N w) + inject_Z (Z.of_N f) / inject_Z (10 ^ Z.of_nat 2))).
Proof.
  intros Hp Hw Hf. unfold Js.parseUnsigned. rewrite Hp, Hw, Hf. reflexivity.
Qed.

(** X13.  A non-negative finite value shown with [toFixed(2)] is read
    back by the [finally] block as a number, never as an absent field
    or NaN: exactly the value shown, the hundredths [n] nearest to the
    value divided by 100, hence within 0.005 of it. *)
Theorem display_reads_back (x : Q) :
  0 <= x ->
  exists v,
    measured (Js.toFixedQ 2 x) = Some (Js.Fin v) /\
    v == inject_Z (Js.scaled 2 x) / 100 /\
    x - (5 # 1000) < v /\ v <= x + (5 # 1000).
Proof.
  intro Hx.
  assert (Hsign : Js.ltb x 0 = false) by (apply ltb_ge; exact Hx).
  assert (Hscaled : (0 <= Js.scaled 2 x)%Z).
  { unfold Js.scaled. rewrite (Qabs_pos x Hx).
    change 0%Z with (Qfloor 0). apply Qfloor_resp_le.
    change (inject_Z (10 ^ Z.of_nat 2)) with 100. lra. }
  set (n := Z.to_N (Js.scaled 2 x)).
  assert (Hn : Z.of_N n = Js.scaled 2 x) by (apply Z2N.id; exact Hscaled).
  assert (Hshape : Js.toFixedQ 2 x
                   = (Js.string_of_N (n / 100)
                      ++ String "." (Js.zeros (2 - String.length (Js.string_of_N (n mod 100)))
                                     ++ Js.string_of_N (n mod 100)))%string).
  { unfold Js.toFixedQ. rewrite Hsign. fold n.
    change (10 ^ N.of_nat 2)%N with 100%N. reflexivity. }
  destruct (shown_is_plain (n / 100)
              (String "." (Js.zeros (2 - String.length (Js.string_of_N (n mod 100)))
                           ++ Js.string_of_N (n mod 100)))) as [Hplain Hprefix].
  destruct (digits_of_shown (n / 100)
              (Js.zeros (2 - String.length (Js.string_of_N (n mod 100)))
               ++ Js.string_of_N (n mod 100))) as (count & Hwhole).
  pose proof (fractions_read_back (n mod 100)) as Hfrac.
  specialize (Hfrac ltac:(apply N.mod_lt; discriminate)).
  unfold fractionReadsBack in Hfrac.
  destruct (Js.digits (Js.zeros (2 - String.length (Js.string_of_N (n mod 100)))
                       ++ Js.string_of_N (n mod 100)) 0%N O)
    as [[value digitsRead] rest] eqn:Hdigits.
  apply andb_true_iff in Hfrac. destruct Hfrac as [Hfrac _].
  apply andb_true_iff in Hfrac. destruct Hfrac as [Hvalue Hcount].
  apply N.eqb_eq in Hvalue. apply Nat.eqb_eq in Hcount. subst value digitsRead.
  rewrite Hshape, Hplain.
  rewrite (parseUnsigned_decimal _ _ _ _ _ _ Hprefix Hwhole Hdigits).
  eexists. split; [reflexivity |].
  assert (Hvalue : Qred (inject_Z (Z.of_N (n / 100))
                         + inject_Z (Z.of_N (n mod 100)) / inject_Z (10 ^ Z.of_nat 2))
                   == inject_Z (Js.scaled 2 x) / 100).
  { rewrite Qred_correct, <- Hn.
    change (inject_Z (10 ^ Z.of_nat 2)) with 100.
    rewrite (N.div_mod n 100) at 3 by discriminate.
    rewrite N2Z.inj_add, N2Z.inj_mul, inject_Z_plus, inject_Z_mult.
    change (inject_Z (Z.of_N 100)) with 100. field. }
  split; [exact Hvalue |].
  rewrite Hvalue.
  pose proof (Qfloor_le (Qabs x * inject_Z (10 ^ Z.of_nat 2) + (1 # 2))) as Hlo.
  pose proof (Qlt_floor (Qabs x * inject_Z (10 ^ Z.of_nat 2) + (1 # 2))) as Hhi.
  fold (Js.scaled 2 x) in Hlo, Hhi.
  rewrite (Qabs_pos x Hx) in Hlo, Hhi.
  change (inject_Z (10 ^ Z.of_nat 2)) with 100 in Hlo, Hhi.
  rewrite inject_Z_plus in Hhi. change (inject_Z 1) with 1 in Hhi.
  unfold Qdiv. change (/ 100) with (1 # 100).
  split; lra.
Qed.

Lemma display_reads_back_witness :
  exists v, measured (Js.toFixedQ 2 (95367431640625 # 1000000000000)) = Some (Js.Fin v) /\
            v == (9537 # 100).
Proof.
  destruct (display_reads_back (95367431640625 # 1000000000000)) as (v & Hm & Hv & _).
  - discriminate.
  - exists v. split; [exact Hm |]. rewrite Hv. reflexivity.
Defined.

(** ** The latency shown *)

(** The digits [toFixed(2)] prints for [n] hundredths are read back as
    [n / 100]. *)
Lemma hundredths_read_back (n : N) :
  exists v,
    Js.parseFloat
      (Js.string_of_N (n / 100)
       ++ String "." (Js.zeros (2 - String.length (Js.string_of_N (n mod 100)))
                      ++ Js.string_of_N (n mod 100)))
    = Js.Fin v /\
    Js.parseUnsigned
      (Js.string_of_N (n / 100)
       ++ String "." (Js.zeros (2 - String.length (Js.string_of_N (n mod 100)))
                      ++ Js.string_of_N (n mod 100)))
    = Js.Fin v /\
    v == inject_Z (Z.of_N n) / 100.
Proof.
  destruct (shown_is_plain (n / 100)
              (String "." (Js.zeros (2 - String.length (Js.string_of_N (n mod 100)))
                           ++ Js.string_of_N (n mod 100)))) as [Hplain Hprefix].
  destruct (digits_of_shown (n / 100)
              (Js.zeros (2 - String.length (Js.string_of_N (n mod 100)))
               ++ Js.string_of_N (n mod 100))) as (count & Hwhole).
  pose proof (fractions_read_back (n mod 100)) as Hfrac.
  specialize (Hfrac ltac:(apply N.mod_lt; discriminate)).
  unfold fractionReadsBack in Hfrac.
  destruct (Js.digits (Js.zeros (2 - String.length (Js.string_of_N (n mod 100)))
                       ++ Js.string_of_N (n mod 100)) 0%N O)
    as [[value digitsRead] rest] eqn:Hdigits.
  apply andb_true_iff in Hfrac. destruct Hfrac as [Hfrac _].
  apply andb_true_iff in Hfrac. destruct Hfrac as [Hvalue Hcount].
  apply N.eqb_eq in Hvalue. apply Nat.eqb_eq in Hcount. subst value digitsRead.
  pose proof (parseUnsigned_decimal _ _ _ _ _ _ Hprefix Hwhole Hdigits) as Hparse.
  assert (Hfloat : Js.parseFloat
                     (Js.string_of_N (n / 100)
                      ++ String "." (Js.zeros (2 - String.length (Js.string_of_N (n mod 100)))
                                     ++ Js.string_of_N (n mod 100)))
                   = Js.parseUnsigned
                       (Js.string_of_N (n / 100)
                        ++ String "." (Js.zeros (2 - String.length (Js.string_of_N (n mod 100)))
                                       ++ Js.string_of_N (n mod 100)))).
  { unfold measured in Hplain.
    destruct (negb (String.eqb _ "-") && negb (String.eqb _ "N/A")
              && negb (String.eqb _ "Error")) in Hplain; [| discriminate Hplain].
    injection Hplain as Hplain. exact Hplain. }
  eexists. split; [rewrite Hfloat; exact Hparse |]. split; [exact Hparse |].
  rewrite Qred_correct.
  change (inject_Z (10 ^ Z.of_nat 2)) with 100.
  rewrite (N.div_mod n 100) at 3 by discriminate.
  rewrite N2Z.inj_add, N2Z.inj_mul, inject_Z_plus, inject_Z_mult.
  change (inject_Z (Z.of_N 100)) with 100. field.
Qed.

Lemma scaled_nonneg (f : nat) (x : Q) : (0 <= Js.scaled f x)%Z.
Proof.
  unfold Js.scaled. change 0%Z with (Qfloor 0). apply Qfloor_resp_le.
  pose proof (Qabs_nonneg x) as Habs.
  assert (Hpow : 0 <= inject_Z (10 ^ Z.of_nat f)).
  { change 0 with (inject_Z 0). rewrite <- Zle_Qle. apply Z.pow_nonneg. lia. }
  pose proof (Qmult_le_0_compat _ _ Habs Hpow). lra.
Qed.

(** What [parseFloat] reads from [x.toFixed(2)], whatever the sign of
    [x]: the hundredths nearest to [|x|], with the sign of [x]. *)
Lemma toFixedQ_reads_back (x : Q) :
  exists v,
    Js.parseFloat (Js.toFixedQ 2 x) = Js.Fin v /\
    v == (if Js.ltb x 0 then - (inject_Z (Js.scaled 2 x) / 100)
          else inject_Z (Js.scaled 2 x) / 100).
Proof.
  set (n := Z.to_N (Js.scaled 2 x)).
  assert (Hn : Z.of_N n = Js.scaled 2 x) by (apply Z2N.id, scaled_nonneg).
  destruct (hundredths_read_back n) as (v & Hfloat & Hunsigned & Hv).
  rewrite Hn in Hv.
  destruct (Js.ltb x 0) eqn:Hsign.
  - exists (- v). split; [| rewrite Hv; reflexivity].
    assert (Hshape : Js.toFixedQ 2 x
                     = String "-"
                         (Js.string_of_N (n / 100)
                          ++ String "." (Js.zeros (2 - String.length (Js.string_of_N (n mod 100)))
                                         ++ Js.string_of_N (n mod 100)))).
    { unfold Js.toFixedQ. rewrite Hsign. fold n.
      change (10 ^ N.of_nat 2)%N with 100%N. reflexivity. }
    rewrite Hshape. cbn [Js.parseFloat]. rewrite Hunsigned. reflexivity.
  - exists v. split; [| exact Hv].
    assert (Hshape : Js.toFixedQ 2 x
                     = (Js.string_of_N (n / 100)
                        ++ String "." (Js.zeros (2 - String.length (Js.string_of_N (n mod 100)))
                                       ++ Js.string_of_N (n mod 100)))%string).
    { unfold Js.toFixedQ. rewrite Hsign. fold n.
      change (10 ^ N.of_nat 2)%N with 100%N. reflexivity. }
    rewrite Hshape. exact Hfloat.
Qed.

(** C10 (amended).  Whenever a numeric latency is reported, every
    retained value is strictly below min(300, 3 x median), so the average
    is strictly below 300 ms.  What is shown is that average printed
    with two decimals: read as a number it never exceeds 300.00, and it
    can equal 300.00, as on a run whose ninety probes are answered in
    299.996 ms. *)
Theorem reported_latency_below_300 :
  (forall (pingTimes : list Q) (a : Q),
      averagePing pingTimes = Some a ->
      exists median,
        medianOf (sortAsc pingTimes) = Some median /\
        let cleaned := cleanedOf (sortAsc pingTimes) median in
        cleaned <> [] /\
        Forall (fun t => t < Js.min 300 (median * 3)) cleaned /\
        a = sumOf cleaned / lengthQ cleaned /\
        a < 300 /\
        pingDisplay pingTimes = Js.toFixedQ 2 a /\
        (forall (env : Env) (lo hi : Q) (s s1 : UI.t),
            pingLoop lo hi (probes env) numPings 0 [] s = Done pingTimes s1 ->
            exists s', runPingTest env lo hi s = Done tt s' /\
                       UI.ping s' = Js.toFixedQ 2 a) /\
        exists shown,
          Js.parseFloat (pingDisplay pingTimes) = Js.Fin shown /\
          shown <= 300) /\
  (exists a,
      averagePing (repeat (299996 # 1000) 90) = Some a /\ a < 300 /\
      pingDisplay (repeat (299996 # 1000) 90) = "300.00"%string /\
      Js.parseFloat (pingDisplay (repeat (299996 # 1000) 90)) = Js.Fin 300) /\
  (forall (env : Env) (s : UI.t),
      exists s',
        runPingTest (withProbes (warmThenSteady 50 (299996 # 1000)) env)
                    0 pingProgressEnd s = Done tt s' /\
        UI.ping s' = "300.00"%string).
Proof.
  split; [| split].
  - intros pingTimes a Ha.
    destruct (averagePing_cases pingTimes) as [[_ Hn] | (m & Hm & _ & Hc)];
      [congruence |].
    cbv zeta in Hc. destruct Hc as [[_ Hn] | [Hne Hs]]; [congruence |].
    rewrite Ha in Hs. injection Hs as Hs.
    exists m. cbv zeta.
    assert (Hall : Forall (fun t => t < Js.min 300 (m * 3))
                          (cleanedOf (sortAsc pingTimes) m)).
    { apply Forall_forall. intros t Ht. apply cleanedOf_In in Ht. apply Ht. }
    assert (Hlt : a < 300).
    { rewrite Hs. apply average_below; [| exact Hne].
      eapply Forall_impl; [| exact Hall]. intros t Ht. cbv beta in Ht.
      pose proof (min_spec 300 (m * 3)) as (H300 & _). lra. }
    split; [exact Hm |]. split; [exact Hne |]. split; [exact Hall |].
    split; [exact Hs |]. split; [exact Hlt |].
    assert (Hshown : pingDisplay pingTimes = Js.toFixedQ 2 a)
      by (unfold pingDisplay; rewrite Ha; reflexivity).
    split; [exact Hshown |].
    split.
    { intros env lo hi s s1 Hloop. eexists.
      split; [apply runPingTest_shows, Hloop |]. exact Hshown. }
    destruct (toFixedQ_reads_back a) as (v & Hread & Hv).
    exists v. split; [rewrite Hshown; exact Hread |].
    pose proof (scaled_nonneg 2 a) as Hpos.
    destruct (Js.ltb a 0) eqn:Hsign.
    + rewrite Hv.
      assert (H0 : 0 <= inject_Z (Js.scaled 2 a))
        by (change 0 with (inject_Z 0); rewrite <- Zle_Qle; exact Hpos).
      unfold Qdiv. change (/ 100) with (1 # 100). lra.
    + apply ltb_ge in Hsign.
      pose proof (scaled_below a 300 30000 Hsign Hlt ltac:(reflexivity)) as Hmax.
      assert (H1 : inject_Z (Js.scaled 2 a) <= 30000)
        by (change 30000 with (inject_Z 30000); rewrite <- Zle_Qle; exact Hmax).
      rewrite Hv. unfold Qdiv. change (/ 100) with (1 # 100). lra.
  - eexists. split; [vm_compute; reflexivity |].
    split; [vm_compute; reflexivity |].
    split; vm_compute; reflexivity.
  - intros env s. eexists. split; [vm_compute; reflexivity | reflexivity].
Qed.

Lemma reported_latency_below_300_witness :
  averagePing [20; 60; 40] = Some (120 # 3) /\
  exists shown,
    Js.parseFloat (pingDisplay [20; 60; 40]) = Js.Fin shown /\ shown <= 300.
Proof.
  assert (Ha : averagePing [20; 60; 40] = Some (120 # 3))
    by (vm_compute; reflexivity).
  split; [exact Ha |].
  destruct (proj1 reported_latency_below_300 [20; 60; 40] _ Ha)
    as (_ & _ & _ & _ & _ & _ & _ & _ & Hshown).
  exact Hshown.
Defined.

(** C10, as worded, fails on the value shown: ninety probes of
    299.996 ms average below 300, and the display reads 300.00. *)
Lemma displayed_latency_reaches_300 :
  ~ (forall (pingTimes : list Q) (shown : Q),
        Js.parseFloat (pingDisplay pingTimes) = Js.Fin shown -> shown < 300).
Proof.
  intro H.
  assert (Hshown : Js.parseFloat (pingDisplay (repeat (299996 # 1000) 90)) = Js.Fin 300)
    by (vm_compute; reflexivity).
  specialize (H _ _ Hshown). vm_compute in H. discriminate H.
Qed.
